(** * OpenClaw gateway: protocol frames, authentication, connection handler,
      chat turns, heartbeat and message history

    A shallow embedding of [openclaw_gateway] (protocol.py, auth.py,
    storage.py, server.py, config.py and the providers llm.py, tts.py and
    asr.py) and the properties its specification states.

    Conventions of the embedding.
    - A Python [str] is a [string] holding its UTF-8 encoding: a character
      of code 128 or more belongs to a non-ASCII code point.
    - A value decoded by [json.loads] is a [json]; a Python [dict] read
      from JSON or built for a frame is an association list in insertion
      order.
    - An outbound frame is kept as the [json] value handed to
      [json.dumps]; the text on the wire is its serialization.
    - The process-wide dictionaries [_clients] and [_conversations] are
      [gmap]s keyed by the client id.
    - Coroutines are state transformers over a [world] that may raise; the
      collaborators outside the repository (the JSON decoder, the
      transport, the random and time sources, the model and speech
      back ends) are the fields of an [env].
    - A coroutine is run from its first statement to its last without
      another one taking a turn at its awaits; [asyncio.create_task] only
      records the task, which is run separately. *)

From Stdlib Require Import ZArith Ascii String List Sorting.Sorted Permutation.
From stdpp Require Import base option list gmap strings pretty sorting.

Set Warnings "-register-all".

Local Open Scope string_scope.
Local Open Scope Z_scope.

(** ** Values decoded from JSON *)

Inductive json :=
| JNull
| JBool (b : bool)
| JInt (z : Z)
| JFloat (repr : string)          (* a Python float, kept by its [repr] *)
| JStr (s : string)
| JList (l : list json)
| JDict (d : list (string * json)).

Abbreviation pydict := (list (string * json)).

Module Py.

(** [d.get(key, default)] on a dict. *)
Fixpoint dict_get (d : pydict) (key : string) (default : json) : json :=
  match d with
  | [] => default
  | (k, v) :: d' => if String.eqb k key then v else dict_get d' key default
  end.

(** [d[key] = v]: an existing key keeps its place. *)
Fixpoint dict_set (d : pydict) (key : string) (v : json) : pydict :=
  match d with
  | [] => [(key, v)]
  | (k, v0) :: d' =>
      if String.eqb k key then (k, v) :: d' else (k, v0) :: dict_set d' key v
  end.

(** [x == s] for a str [s]: only an equal str compares equal. *)
Definition eq_str (x : json) (s : string) : bool :=
  match x with
  | JStr t => String.eqb t s
  | _ => false
  end.

(** Truth value of a JSON value, as tested by [if not x]. *)
Definition truthy (x : json) : bool :=
  match x with
  | JNull => false
  | JBool b => b
  | JInt z => negb (z =? 0)
  | JFloat r => negb (String.eqb r "0.0" || String.eqb r "-0.0")
  | JStr s => negb (String.eqb s "")
  | JList l => match l with [] => false | _ => true end
  | JDict d => match d with [] => false | _ => true end
  end.

Definition is_ascii_char (c : ascii) : bool :=
  match c with Ascii _ _ _ _ _ _ _ b7 => negb b7 end.

(** [s.isascii()]. *)
Fixpoint is_ascii (s : string) : bool :=
  match s with
  | EmptyString => true
  | String c s' => is_ascii_char c && is_ascii s'
  end.

(** [s[:n]] on an ASCII str. *)
Definition prefix (n : nat) (s : string) : string := String.substring 0 n s.

(** Name of the type, as it appears in an [AttributeError]. *)
Definition type_name (x : json) : string :=
  match x with
  | JNull => "NoneType" | JBool _ => "bool" | JInt _ => "int"
  | JFloat _ => "float" | JStr _ => "str" | JList _ => "list"
  | JDict _ => "dict"
  end.

End Py.

(** ** Exceptions and outcomes *)

Inductive exn :=
| WebSocketDisconnect
| Exception (cls msg : string).

(** [str(e)]. *)
Definition exn_str (e : exn) : string :=
  match e with
  | WebSocketDisconnect => ""
  | Exception _ msg => msg
  end.

Inductive outcome (A : Type) :=
| Ok (a : A)
| Raise (e : exn).
Arguments Ok {A} a.
Arguments Raise {A} e.

(** [x.get(key, default)] on an arbitrary decoded value: only a dict has
    the method. *)
Definition py_get (x : json) (key : string) (default : json) : outcome json :=
  match x with
  | JDict d => Ok (Py.dict_get d key default)
  | _ => Raise (Exception "AttributeError"
                  ("'" ++ Py.type_name x ++ "' object has no attribute 'get'"))
  end.

(** ** protocol.py *)

Module protocol.

Definition make_response (req_id : json) (payload : pydict) (ok : bool) : json :=
  JDict [("type", JStr "res"); ("id", req_id); ("ok", JBool ok);
         ("payload", JDict payload)].

Definition make_error (req_id : json) (code message : string) : json :=
  JDict [("type", JStr "res"); ("id", req_id); ("ok", JBool false);
         ("error", JDict [("code", JStr code); ("message", JStr message)])].

Definition make_event (event : string) (payload : pydict) : json :=
  JDict [("type", JStr "event"); ("event", JStr event);
         ("payload", JDict payload)].

Definition make_challenge : json :=
  make_event "connect.challenge"
    [("type", JStr "connect_challenge");
     ("protocols", JList [JInt 3]);
     ("server", JDict [("id", JStr "openclaw-gateway");
                       ("version", JStr "0.1.0")])].

(** [session] is the value of [str(uuid.uuid4())] drawn by the call. *)
Definition make_hello_ok (req_id : json) (session : string) : json :=
  make_response req_id
    [("type", JStr "hello-ok"); ("protocol", JInt 3); ("session", JStr session)]
    true.

Definition make_tick : json := make_event "tick" [].

(** [try: return json.loads(text)  except (json.JSONDecodeError,
    TypeError): return None]. The result [None] is Python's [None]: the
    text ["null"] decodes to it too. *)
Definition parse_frame (json_loads : string -> outcome json) (text : string)
  : outcome (option json) :=
  match json_loads text with
  | Ok JNull => Ok None
  | Ok v => Ok (Some v)
  | Raise (Exception cls msg) =>
      if String.eqb cls "JSONDecodeError" || String.eqb cls "TypeError"
      then Ok None
      else Raise (Exception cls msg)
  | Raise e => Raise e
  end.

Definition make_chat_event (run_id text state : string) (is_final : bool) : json :=
  let payload := [("runId", JStr run_id); ("state", JStr state);
                  ("text", JStr text)] in
  let payload := if is_final then Py.dict_set payload "state" (JStr "final")
                 else payload in
  make_event "chat" payload.

Definition make_agent_lifecycle (run_id phase : string) : json :=
  make_event "agent"
    [("runId", JStr run_id); ("stream", JStr "lifecycle");
     ("data", JDict [("phase", JStr phase)])].

End protocol.

(** ** auth.py *)

(** [hmac.compare_digest(a, b)] where [b] is a str: both arguments must be
    str made of ASCII characters only, anything else is a [TypeError]. *)
Definition compare_digest (a : json) (b : string) : outcome bool :=
  match a with
  | JStr s =>
      if Py.is_ascii s && Py.is_ascii b then Ok (String.eqb s b)
      else Raise (Exception "TypeError"
                    "comparing strings with non-ASCII characters is not supported")
  | _ => Raise (Exception "TypeError"
                  ("unsupported operand types(s) or combination of types: '"
                   ++ Py.type_name a ++ "' and 'str'"))
  end.

(** [expected] is [settings.auth_token]. *)
Definition verify_token (expected : string) (token : json) : outcome bool :=
  if negb (Py.truthy (JStr expected)) then Ok false
  else compare_digest token expected.

(** ** storage.py *)

(** A row of the table [messages]. [text_content] is whatever value the
    caller bound ([JNull] is SQL NULL); [metadata] is the dict that was
    serialized into the column, when there was one. *)
Record message := {
  msg_id : string;
  created_at : string;
  source : string;
  type_ : string;
  priority : string;
  text_content : json;
  audio_url : option string;
  image_url : option string;
  file_url : option string;
  metadata : option pydict
}.

(** One entry of a conversation: [{"role": ..., "content": ...}]. *)
Record turn := { role : string; content : json }.

(** The arguments of one [_handle_chat] coroutine. *)
Record chat_task := {
  task_ws : nat;
  task_client_id : string;
  task_run_id : string;
  task_text : json
}.

(** Observable effects, in the order they happen. *)
Inductive effect :=
| ESend (ws : nat) (frame : json)                 (* ws.send_text(frame) delivered *)
| EClose (ws : nat) (code : Z) (reason : string)  (* ws.close(code, reason) *)
| EStore (row : message)                          (* INSERT INTO messages *)
| EAppend (client_id : string) (t : turn)         (* history.append(t) *)
| EStream (history : list turn)                   (* llm.chat_stream(history) starts *)
| ESpawn (task : chat_task).                      (* asyncio.create_task(_handle_chat(..)) *)

(** The mutable state of the process. *)
Record world := {
  _clients : gmap string nat;
  _conversations : gmap string (list turn);
  messages : list message;          (* the table, in insertion order *)
  closed : gset nat;                (* transports a close frame was sent on *)
  uuid_calls : nat;                 (* calls of uuid.uuid4() so far *)
  clock_calls : nat;                (* calls of datetime.now() so far *)
  trace : list effect
}.

(** What the process reads from outside the repository. *)
Record env := {
  json_loads : string -> outcome json;    (* json.loads *)
  py_repr : json -> string;               (* str() of a value that is not a str *)
  auth_token : string;                    (* settings.auth_token *)
  send_error : nat -> option exn;         (* what a send on this transport raises *)
  uuid4 : nat -> string;                  (* str(uuid.uuid4()), by call number *)
  utc_now : nat -> string;                (* now(utc).isoformat(), by call number *)
  chat_stream : list turn -> string -> list string * option exn;
                                          (* tokens yielded, then how the stream ends *)
  synthesize : string -> outcome (option string);  (* tts.synthesize *)
  b64encode : string -> string            (* base64.b64encode(..).decode("ascii") *)
}.

(** ** Coroutines as state transformers that may raise *)

Definition M (A : Type) : Type := world -> outcome A * world.

Definition ret {A} (a : A) : M A := fun w => (Ok a, w).

Definition bind {A B} (m : M A) (k : A -> M B) : M B :=
  fun w => match m w with
           | (Ok a, w') => k a w'
           | (Raise e, w') => (Raise e, w')
           end.

Definition raise {A} (e : exn) : M A := fun w => (Raise e, w).

Definition lift {A} (o : outcome A) : M A := fun w => (o, w).

(** [try: m  except Exception as e: h e] (every [exn] is an [Exception]). *)
Definition try_except {A} (m : M A) (h : exn -> M A) : M A :=
  fun w => match m w with
           | (Ok a, w') => (Ok a, w')
           | (Raise e, w') => h e w'
           end.

(** [try: m  finally: fin]. *)
Definition try_finally {A} (m : M A) (fin : M unit) : M A :=
  fun w => match m w with
           | (r, w') => match fin w' with
                        | (Ok _, w'') => (r, w'')
                        | (Raise e, w'') => (Raise e, w'')
                        end
           end.

Definition get : M world := fun w => (Ok w, w).
Definition modify (f : world -> world) : M unit := fun w => (Ok tt, f w).

Declare Scope coro_scope.
Delimit Scope coro_scope with coro.
Notation "x <- c ;; k" := (bind c (fun x => k))
  (at level 100, c at next level, right associativity) : coro_scope.
Notation "c ;;; k" := (bind c (fun _ => k))
  (at level 100, right associativity) : coro_scope.
Local Open Scope coro_scope.

(** The world after the effects [es] were observed. *)
Definition emit (es : list effect) (w : world) : world :=
  {| _clients := _clients w; _conversations := _conversations w;
     messages := messages w; closed := closed w;
     uuid_calls := uuid_calls w; clock_calls := clock_calls w;
     trace := trace w ++ es |}.

Definition log (e : effect) : M unit := modify (emit [e]).

Definition set_clients (f : gmap string nat -> gmap string nat) : M unit :=
  modify (fun w => {| _clients := f (_clients w); _conversations := _conversations w;
                      messages := messages w; closed := closed w;
                      uuid_calls := uuid_calls w; clock_calls := clock_calls w;
                      trace := trace w |}).

Definition set_conversations
    (f : gmap string (list turn) -> gmap string (list turn)) : M unit :=
  modify (fun w => {| _clients := _clients w; _conversations := f (_conversations w);
                      messages := messages w; closed := closed w;
                      uuid_calls := uuid_calls w; clock_calls := clock_calls w;
                      trace := trace w |}).

Definition insert_row (r : message) : M unit :=
  modify (fun w => {| _clients := _clients w; _conversations := _conversations w;
                      messages := messages w ++ [r]; closed := closed w;
                      uuid_calls := uuid_calls w; clock_calls := clock_calls w;
                      trace := trace w |}).

Definition mark_closed (ws : nat) : M unit :=
  modify (fun w => {| _clients := _clients w; _conversations := _conversations w;
                      messages := messages w; closed := {[ws]} ∪ closed w;
                      uuid_calls := uuid_calls w; clock_calls := clock_calls w;
                      trace := trace w |}).

Definition next_uuid_call : M nat :=
  fun w => (Ok (uuid_calls w),
            {| _clients := _clients w; _conversations := _conversations w;
               messages := messages w; closed := closed w;
               uuid_calls := S (uuid_calls w); clock_calls := clock_calls w;
               trace := trace w |}).

Definition next_clock_call : M nat :=
  fun w => (Ok (clock_calls w),
            {| _clients := _clients w; _conversations := _conversations w;
               messages := messages w; closed := closed w;
               uuid_calls := uuid_calls w; clock_calls := S (clock_calls w);
               trace := trace w |}).

(** ** storage.py: the table and its two operations *)

Module storage.

(** What sqlite3 accepts as a bound parameter: None, int within 64 bits
    (bool is an int), float and str. *)
Definition bind_parameter (v : json) : outcome unit :=
  match v with
  | JList _ | JDict _ =>
      Raise (Exception "ProgrammingError"
               ("Error binding parameter 6: type '" ++ Py.type_name v
                ++ "' is not supported"))
  | JInt z =>
      if (- 2 ^ 63 <=? z) && (z <? 2 ^ 63) then Ok tt
      else Raise (Exception "OverflowError"
                    "Python int too large to convert to SQLite INTEGER")
  | _ => Ok tt
  end.

(** [id TEXT PRIMARY KEY]. *)
Definition id_taken (rows : list message) (i : string) : bool :=
  existsb (fun r => String.eqb (msg_id r) i) rows.

Definition row_dict (r : message) : pydict :=
  let opt o := match o with Some s => JStr s | None => JNull end in
  [("id", JStr (msg_id r)); ("created_at", JStr (created_at r));
   ("source", JStr (source r)); ("type", JStr (type_ r));
   ("priority", JStr (priority r)); ("text_content", text_content r);
   ("audio_url", opt (audio_url r)); ("image_url", opt (image_url r));
   ("file_url", opt (file_url r))].

Section with_env.
Context (E : env).

Definition store_message (source type priority : string) (text_content : json)
    (audio_url image_url file_url : option string) (metadata : option pydict)
  : M pydict :=
  n <- next_uuid_call ;;
  let msg_id := uuid4 E n in
  c <- next_clock_call ;;
  let now := utc_now E c in
  let row := {| msg_id := msg_id; created_at := now; source := source;
                type_ := type; priority := priority;
                text_content := text_content; audio_url := audio_url;
                image_url := image_url; file_url := file_url;
                metadata := match metadata with
                            | Some (_ :: _ as d) => Some d
                            | _ => None
                            end |} in
  lift (bind_parameter text_content) ;;;
  w <- get ;;
  (if id_taken (messages w) msg_id
   then raise (Exception "IntegrityError" "UNIQUE constraint failed: messages.id")
   else ret tt) ;;;
  insert_row row ;;;
  log (EStore row) ;;;
  ret (row_dict row).

End with_env.

(** [ORDER BY created_at DESC]: text compared byte by byte. SQLite leaves
    the order of rows with equal timestamps open; the sort used here is
    one such order. *)
Definition newer_first (a b : message) : Prop :=
  String.leb (created_at b) (created_at a) = true.

#[global] Instance newer_first_dec : RelDecision newer_first.
Proof. intros a b. unfold newer_first. apply _. Defined.

(** [LIMIT ?] once the parameter is bound, so for a [limit] that fits in
    64 bits: a negative limit means no limit. *)
Definition sql_limit {A} (limit : Z) (rows : list A) : list A :=
  if limit <? 0 then rows else firstn (Z.to_nat limit) rows.

(** The rows of [SELECT * FROM messages ORDER BY created_at DESC LIMIT ?]
    for a bound [limit], then [reversed(rows)]. *)
Definition select_recent (limit : Z) (rows : list message) : list message :=
  reverse (sql_limit limit (merge_sort newer_first rows)).

(** [db.execute(.., (limit,))] binds [limit] as a 64-bit integer and
    raises [OverflowError] when it does not fit; nothing is read then. *)
Definition get_messages (limit : Z) : M (list message) :=
  lift (bind_parameter (JInt limit)) ;;;
  w <- get ;;
  ret (select_recent limit (messages w)).

End storage.

(** ** server.py *)

Module server.

Definition SYSTEM_PROMPT : string :=
  "You are a helpful AI assistant connected via OpenClaw Gateway. "
  ++ "Be concise and direct in your responses.".

(** How one pass of the read loop ends: [continue] (or falling through to
    the next iteration) with the value of [authenticated], or [return]. *)
Inductive loop_ctl :=
| Continue (authenticated : bool)
| Return.

(** [history[-40:]]. *)
Definition last40 (history : list turn) : list turn :=
  skipn (length history - 40)%nat history.

(** The frame of the [except Exception as e] clause of [_handle_chat]. *)
Definition error_frame (run_id : string) (e : exn) : json :=
  protocol.make_event "agent"
    [("runId", JStr run_id); ("stream", JStr "error");
     ("data", JDict [("message", JStr (exn_str e))])].

Section with_env.
Context (E : env).

(** [await ws.send_text(frame)]: raises once a close frame was sent on the
    transport, or what the transport raises. *)
Definition send_text (ws : nat) (frame : json) : M unit :=
  w <- get ;;
  if bool_decide (ws ∈ closed w)
  then raise (Exception "RuntimeError"
                "Cannot call send once a close message has been sent.")
  else match send_error E ws with
       | Some e => raise e
       | None => log (ESend ws frame)
       end.

(** [await ws.close(code, reason)]: a close frame is one more send. *)
Definition close (ws : nat) (code : Z) (reason : string) : M unit :=
  w <- get ;;
  if bool_decide (ws ∈ closed w)
  then raise (Exception "RuntimeError"
                "Cannot call send once a close message has been sent.")
  else match send_error E ws with
       | Some e => raise e
       | None => mark_closed ws ;;; log (EClose ws code reason)
       end.

(** [str(uuid.uuid4())]. *)
Definition uuid4_str : M string :=
  n <- next_uuid_call ;;
  ret (uuid4 E n).

(** [f"{x}"] for a decoded value. *)
Definition format (x : json) : string :=
  match x with
  | JStr s => s
  | _ => py_repr E x
  end.

(** [storage.store_message(source=.., text_content=..)]. *)
Definition store_text (source : string) (text_content : json) : M pydict :=
  storage.store_message E source "text" "normal" text_content None None None None.

(** [history.append(t)] on the list object [history]: the entry of
    [_conversations] when the list came from there ([attached]), a list of
    the coroutine's own otherwise. *)
Definition history_append (client_id : string) (attached : bool)
    (history : list turn) (t : turn) : M (list turn) :=
  let history := (history ++ [t])%list in
  (if attached then set_conversations (fun c => <[client_id := history]> c)
   else ret tt) ;;;
  log (EAppend client_id t) ;;;
  ret history.

(** [if len(history) > 40: history[:] = history[-40:]]. *)
Definition history_trim (client_id : string) (attached : bool)
    (history : list turn) : M (list turn) :=
  if (40 <? length history)%nat
  then let history := last40 history in
       (if attached then set_conversations (fun c => <[client_id := history]> c)
        else ret tt) ;;;
       ret history
  else ret history.

(** The [async for token in llm.chat_stream(..)] loop, over the tokens the
    stream yields. *)
Fixpoint stream_deltas (ws : nat) (run_id : string) (full_response : string)
    (tokens : list string) : M string :=
  match tokens with
  | [] => ret full_response
  | token :: rest =>
      let full_response := full_response ++ token in
      send_text ws (protocol.make_chat_event run_id full_response "delta" false) ;;;
      stream_deltas ws run_id full_response rest
  end.

(** The block [# TTS (if enabled)]: the audio is broadcast when the
    synthesis returned bytes, and there is at least one. *)
Definition speak (ws : nat) (full_response : string) : M unit :=
  audio <- lift (synthesize E full_response) ;;
  match audio with
  | Some (String _ _ as audio) =>
      send_text ws
        (protocol.make_event "audio_broadcast"
           [("audio_base64", JStr (b64encode E audio));
            ("text", JStr full_response)])
  | _ => ret tt
  end.

(** The body of the [try] of [_handle_chat]. *)
Definition chat_body (ws : nat) (client_id run_id : string) (text : json) : M unit :=
  send_text ws (protocol.make_agent_lifecycle run_id "start") ;;;
  w <- get ;;
  let attached := bool_decide (is_Some (_conversations w !! client_id)) in
  let history := default [] (_conversations w !! client_id) in
  history <- history_append client_id attached history
               {| role := "user"; content := text |} ;;
  log (EStream history) ;;;
  let '(tokens, fault) := chat_stream E history SYSTEM_PROMPT in
  full_response <- stream_deltas ws run_id "" tokens ;;
  match fault with Some e => raise e | None => ret tt end ;;;
  send_text ws (protocol.make_chat_event run_id full_response "final" true) ;;;
  send_text ws (protocol.make_agent_lifecycle run_id "end") ;;;
  history <- history_append client_id attached history
               {| role := "assistant"; content := JStr full_response |} ;;
  history_trim client_id attached history ;;;
  store_text "crab" (JStr full_response) ;;;
  speak ws full_response.

Definition _handle_chat (ws : nat) (client_id run_id : string) (text : json)
  : M unit :=
  try_except (chat_body ws client_id run_id text)
    (fun e =>
       match e with
       | WebSocketDisconnect => ret tt
       | _ =>
           try_except (send_text ws (error_frame run_id e)) (fun _ => ret tt)
       end).

(** [asyncio.create_task(_handle_chat(ws, client_id, run_id, text))]. *)
Definition create_task (ws : nat) (client_id run_id : string) (text : json)
  : M unit :=
  log (ESpawn {| task_ws := ws; task_client_id := client_id;
                 task_run_id := run_id; task_text := text |}).

Definition run_task (t : chat_task) : M unit :=
  _handle_chat (task_ws t) (task_client_id t) (task_run_id t) (task_text t).

(** The branch [if method == "connect"]: the auth handshake. *)
Definition on_connect (ws : nat) (client_id : string) (req_id params : json)
  : M loop_ctl :=
  auth <- lift (py_get params "auth" (JDict [])) ;;
  token <- lift (py_get auth "token" (JStr "")) ;;
  valid <- lift (verify_token (auth_token E) token) ;;
  if valid then
    set_clients (fun c => <[client_id := ws]> c) ;;;
    set_conversations
      (fun c => match c !! client_id with
                | Some _ => c
                | None => <[client_id := []]> c
                end) ;;;
    session <- uuid4_str ;;
    send_text ws (protocol.make_hello_ok req_id session) ;;;
    ret (Continue true)
  else
    send_text ws (protocol.make_error req_id "auth_failed" "Invalid token") ;;;
    close ws 4001 "Authentication failed" ;;;
    ret Return.

(** The branch [elif method == "chat.send"]. *)
Definition on_chat_send (ws : nat) (client_id : string) (authenticated : bool)
    (req_id params : json) : M loop_ctl :=
  if negb authenticated then
    send_text ws
      (protocol.make_error req_id "not_authenticated" "Not authenticated") ;;;
    ret (Continue authenticated)
  else
    message_text <- lift (py_get params "message" (JStr "")) ;;
    if negb (Py.truthy message_text) then ret (Continue authenticated)
    else
      u <- uuid4_str ;;
      let run_id := Py.prefix 12 u in
      send_text ws
        (protocol.make_response req_id
           [("status", JStr "accepted"); ("runId", JStr run_id)] true) ;;;
      store_text "human" message_text ;;;
      create_task ws client_id run_id message_text ;;;
      ret (Continue authenticated).

(** The branch [elif method == "approval.respond"]. *)
Definition on_approval_respond (ws : nat) (authenticated : bool) (req_id : json)
  : M loop_ctl :=
  if negb authenticated then ret (Continue authenticated)
  else
    send_text ws
      (protocol.make_response req_id [("status", JStr "acknowledged")] true) ;;;
    ret (Continue authenticated).

(** The last branch: any other method. *)
Definition on_unknown (ws : nat) (authenticated : bool) (req_id method : json)
  : M loop_ctl :=
  send_text ws
    (protocol.make_error req_id "unknown_method"
       ("Unknown: " ++ format method)) ;;;
  ret (Continue authenticated).

(** One pass of the body of [while True] in [gateway_ws], after
    [receive_text] returned [text]. *)
Definition handle_text (ws : nat) (client_id : string) (authenticated : bool)
    (text : string) : M loop_ctl :=
  frame <- lift (protocol.parse_frame (json_loads E) text) ;;
  match frame with
  | None => ret (Continue authenticated)
  | Some frame =>
    frame_type <- lift (py_get frame "type" (JStr "")) ;;
    req_id <- lift (py_get frame "id" (JStr "")) ;;
    if Py.eq_str frame_type "req" then
      method <- lift (py_get frame "method" (JStr "")) ;;
      params <- lift (py_get frame "params" (JDict [])) ;;
      if Py.eq_str method "connect" then
        on_connect ws client_id req_id params
      else if Py.eq_str method "chat.send" then
        on_chat_send ws client_id authenticated req_id params
      else if Py.eq_str method "approval.respond" then
        on_approval_respond ws authenticated req_id
      else
        on_unknown ws authenticated req_id method
    else ret (Continue authenticated)
  end.

(** The [while True] loop over the texts the client sends; when they are
    exhausted [receive_text] raises [WebSocketDisconnect]. *)
Fixpoint read_loop (ws : nat) (client_id : string) (authenticated : bool)
    (inbox : list string) : M unit :=
  match inbox with
  | [] => raise WebSocketDisconnect
  | text :: inbox' =>
      ctl <- handle_text ws client_id authenticated text ;;
      match ctl with
      | Continue authenticated => read_loop ws client_id authenticated inbox'
      | Return => ret tt
      end
  end.

(** The [finally] clause of [gateway_ws]. *)
Definition cleanup (client_id : string) : M unit :=
  set_clients (fun c => delete client_id c) ;;;
  set_conversations (fun c => delete client_id c).

(** [gateway_ws(ws)], for a client whose connection is accepted, that
    sends [inbox] and then goes away. Both [except] clauses only log. *)
Definition gateway_ws (ws : nat) (inbox : list string) : M unit :=
  u <- uuid4_str ;;
  let client_id := Py.prefix 8 u in
  send_text ws protocol.make_challenge ;;;
  try_finally
    (try_except (read_loop ws client_id false inbox) (fun _ => ret tt))
    (cleanup client_id).

(** One pass of [for client_id, ws in list(_clients.items())]. *)
Definition tick_one (tick : json) (entry : string * nat) : M unit :=
  let '(client_id, ws) := entry in
  try_except (send_text ws tick)
    (fun _ => set_clients (fun c => delete client_id c)).

Fixpoint for_each {A} (body : A -> M unit) (l : list A) : M unit :=
  match l with
  | [] => ret tt
  | x :: l' => body x ;;; for_each body l'
  end.

(** One iteration of [_heartbeat_loop], after the sleep. *)
Definition heartbeat_tick : M unit :=
  let tick := protocol.make_tick in
  w <- get ;;
  for_each (tick_one tick) (map_to_list (_clients w)).

(** [n] iterations of the loop, which only ends when it is cancelled. *)
Fixpoint _heartbeat_loop (n : nat) : M unit :=
  match n with
  | O => ret tt
  | S n' => heartbeat_tick ;;; _heartbeat_loop n'
  end.

(** [GET /messages?limit=..]. *)
Definition get_messages (limit : option Z) : M (list message) :=
  storage.get_messages (default 50 limit).

End with_env.

End server.

(** ** A concrete environment, for running the handler on sample inputs *)

Module Sample.

Fixpoint skip_ws (s : string) : string :=
  match s with
  | String " " s' | String "009" s' | String "010" s' | String "013" s' => skip_ws s'
  | _ => s
  end.

Definition digit (c : ascii) : option Z :=
  let n := Z.of_nat (nat_of_ascii c) in
  if (48 <=? n) && (n <=? 57) then Some (n - 48) else None.

(** The digits at the head of [s], accumulated in base ten. *)
Fixpoint digits (acc : Z) (s : string) : Z * string :=
  match s with
  | String c s' =>
      match digit c with
      | Some d => digits (10 * acc + d) s'
      | None => (acc, s)
      end
  | EmptyString => (acc, s)
  end.

(** An unsigned integer literal: no leading zero, no fraction, no
    exponent. *)
Definition natural (s : string) : option (Z * string) :=
  match s with
  | String c s' =>
      match digit c with
      | None => None
      | Some d =>
          let '(z, r) := digits d s' in
          match s', r with
          | String c' _, _ =>
              if (d =? 0) && bool_decide (is_Some (digit c')) then None
              else match r with
                   | String "." _ | String "e" _ | String "E" _ => None
                   | _ => Some (z, r)
                   end
          | EmptyString, _ => Some (z, r)
          end
      end
  | EmptyString => None
  end.

(** The characters up to the closing quote; escapes and control
    characters are outside the fragment. *)
Fixpoint chars (s : string) : option (string * string) :=
  match s with
  | EmptyString => None
  | String "034" s' => Some (EmptyString, s')
  | String "\" _ => None
  | String c s' =>
      if (Z.of_nat (nat_of_ascii c) <? 32) then None
      else match chars s' with
           | Some (t, r) => Some (String c t, r)
           | None => None
           end
  end.

Definition literal (word : string) (v : json) (s : string) : option (json * string) :=
  if String.prefix word s
  then Some (v, String.substring (String.length word)
                  (String.length s - String.length word) s)
  else None.

Fixpoint value (fuel : nat) (s : string) : option (json * string) :=
  match fuel with
  | O => None
  | S fuel =>
      match skip_ws s with
      | String "n" _ as s => literal "null" JNull s
      | String "t" _ as s => literal "true" (JBool true) s
      | String "f" _ as s => literal "false" (JBool false) s
      | String "034" s' =>
          match chars s' with
          | Some (t, r) => Some (JStr t, r)
          | None => None
          end
      | String "-" s' =>
          match natural s' with
          | Some (z, r) => Some (JInt (- z), r)
          | None => None
          end
      | String "[" s' =>
          match skip_ws s' with
          | String "]" r => Some (JList [], r)
          | _ => match elements fuel s' [] with
                 | Some (l, r) => Some (JList l, r)
                 | None => None
                 end
          end
      | String "{" s' =>
          match skip_ws s' with
          | String "}" r => Some (JDict [], r)
          | _ => match members fuel s' [] with
                 | Some (d, r) => Some (JDict d, r)
                 | None => None
                 end
          end
      | s => match natural s with
             | Some (z, r) => Some (JInt z, r)
             | None => None
             end
      end
  end
with elements (fuel : nat) (s : string) (acc : list json)
  : option (list json * string) :=
  match fuel with
  | O => None
  | S fuel =>
      match value fuel s with
      | Some (v, r) =>
          match skip_ws r with
          | String "," r' => elements fuel r' (acc ++ [v])%list
          | String "]" r' => Some ((acc ++ [v])%list, r')
          | _ => None
          end
      | None => None
      end
  end
with members (fuel : nat) (s : string) (acc : pydict)
  : option (pydict * string) :=
  match fuel with
  | O => None
  | S fuel =>
      match skip_ws s with
      | String "034" s' =>
          match chars s' with
          | Some (k, r) =>
              match skip_ws r with
              | String ":" r' =>
                  match value fuel r' with
                  | Some (v, r'') =>
                      match skip_ws r'' with
                      | String "," r3 => members fuel r3 (Py.dict_set acc k v)
                      | String "}" r3 => Some (Py.dict_set acc k v, r3)
                      | _ => None
                      end
                  | None => None
                  end
              | _ => None
              end
          | None => None
          end
      | _ => None
      end
  end.

(** A decoder for the JSON texts without fractions, exponents and
    escapes, on which it agrees with [json.loads]. *)
Definition loads (text : string) : option json :=
  match value (2 * String.length text + 2) text with
  | Some (v, r) => match skip_ws r with EmptyString => Some v | _ => None end
  | None => None
  end.

(** [repr(x)] for values whose strings need no escape. *)
Fixpoint repr (x : json) : string :=
  match x with
  | JNull => "None"
  | JBool true => "True"
  | JBool false => "False"
  | JInt z => pretty z
  | JFloat r => r
  | JStr s => "'" ++ s ++ "'"
  | JList l => "[" ++ String.concat ", " (map repr l) ++ "]"
  | JDict d =>
      "{" ++ String.concat ", "
               (map (fun kv => "'" ++ fst kv ++ "': " ++ repr (snd kv)) d) ++ "}"
  end.

Definition pad (width : nat) (s : string) : string :=
  String.concat EmptyString (replicate (width - String.length s) "0") ++ s.

(** The [n]-th identifier drawn: distinct for distinct [n] below 10^8. *)
Definition uuid (n : nat) : string :=
  pad 8 (pretty n) ++ "-0000-4000-8000-000000000000".

(** The [n]-th reading of the clock, one second after the previous one. *)
Definition now (n : nat) : string :=
  "2025-01-01T00:00:" ++ pad 2 (pretty n) ++ ".000000+00:00".

(** An environment with the given secret, transport faults and model
    output; speech synthesis is disabled. *)
Definition environment (secret : string) (faults : nat -> option exn)
    (stream : list string * option exn) : env :=
  {| json_loads := fun text =>
       match loads text with
       | Some v => Ok v
       | None => Raise (Exception "JSONDecodeError" "Expecting value")
       end;
     py_repr := repr;
     auth_token := secret;
     send_error := faults;
     uuid4 := uuid;
     utc_now := now;
     chat_stream := fun _ _ => stream;
     synthesize := fun _ => Ok None;
     b64encode := fun s => s |}.

(** The process right after start-up. *)
Definition boot : world :=
  {| _clients := ∅; _conversations := ∅; messages := []; closed := ∅;
     uuid_calls := 0; clock_calls := 0; trace := [] |}.

End Sample.

(** The two bytes 195 169: a two-byte UTF-8 sequence, one non-ASCII
    character. *)
Definition e_acute : string :=
  String (ascii_of_nat 195) (String (ascii_of_nat 169) EmptyString).

(** ** Reading a trace *)

(** A JSON text written with ['] where JSON has the double quote. *)
Fixpoint text (s : string) : string :=
  match s with
  | EmptyString => EmptyString
  | String c s' =>
      String (if Ascii.eqb c "'" then ascii_of_nat 34 else c) (text s')
  end.

(** [f.get(key)] on a frame. *)
Definition field (f : json) (key : string) : json :=
  match f with
  | JDict d => Py.dict_get d key JNull
  | _ => JNull
  end.

(** The frames delivered on the transport [ws], in order. *)
Fixpoint sent_on (ws : nat) (tr : list effect) : list json :=
  match tr with
  | [] => []
  | ESend ws' f :: tr' =>
      if Nat.eqb ws' ws then f :: sent_on ws tr' else sent_on ws tr'
  | _ :: tr' => sent_on ws tr'
  end.


(** The event frames of the run [run_id] among [frames]. *)
Definition run_events (run_id : string) (frames : list json) : list json :=
  filter (fun f => Py.eq_str (field f "type") "event" = true /\
                   Py.eq_str (field (field f "payload") "runId") run_id = true)
         frames.

(** The text accumulated after each token: what the deltas carry. *)
Fixpoint accumulate (full : string) (tokens : list string) : list string :=
  match tokens with
  | [] => []
  | token :: rest => (full ++ token) :: accumulate (full ++ token) rest
  end.

(** The tokens put end to end: the text of the whole reply. *)
Definition join (tokens : list string) : string :=
  foldr String.append EmptyString tokens.

(** The frames of a chat turn that ran to its end: the deltas of the
    accumulated texts between the lifecycle markers, the final text before
    the closing marker. *)
Definition turn_frames (run_id : string) (tokens : list string) : list json :=
  [protocol.make_agent_lifecycle run_id "start"]
  ++ map (fun acc => protocol.make_chat_event run_id acc "delta" false)
         (accumulate EmptyString tokens)
  ++ [protocol.make_chat_event run_id (join tokens) "final" true;
      protocol.make_agent_lifecycle run_id "end"].

(** The world once the list object of [client_id] holds [history]. *)
Definition write_history (client_id : string) (attached : bool)
    (history : list turn) (w : world) : world :=
  {| _clients := _clients w;
     _conversations := if attached then <[client_id := history]> (_conversations w)
                       else _conversations w;
     messages := messages w; closed := closed w;
     uuid_calls := uuid_calls w; clock_calls := clock_calls w;
     trace := trace w |}.

Definition user_turn (text : json) : turn := {| role := "user"; content := text |}.

Definition assistant_turn (full_response : string) : turn :=
  {| role := "assistant"; content := JStr full_response |}.

(** The sends of the deltas of a stream that starts from [full]. *)
Definition delta_sends (ws : nat) (run_id full : string) (tokens : list string)
  : list effect :=
  map (fun acc => ESend ws (protocol.make_chat_event run_id acc "delta" false))
      (accumulate full tokens).

(** The effects of a chat turn from its first frame to the last append,
    when the stream yields [tokens] and ends. *)
Definition turn_effects (ws : nat) (client_id run_id : string) (text : json)
    (history : list turn) (tokens : list string) : list effect :=
  [ESend ws (protocol.make_agent_lifecycle run_id "start");
   EAppend client_id (user_turn text);
   EStream (history ++ [user_turn text])]
  ++ delta_sends ws run_id EmptyString tokens
  ++ [ESend ws (protocol.make_chat_event run_id (join tokens) "final" true);
      ESend ws (protocol.make_agent_lifecycle run_id "end");
      EAppend client_id (assistant_turn (join tokens))].

(** The world of such a turn when it reaches the storage of the reply. *)
Definition streamed (ws : nat) (client_id run_id : string) (text : json)
    (tokens : list string) (w : world) : world :=
  let attached := bool_decide (is_Some (_conversations w !! client_id)) in
  let history := default [] (_conversations w !! client_id) in
  emit (turn_effects ws client_id run_id text history tokens)
    (write_history client_id attached
       (server.last40 (history ++ [user_turn text; assistant_turn (join tokens)]))
       w).

(** The row [store_message(source=.., text_content=..)] writes in [w]. *)
Definition new_row (E : env) (source : string) (text_content : json) (w : world)
  : message :=
  {| msg_id := uuid4 E (uuid_calls w); created_at := utc_now E (clock_calls w);
     source := source; type_ := "text"; priority := "normal";
     text_content := text_content; audio_url := None; image_url := None;
     file_url := None; metadata := None |}.

(** The world after one more identifier and one more clock reading. *)
Definition drawn (w : world) : world :=
  {| _clients := _clients w; _conversations := _conversations w;
     messages := messages w; closed := closed w;
     uuid_calls := S (uuid_calls w); clock_calls := S (clock_calls w);
     trace := trace w |}.

(** The world after that row was written. *)
Definition stored (E : env) (source : string) (text_content : json) (w : world)
  : world :=
  {| _clients := _clients w; _conversations := _conversations w;
     messages := messages w ++ [new_row E source text_content w];
     closed := closed w;
     uuid_calls := S (uuid_calls w); clock_calls := S (clock_calls w);
     trace := trace w ++ [EStore (new_row E source text_content w)] |}.

(** The insertion goes through: the value can be bound and the identifier
    drawn is not a key of the table yet. *)
Definition storable (E : env) (text_content : json) (w : world) : Prop :=
  storage.bind_parameter text_content = Ok tt /\
  storage.id_taken (messages w) (uuid4 E (uuid_calls w)) = false.

(** The frame of the block [# TTS (if enabled)], when it sends one. *)
Definition audio_frames (E : env) (full_response : string) (audio : option string)
  : list json :=
  match audio with
  | Some (String _ _ as audio) =>
      [protocol.make_event "audio_broadcast"
         [("audio_base64", JStr (b64encode E audio));
          ("text", JStr full_response)]]
  | _ => []
  end.

(** The world after one more identifier was drawn. *)
Definition uuid_drawn (w : world) : world :=
  {| _clients := _clients w; _conversations := _conversations w;
     messages := messages w; closed := closed w;
     uuid_calls := S (uuid_calls w); clock_calls := clock_calls w;
     trace := trace w |}.



(** What the rest of the process can see of a step: the trace only grows,
    and the registry of transports is not touched. *)
Definition grows (w w' : world) (tail : list effect) : Prop :=
  trace w' = (trace w ++ tail)%list /\ closed w' = closed w /\ _clients w' = _clients w.

(** The world once the session [client_id] is registered on [ws]. *)
Definition registered (client_id : string) (ws : nat) (w : world) : world :=
  {| _clients := <[client_id := ws]> (_clients w);
     _conversations := match _conversations w !! client_id with
                       | Some _ => _conversations w
                       | None => <[client_id := []]> (_conversations w)
                       end;
     messages := messages w; closed := closed w;
     uuid_calls := uuid_calls w; clock_calls := clock_calls w;
     trace := trace w |}.

(** The world once a close frame was sent on [ws]. *)
Definition shut (ws : nat) (w : world) : world :=
  {| _clients := _clients w; _conversations := _conversations w;
     messages := messages w; closed := {[ws]} ∪ closed w;
     uuid_calls := uuid_calls w; clock_calls := clock_calls w;
     trace := trace w |}.



(** A transport that takes frames: the server sent no close frame on it
    and its sends raise nothing. *)
Definition accepts (E : env) (ws : nat) (w : world) : Prop :=
  (ws ∉ closed w) /\ send_error E ws = None.

(** ** The order of the effects of a chat request *)







(** The tasks created along a trace. *)
Fixpoint spawned (tr : list effect) : list chat_task :=
  match tr with
  | [] => []
  | ESpawn t :: tr' => t :: spawned tr'
  | _ :: tr' => spawned tr'
  end.

(** ** Steps that keep a relation between the worlds *)

(** Every run of [m] relates the world it starts in to the one it ends
    in, whether it returns or raises. *)
Definition steps {A} (R : world -> world -> Prop) (m : M A) : Prop :=
  forall w, R w (snd (m w)).


(** ** The heartbeat *)

(** A send on [ws] goes through in [w]. *)
Definition delivers (E : env) (w : world) (ws : nat) : bool :=
  negb (bool_decide (ws ∈ closed w))
  && match send_error E ws with None => true | Some _ => false end.

(** The world once [client_id] left [_clients]. *)
Definition dropped (client_id : string) (w : world) : world :=
  {| _clients := delete client_id (_clients w);
     _conversations := _conversations w;
     messages := messages w; closed := closed w;
     uuid_calls := uuid_calls w; clock_calls := clock_calls w;
     trace := trace w |}.

(** The world after the tick went over the sessions [l]. *)
Fixpoint ticked (E : env) (l : list (string * nat)) (w : world) : world :=
  match l with
  | [] => w
  | (client_id, ws) :: l' =>
      ticked E l' (if delivers E w ws then emit [ESend ws protocol.make_tick] w
                   else dropped client_id w)
  end.

Module Scenario.

(** The environment of the scenarios: secret ["s3cret"], a transport
    without faults, a model that yields ["Hel"] then ["lo"]. *)
Definition E0 : env :=
  Sample.environment "s3cret" (fun _ => None) (["Hel"; "lo"], None).

(** The log after three messages were stored, at the clock readings
    [Sample.now 0 < Sample.now 1 < Sample.now 2]. *)
Definition three_stored : world :=
  snd ((server.store_text E0 "human" (JStr "one") ;;;
        server.store_text E0 "crab" (JStr "two") ;;;
        server.store_text E0 "human" (JStr "three")) Sample.boot).

(** The frames a client sends. *)
Definition connect_frame : string :=
  text "{'type': 'req', 'id': '1', 'method': 'connect', 'params': {'auth': {'token': 's3cret'}}}".

Definition chat_frame : string :=
  text "{'type': 'req', 'id': '2', 'method': 'chat.send', 'params': {'message': 'hi'}}".




(** A [connect] whose token is the number 5. *)
Definition number_token_frame : string :=
  text "{'type': 'req', 'id': '5', 'method': 'connect', 'params': {'auth': {'token': 5}}}".

Definition number_token_fields : pydict :=
  [("type", JStr "req"); ("id", JStr "5"); ("method", JStr "connect");
   ("params", JDict [("auth", JDict [("token", JInt 5)])])].

(** The process once the client of transport 7, known as ["abc"], has
    authenticated. *)
Definition joined : world :=
  snd (server.handle_text E0 7 "abc" false connect_frame Sample.boot).

(** Twenty exchanges: a transcript of exactly 40 turns. *)
Definition forty_turns : list turn :=
  concat (replicate 20 [user_turn (JStr "q"); assistant_turn "a"]).

(** The same process when the transcript of ["abc"] holds these turns. *)
Definition forty : world := write_history "abc" true forty_turns joined.

(** An environment whose model stream raises after the token ["Hel"]. *)
Definition E_broken : env :=
  Sample.environment "s3cret" (fun _ => None)
    (["Hel"], Some (Exception "ReadTimeout" "timed out")).

(** The process after the read loop took [chat_frame] from the
    authenticated client. *)
Definition asked : world :=
  snd (server.handle_text E0 7 "abc" true chat_frame joined).

(** The process after the task this created has run. *)
Definition answered : world :=
  match spawned (trace asked) with
  | task :: _ => snd (server.run_task E0 task asked)
  | [] => asked
  end.

(** Three registered sessions; the transport 2 of ["bob"] is broken. *)
Definition three_clients : world :=
  {| _clients := {[ "ann" := 1%nat; "bob" := 2%nat; "cat" := 3%nat ]};
     _conversations := {[ "ann" := []; "bob" := []; "cat" := [] ]};
     messages := []; closed := ∅; uuid_calls := 3; clock_calls := 0;
     trace := [] |}.

Definition E_bob_down : env :=
  Sample.environment "s3cret"
    (fun ws => if Nat.eqb ws 2 then Some WebSocketDisconnect else None)
    (["Hel"; "lo"], None).

(** An environment in which no secret is configured. *)
Definition E_open : env :=
  Sample.environment "" (fun _ => None) (["Hel"; "lo"], None).

(** What [connect_frame] decodes to. *)
Definition connect_fields : pydict :=
  [("type", JStr "req"); ("id", JStr "1"); ("method", JStr "connect");
   ("params", JDict [("auth", JDict [("token", JStr "s3cret")])])].

End Scenario.

(** ** Relations between the world before and after a coroutine *)

(** A chat turn of [client_id]: the registry of transports is as it was,
    and so is every transcript but its own. *)
Definition own_transcript (client_id : string) (w w' : world) : Prop :=
  _clients w' = _clients w /\ closed w' = closed w /\
  forall k, k <> client_id -> _conversations w' !! k = _conversations w !! k.

(** A connection handler of [client_id]: the entries of the other
    sessions are as they were. *)
Definition own_session (client_id : string) (w w' : world) : Prop :=
  forall k, k <> client_id ->
    _clients w' !! k = _clients w !! k /\
    _conversations w' !! k = _conversations w !! k.

(** Nothing was written to the log and no task was created. *)
Definition quiet (w w' : world) : Prop :=
  messages w' = messages w /\ spawned (trace w') = spawned (trace w).

(** No session was registered, no transcript touched, and [quiet]. *)
Definition locked (w w' : world) : Prop :=
  _clients w' = _clients w /\ _conversations w' = _conversations w /\
  quiet w w'.

(** The keys of the table are pairwise distinct. *)
Definition unique_ids (w : world) : Prop := NoDup (map msg_id (messages w)).

(** Every value [m] can return satisfies [P]. *)
Definition yields {A} (P : A -> Prop) (m : M A) : Prop :=
  forall w a w', m w = (Ok a, w') -> P a.

(** ** The shapes of the frames of the protocol *)

Definition has_key (f : json) (key : string) : bool :=
  match f with
  | JDict d => existsb (fun kv => String.eqb (fst kv) key) d
  | _ => false
  end.

Definition is_dict (x : json) : bool :=
  match x with JDict _ => true | _ => false end.

Definition is_str (x : json) : bool :=
  match x with JStr _ => true | _ => false end.

(** An event with a name and a payload; a response with an id that is
    either [ok] with a payload and no error, or not [ok] with an error
    made of a code and a message and no payload. *)
Definition well_formed (f : json) : bool :=
  if Py.eq_str (field f "type") "event" then
    is_str (field f "event") && is_dict (field f "payload")
  else if Py.eq_str (field f "type") "res" then
    has_key f "id"
    && match field f "ok" with
       | JBool true => is_dict (field f "payload") && negb (has_key f "error")
       | JBool false =>
           is_str (field (field f "error") "code")
           && is_str (field (field f "error") "message")
           && negb (has_key f "payload")
       | _ => false
       end
  else false.

(** The frames delivered along a trace, on any transport. *)
Fixpoint frames (tr : list effect) : list json :=
  match tr with
  | [] => []
  | ESend _ f :: tr' => f :: frames tr'
  | _ :: tr' => frames tr'
  end.

(** Only frames of these shapes were sent. *)
Definition speaks_protocol (w w' : world) : Prop :=
  exists new, trace w' = (trace w ++ new)%list /\
              Forall (fun f => well_formed f = true) (frames new).

(** The primary key survives a step. *)
Definition keeps (w w' : world) : Prop := unique_ids w -> unique_ids w'.

(** ** config.py *)

Module config.

(** The fields of [Settings] that the gateway reads after start-up. *)
Record Settings := {
  auth_token : string;
  llm_provider : string;
  llm_base_url : string;
  llm_api_key : string;
  llm_model : string;
  tts_provider : string;
  tts_base_url : string;
  tts_api_key : string;
  tts_voice : string;
  asr_provider : string;
  asr_base_url : string;
  asr_api_key : string
}.

(** [self.auth_token = token]. *)
Definition set_auth_token (s : Settings) (token : string) : Settings :=
  {| auth_token := token;
     llm_provider := llm_provider s; llm_base_url := llm_base_url s;
     llm_api_key := llm_api_key s; llm_model := llm_model s;
     tts_provider := tts_provider s; tts_base_url := tts_base_url s;
     tts_api_key := tts_api_key s; tts_voice := tts_voice s;
     asr_provider := asr_provider s; asr_base_url := asr_base_url s;
     asr_api_key := asr_api_key s |}.

(** What is outside the process: the random source, and how the
    operations on the file [.env] fail when they do. The file itself is
    the text [read_text] decodes from it, or [None] when there is none. *)
Record host := {
  token_bytes : nat -> string;              (* secrets.token_bytes(n) *)
  stat_error : option exn;                  (* raised by Path.exists() *)
  read_error : option exn;                  (* raised by Path.read_text() *)
  write_error : option (exn * option string)
                       (* raised by Path.write_text(), and the file it leaves *)
}.

Definition hex_digit (n : nat) : ascii :=
  nth n (list_ascii_of_string "0123456789abcdef") "0"%char.

(** [binascii.hexlify(bs).decode('ascii')]. *)
Fixpoint hexlify (bs : string) : string :=
  match bs with
  | EmptyString => EmptyString
  | String b bs' =>
      String (hex_digit (nat_of_ascii b / 16))
        (String (hex_digit (nat_of_ascii b mod 16)) (hexlify bs'))
  end.

(** [secrets.token_hex(nbytes)]. *)
Definition token_hex (H : host) (nbytes : nat) : string :=
  hexlify (token_bytes H nbytes).

(** The line boundaries of [str.splitlines], on the UTF-8 encoding: the
    number of bytes of the boundary that starts the text, 0 when none
    does. The boundaries are LF, VT, FF, FS, GS, RS, CR, CR LF, and the
    code points U+0085, U+2028 and U+2029. *)
Definition one_byte_break (c : ascii) : bool :=
  Ascii.eqb c "010" || Ascii.eqb c "011" || Ascii.eqb c "012"
  || Ascii.eqb c "028" || Ascii.eqb c "029" || Ascii.eqb c "030".

Definition break_length (s : string) : nat :=
  match s with
  | EmptyString => 0
  | String c r =>
      if one_byte_break c then 1
      else if Ascii.eqb c "013" then
        match r with
        | String c2 _ => if Ascii.eqb c2 "010" then 2 else 1
        | EmptyString => 1
        end
      else if Ascii.eqb c "194" then
        match r with
        | String c2 _ => if Ascii.eqb c2 "133" then 2 else 0
        | EmptyString => 0
        end
      else if Ascii.eqb c "226" then
        match r with
        | String c2 (String c3 _) =>
            if Ascii.eqb c2 "128" && (Ascii.eqb c3 "168" || Ascii.eqb c3 "169")
            then 3 else 0
        | _ => 0
        end
      else 0
  end%nat.

(** [cur] is the line being read, [skip] the number of bytes of the
    current boundary still to pass. *)
Fixpoint lines_from (skip : nat) (cur : string) (s : string) : list string :=
  match s with
  | EmptyString => match cur with EmptyString => [] | _ => [cur] end
  | String c r =>
      match skip with
      | S k => lines_from k cur r
      | O =>
          match break_length s with
          | O => lines_from 0 (cur ++ String c EmptyString) r
          | S n => cur :: lines_from n EmptyString r
          end
      end
  end.

(** [text.splitlines()]. *)
Definition splitlines (text : string) : list string :=
  lines_from 0 EmptyString text.

(** [sep.join(lines)]. *)
Fixpoint join (sep : string) (lines : list string) : string :=
  match lines with
  | [] => EmptyString
  | [l] => l
  | l :: ls => l ++ sep ++ join sep ls
  end.

Definition LF : string := String "010" EmptyString.

Definition TOKEN_KEY : string := "OPENCLAW_AUTH_TOKEN=".

(** [env_path.exists()], [env_path.read_text()] and
    [env_path.write_text(data)] on the file [.env]. *)
Definition path_exists (H : host) (file : option string) : outcome bool :=
  match stat_error H with
  | Some e => Raise e
  | None => Ok (bool_decide (is_Some file))
  end.

Definition read_text (H : host) (file : option string) : outcome string :=
  match read_error H, file with
  | Some e, _ => Raise e
  | None, Some t => Ok t
  | None, None =>
      Raise (Exception "FileNotFoundError"
               "[Errno 2] No such file or directory: '.env'")
  end.

Definition write_text (H : host) (data : string) (file : option string)
  : outcome unit * option string :=
  match write_error H with
  | Some (e, remains) => (Raise e, remains)
  | None => (Ok tt, Some data)
  end.

(** The lines that [ensure_token] keeps: all but those of the key. *)
Definition kept (lines : list string) : list string :=
  List.filter (fun l => negb (String.prefix TOKEN_KEY l)) lines.

(** [Settings.ensure_token]: the result, the settings and the file
    [.env] after the call. *)
Definition ensure_token (H : host) (self : Settings) (file : option string)
  : outcome string * Settings * option string :=
  if Py.truthy (JStr (auth_token self)) then (Ok (auth_token self), self, file)
  else
    let token := "ocgw_" ++ token_hex H 24 in
    match path_exists H file with
    | Raise e => (Raise e, self, file)
    | Ok present =>
        let read :=
          if present then
            match read_text H file with
            | Ok t => Ok (splitlines t)
            | Raise e => Raise e
            end
          else Ok [] in
        match read with
        | Raise e => (Raise e, self, file)
        | Ok lines =>
            let lines := kept lines in
            let lines := (lines ++ [(TOKEN_KEY ++ token)%string])%list in
            match write_text H (join LF lines ++ LF) file with
            | (Raise e, file') => (Raise e, self, file')
            | (Ok _, file') => (Ok token, set_auth_token self token, file')
            end
        end
    end.

End config.

(** A byte that starts no line boundary. *)
Definition plain (c : ascii) : bool :=
  negb (config.one_byte_break c || Ascii.eqb c "013" || Ascii.eqb c "194"
        || Ascii.eqb c "226").

(** A text that holds no line boundary: [splitlines] leaves it whole. *)
Fixpoint unbroken (l : string) : bool :=
  match l with
  | EmptyString => true
  | String c r => Nat.eqb (config.break_length l) 0 && unbroken r
  end.

(** The lines of the file [.env], none when the file is not there. *)
Definition dotenv_lines (file : option string) : list string :=
  match file with
  | Some t => config.splitlines t
  | None => []
  end.

(** The lines that set the token. *)
Definition token_lines (lines : list string) : list string :=
  List.filter (String.prefix config.TOKEN_KEY) lines.

Module Host.

(** A host whose file operations go through and whose random source
    gives the bytes 0, 1, 2, ... *)
Fixpoint counting (n : nat) : string :=
  match n with
  | O => EmptyString
  | S k => (counting k ++ String (ascii_of_nat k) EmptyString)%string
  end.

Definition quiet : config.host :=
  {| config.token_bytes := counting; config.stat_error := None;
     config.read_error := None; config.write_error := None |}.

Definition unset : config.Settings :=
  {| config.auth_token := ""; config.llm_provider := "auto";
     config.llm_base_url := ""; config.llm_api_key := "";
     config.llm_model := ""; config.tts_provider := "auto";
     config.tts_base_url := ""; config.tts_api_key := "";
     config.tts_voice := "alloy"; config.asr_provider := "auto";
     config.asr_base_url := ""; config.asr_api_key := "" |}.

(** A file [.env] with a stale token between two other settings. *)
Definition dotenv : string :=
  ("OPENCLAW_PORT=9000" ++ config.LF ++ "OPENCLAW_AUTH_TOKEN=old"
   ++ String "013" config.LF ++ "OPENCLAW_LOG_LEVEL=debug")%string.

End Host.

(** ** More of the Python data model *)

(** Sequencing of outcomes: the first exception ends the computation. *)
Definition and_then {A B} (o : outcome A) (k : A -> outcome B) : outcome B :=
  match o with
  | Ok a => k a
  | Raise e => Raise e
  end.

(** [d[key]] on a dict read from JSON. *)
Fixpoint dict_item (d : pydict) (key : string) : option json :=
  match d with
  | [] => None
  | (k, v) :: d' => if String.eqb k key then Some v else dict_item d' key
  end.

Definition QUOTE : string := String "034" EmptyString.

Definition not_subscriptable (x : json) : exn :=
  Exception "TypeError" ("'" ++ Py.type_name x ++ "' object is not subscriptable").

(** [x[key]] for a str [key]. *)
Definition py_item (x : json) (key : string) : outcome json :=
  match x with
  | JDict d =>
      match dict_item d key with
      | Some v => Ok v
      | None => Raise (Exception "KeyError" ("'" ++ key ++ "'"))
      end
  | JList _ =>
      Raise (Exception "TypeError"
               "list indices must be integers or slices, not str")
  | JStr _ =>
      Raise (Exception "TypeError" "string indices must be integers, not 'str'")
  | _ => Raise (not_subscriptable x)
  end.

(** The bytes of the code point a UTF-8 text starts with: the first
    byte and the continuation bytes (of the form 10xxxxxx) after it. *)
Definition continuation (c : ascii) : bool :=
  match c with Ascii _ _ _ _ _ _ b6 b7 => b7 && negb b6 end.

Fixpoint continuations (s : string) : string :=
  match s with
  | String c s' => if continuation c then String c (continuations s') else EmptyString
  | EmptyString => EmptyString
  end.

(** [x[0]]. A dict read from JSON has str keys only. *)
Definition py_first (x : json) : outcome json :=
  match x with
  | JList (v :: _) => Ok v
  | JList [] => Raise (Exception "IndexError" "list index out of range")
  | JStr (String c s) => Ok (JStr (String c (continuations s)))
  | JStr EmptyString => Raise (Exception "IndexError" "string index out of range")
  | JDict _ => Raise (Exception "KeyError" "0")
  | _ => Raise (not_subscriptable x)
  end.

(** [a or b] on two str. *)
Definition str_or (a b : string) : string :=
  if Py.truthy (JStr a) then a else b.

(** [s[n:]] on a str that starts with [n] ASCII characters. *)
Fixpoint str_from (n : nat) (s : string) : string :=
  match n, s with
  | S k, String _ s' => str_from k s'
  | _, _ => s
  end.

(** The class of an exception is [cls] or, for the classes that occur
    here, one of its subclasses. *)
Definition subclasses (cls : string) : list string :=
  if String.eqb cls "ValueError" then ["ValueError"; "JSONDecodeError"]
  else if String.eqb cls "TimeoutException" then
    ["TimeoutException"; "ConnectTimeout"; "ReadTimeout"; "WriteTimeout";
     "PoolTimeout"]
  else [cls].

(** Whether [except (c1, c2, ...)] catches [e]. *)
Definition caught_by (classes : list string) (e : exn) : bool :=
  match e with
  | Exception cls _ =>
      existsb (fun c => existsb (String.eqb cls) (subclasses c)) classes
  | WebSocketDisconnect => false
  end.

(** ** The HTTP client *)

Module http.

Inductive body :=
| Json (payload : json)                              (* json=payload *)
| Multipart (filename data mime : string) (fields : list (string * string)).
                                                     (* files=.., data=.. *)

Record request := {
  url : string;
  headers : list (string * string);
  content : body
}.

Record response := {
  status_code : Z;
  content_bytes : string;       (* resp.content *)
  json_body : outcome json      (* resp.json() *)
}.

(** What the servers on the network answer. A streamed response is the
    lines that [aiter_lines()] gives and the exception that ends the
    iteration, when one does; a request that cannot be made ends it
    before the first line. *)
Record network := {
  get : string -> outcome response;
  post : request -> outcome response;
  stream : request -> list string * option exn
}.

(** [except (httpx.ConnectError, httpx.TimeoutException)]. *)
Definition unreachable (e : exn) : bool :=
  caught_by ["ConnectError"; "TimeoutException"] e.

End http.

(** ** providers/llm.py *)

Module llm.

Definition OLLAMA_TAGS : string := "http://localhost:11434/api/tags".
Definition OLLAMA_URL : string := "http://localhost:11434/v1".
Definition OPENAI_URL : string := "https://api.openai.com/v1".
Definition NO_PROVIDER : string :=
  "No LLM provider configured. Set OPENCLAW_LLM_API_KEY or run ollama locally.".

(** A message of the conversation, as the dict that is serialized. *)
Definition message_dict (t : turn) : json :=
  JDict [("role", JStr (role t)); ("content", content t)].

Section with_settings.
Context (S : config.Settings) (N : http.network)
        (json_loads : string -> outcome json).

(** The body of the [try] of [_detect_provider]: the triple it returns,
    or [None] when it falls through. *)
Definition probe_ollama : outcome (option (string * string * json)) :=
  and_then (http.get N OLLAMA_TAGS) (fun resp =>
  if http.status_code resp =? 200 then
    and_then (http.json_body resp) (fun tags =>
    and_then (py_get tags "models" (JList [])) (fun models =>
    if Py.truthy models then
      and_then (py_first models) (fun first =>
      and_then (py_item first "name") (fun model_name =>
      Ok (Some ("ollama", OLLAMA_URL, model_name))))
    else Ok None))
  else Ok None).

Definition _detect_provider : outcome (string * string * json) :=
  let configured :=
    if Py.truthy (JStr (config.llm_base_url S))
       && Py.truthy (JStr (config.llm_api_key S))
    then ("openai", config.llm_base_url S,
          JStr (str_or (config.llm_model S) "gpt-4o-mini"))
    else if Py.truthy (JStr (config.llm_api_key S))
    then ("openai", OPENAI_URL, JStr (str_or (config.llm_model S) "gpt-4o-mini"))
    else ("none", "", JStr "") in
  match probe_ollama with
  | Ok (Some found) => Ok found
  | Ok None => Ok configured
  | Raise e => if http.unreachable e then Ok configured else Raise e
  end.

Definition get_provider_info : outcome pydict :=
  and_then
    (if String.eqb (config.llm_provider S) "auto" then _detect_provider
     else Ok (config.llm_provider S,
              str_or (config.llm_base_url S) OPENAI_URL,
              JStr (str_or (config.llm_model S) "gpt-4o-mini")))
    (fun '(provider, base_url, model) =>
       Ok [("provider", JStr provider); ("base_url", JStr base_url);
           ("model", model)]).

(** One line of an OpenAI-compatible stream that starts with ["data: "]
    and is not the end marker: the body of the [try]. *)
Definition openai_content (data : string) : outcome json :=
  and_then (json_loads data) (fun chunk =>
  and_then (py_item chunk "choices") (fun choices =>
  and_then (py_first choices) (fun choice =>
  and_then (py_get choice "delta" (JDict [])) (fun delta =>
  py_get delta "content" (JStr ""))))).

(** The loop over the lines: the values yielded, then the exception that
    ends the generator, when one does. *)
Fixpoint openai_lines (lines : list string) (fault : option exn)
  : list json * option exn :=
  match lines with
  | [] => ([], fault)
  | line :: rest =>
      if negb (String.prefix "data: " line) then openai_lines rest fault
      else
        let data := str_from 6 line in
        if String.eqb data "[DONE]" then ([], None)
        else
          match openai_content data with
          | Ok content =>
              if Py.truthy content then
                let '(tokens, fault') := openai_lines rest fault in
                (content :: tokens, fault')
              else openai_lines rest fault
          | Raise e =>
              if caught_by ["KeyError"; "IndexError"; "ValueError"] e
              then openai_lines rest fault
              else ([], Some e)
          end
  end.

Definition _openai_compatible_stream (base_url : string) (model : json)
    (messages : list turn) (system : option string)
  : list json * option exn :=
  let api_messages :=
    (match system with
     | Some (String _ _ as system) =>
         [JDict [("role", JStr "system"); ("content", JStr system)]]
     | _ => []
     end ++ map message_dict messages)%list in
  let headers :=
    ("Content-Type", "application/json")
    :: (if Py.truthy (JStr (config.llm_api_key S))
        then [("Authorization", "Bearer " ++ config.llm_api_key S)]
        else []) in
  let payload :=
    JDict [("model", model); ("messages", JList api_messages);
           ("stream", JBool true)] in
  let '(lines, fault) :=
    http.stream N {| http.url := base_url ++ "/chat/completions";
                     http.headers := headers;
                     http.content := http.Json payload |} in
  openai_lines lines fault.

(** One line of an Anthropic stream that starts with ["data: "]: the
    body of the [try], the text to yield when there is one. *)
Definition anthropic_text (data : string) : outcome (option json) :=
  and_then (json_loads data) (fun event =>
  and_then (py_get event "type" JNull) (fun type =>
  if Py.eq_str type "content_block_delta" then
    and_then (py_get event "delta" (JDict [])) (fun delta =>
    and_then (py_get delta "text" (JStr "")) (fun text =>
    Ok (if Py.truthy text then Some text else None)))
  else Ok None)).

Fixpoint anthropic_lines (lines : list string) (fault : option exn)
  : list json * option exn :=
  match lines with
  | [] => ([], fault)
  | line :: rest =>
      if negb (String.prefix "data: " line) then anthropic_lines rest fault
      else
        match anthropic_text (str_from 6 line) with
        | Ok (Some text) =>
            let '(tokens, fault') := anthropic_lines rest fault in
            (text :: tokens, fault')
        | Ok None => anthropic_lines rest fault
        | Raise e =>
            if caught_by ["ValueError"; "KeyError"] e
            then anthropic_lines rest fault
            else ([], Some e)
        end
  end.

Definition _anthropic_stream (model : json) (messages : list turn)
    (system : option string) : list json * option exn :=
  let model := if Py.truthy model then model else JStr "claude-sonnet-4-20250514" in
  let headers :=
    [("Content-Type", "application/json");
     ("x-api-key", config.llm_api_key S);
     ("anthropic-version", "2023-06-01")] in
  let payload :=
    ([("model", model); ("max_tokens", JInt 4096);
      ("messages", JList (map message_dict messages)); ("stream", JBool true)]
     ++ match system with
        | Some (String _ _ as system) => [("system", JStr system)]
        | _ => []
        end)%list in
  let base_url := str_or (config.llm_base_url S) "https://api.anthropic.com" in
  let '(lines, fault) :=
    http.stream N {| http.url := base_url ++ "/v1/messages";
                     http.headers := headers;
                     http.content := http.Json (JDict payload) |} in
  anthropic_lines lines fault.

Definition chat_stream (messages : list turn) (system : option string)
  : list json * option exn :=
  match
    (if String.eqb (config.llm_provider S) "auto" then _detect_provider
     else Ok (config.llm_provider S, config.llm_base_url S,
              JStr (config.llm_model S)))
  with
  | Raise e => ([], Some e)
  | Ok (provider, base_url, model) =>
      if String.eqb provider "none" then ([JStr NO_PROVIDER], None)
      else if existsb (String.eqb provider) ["openai"; "ollama"; "auto"]
      then _openai_compatible_stream base_url model messages system
      else if String.eqb provider "anthropic"
      then _anthropic_stream model messages system
      else ([JStr ("Unknown LLM provider: " ++ provider)], None)
  end.

End with_settings.

End llm.

(** ** providers/tts.py *)

Module tts.

Section with_settings.
Context (S : config.Settings) (N : http.network).

Definition _openai_compatible_tts (base_url text : string) (voice : option string)
  : outcome (option string) :=
  let headers :=
    ("Content-Type", "application/json")
    :: (if Py.truthy (JStr (config.tts_api_key S))
        then [("Authorization", "Bearer " ++ config.tts_api_key S)]
        else []) in
  let payload :=
    JDict [("model", JStr "tts-1"); ("input", JStr text);
           ("voice", JStr (str_or (default "" voice) (config.tts_voice S)));
           ("response_format", JStr "mp3")] in
  match http.post N {| http.url := base_url ++ "/audio/speech";
                       http.headers := headers;
                       http.content := http.Json payload |} with
  | Ok resp =>
      if http.status_code resp =? 200 then Ok (Some (http.content_bytes resp))
      else Ok None
  | Raise e => if http.unreachable e then Ok None else Raise e
  end.

Definition synthesize (text : string) (voice : option string)
  : outcome (option string) :=
  let provider := config.tts_provider S in
  if String.eqb provider "disabled" then Ok None
  else if String.eqb provider "auto" then
    if Py.truthy (JStr (config.tts_base_url S))
    then _openai_compatible_tts (config.tts_base_url S) text voice
    else if Py.truthy (JStr (config.tts_api_key S))
    then _openai_compatible_tts llm.OPENAI_URL text voice
    else Ok None
  else if existsb (String.eqb provider) ["openai"; "scrappylabs"] then
    _openai_compatible_tts (str_or (config.tts_base_url S) llm.OPENAI_URL)
      text voice
  else Ok None.

End with_settings.

End tts.

(** ** providers/asr.py *)

Module asr.

Section with_settings.
Context (S : config.Settings) (N : http.network).

(** The result is a str, or whatever the endpoint put under ["text"];
    [JNull] is [None]. *)
Definition _whisper_api (base_url audio_data filename : string) : outcome json :=
  let headers :=
    if Py.truthy (JStr (config.asr_api_key S))
    then [("Authorization", "Bearer " ++ config.asr_api_key S)]
    else [] in
  let sent :=
    and_then
      (http.post N {| http.url := base_url ++ "/audio/transcriptions";
                      http.headers := headers;
                      http.content :=
                        http.Multipart filename audio_data "audio/wav"
                          [("model", "whisper-1")] |})
      (fun resp =>
         if http.status_code resp =? 200 then
           and_then (http.json_body resp) (fun result =>
           and_then (py_get result "text" (JStr "")) (fun text => Ok (Some text)))
         else Ok None) in
  match sent with
  | Ok (Some text) => Ok text
  | Ok None => Ok JNull
  | Raise e => if http.unreachable e then Ok JNull else Raise e
  end.

Definition transcribe (audio_data filename : string) : outcome json :=
  let provider := config.asr_provider S in
  if String.eqb provider "disabled" then Ok JNull
  else if String.eqb provider "auto" then
    if Py.truthy (JStr (config.asr_base_url S))
    then _whisper_api (config.asr_base_url S) audio_data filename
    else if Py.truthy (JStr (config.asr_api_key S))
    then _whisper_api llm.OPENAI_URL audio_data filename
    else Ok JNull
  else if existsb (String.eqb provider) ["openai"; "whisper"] then
    _whisper_api (str_or (config.asr_base_url S) llm.OPENAI_URL)
      audio_data filename
  else Ok JNull.

End with_settings.

End asr.

(** ** server.py: the REST endpoints and the providers behind the handler *)

Module rest.

Section with_settings.
Context (S : config.Settings) (N : http.network).

(** [POST /voice]: the status and the JSON body of the answer. [filename]
    is [file.filename], [None] when the part has none. *)
Definition voice_upload (audio_data : string) (filename : option string)
  : outcome (Z * json) :=
  and_then
    (asr.transcribe S N audio_data (str_or (default "" filename) "audio.wav"))
    (fun transcription =>
       if Py.truthy transcription
       then Ok (200, JDict [("transcription", transcription)])
       else Ok (503, JDict [("error",
                   JStr "ASR not available. Configure OPENCLAW_ASR_API_KEY.")])).

(** [GET /health]. *)
Definition health : M (Z * json) :=
  provider_info <- lift (llm.get_provider_info S N) ;;
  w <- get ;;
  ret (200, JDict [("status", JStr "ok");
                   ("clients", JInt (Z.of_nat (size (_clients w))));
                   ("llm", JDict provider_info)]).

End with_settings.

(** [full_response += token], for the tokens of a stream one after the
    other: the str tokens up to the first value that is not a str, where
    the concatenation raises. *)
Fixpoint str_tokens (tokens : list json) (fault : option exn)
  : list string * option exn :=
  match tokens with
  | [] => ([], fault)
  | JStr s :: rest =>
      let '(strs, fault') := str_tokens rest fault in (s :: strs, fault')
  | v :: _ =>
      ([], Some (Exception "TypeError"
                   ("can only concatenate str (not " ++ QUOTE ++ Py.type_name v
                    ++ QUOTE ++ ") to str")))
  end.

(** The environment of the handler when the model and the speech back
    end are the providers of this repository, under the settings [S], on
    the network [N]; the rest is as in [E]. *)
Definition wired (S : config.Settings) (N : http.network) (E : env) : env :=
  {| json_loads := json_loads E;
     py_repr := py_repr E;
     auth_token := config.auth_token S;
     send_error := send_error E;
     uuid4 := uuid4 E;
     utc_now := utc_now E;
     chat_stream := fun messages system =>
       let '(tokens, fault) :=
         llm.chat_stream S N (json_loads E) messages (Some system) in
       str_tokens tokens fault;
     synthesize := fun text => tts.synthesize S N text None;
     b64encode := b64encode E |}.

End rest.

(** ** Reading the frames of a model stream *)

(** The texts carried by the delta frames among [fs], in order. *)
Definition delta_texts (fs : list json) : list json :=
  map (fun f => field (field f "payload") "text")
    (List.filter
       (fun f => Py.eq_str (field f "event") "chat"
                 && Py.eq_str (field (field f "payload") "state") "delta")
       fs).

(** The frames of [fs] that carry audio. *)
Definition audio_broadcasts (fs : list json) : list json :=
  List.filter (fun f => Py.eq_str (field f "event") "audio_broadcast") fs.

(** A step in which the frames sent carry the delta texts [l]. *)
Definition sends_deltas (l : list json) (w w' : world) : Prop :=
  exists new, trace w' = (trace w ++ new)%list /\ delta_texts (frames new) = l.

(** A coroutine whose delta texts satisfy [Q] however it ends. *)
Definition emits {A} (Q : list json -> Prop) (m : M A) : Prop :=
  forall w, exists l, Q l /\ sends_deltas l w (snd (m w)).

(** The running concatenations of tokens none of which is empty. *)
Definition running (l : list json) : Prop :=
  exists tokens, Forall (fun t => t <> EmptyString) tokens /\
                 l = map JStr (accumulate EmptyString tokens).

(** A step that sends no audio. *)
Definition mute (w w' : world) : Prop :=
  exists new, trace w' = (trace w ++ new)%list /\
              audio_broadcasts (frames new) = [].

(** The settings under which [tts.synthesize] makes no request. *)
Definition tts_off (S : config.Settings) : bool :=
  let provider := config.tts_provider S in
  String.eqb provider "disabled"
  || (String.eqb provider "auto"
      && negb (Py.truthy (JStr (config.tts_base_url S)))
      && negb (Py.truthy (JStr (config.tts_api_key S))))
  || negb (existsb (String.eqb provider) ["auto"; "openai"; "scrappylabs"]).

Module Net.

(** A network on which nothing answers. *)
Definition down : http.network :=
  {| http.get := fun _ => Raise (Exception "ConnectError" "All connection attempts failed");
     http.post := fun _ => Raise (Exception "ConnectError" "All connection attempts failed");
     http.stream := fun _ =>
       ([], Some (Exception "ConnectError" "All connection attempts failed")) |}.

(** A network with an OpenAI-compatible endpoint that streams [lines]
    and a transcription endpoint that answers [reply]; ollama is not
    running. *)
Definition serving (lines : list string) (reply : json) : http.network :=
  {| http.get := fun _ => Raise (Exception "ConnectError" "All connection attempts failed");
     http.post := fun _ =>
       Ok {| http.status_code := 200; http.content_bytes := "";
             http.json_body := Ok reply |};
     http.stream := fun _ => (lines, None) |}.

(** The lines of a streamed completion: a comment, two chunks with
    content, a chunk without, a line that is not JSON, the end marker,
    and a chunk after it. *)
Definition completion : list string :=
  [": keep-alive";
   text "data: {'choices': [{'delta': {'content': 'Hel'}}]}";
   "";
   text "data: {'choices': [{'delta': {'role': 'assistant'}}]}";
   text "data: {'choices': [{'delta': {'content': 'lo'}}]}";
   "data: {";
   "data: [DONE]";
   text "data: {'choices': [{'delta': {'content': '!'}}]}"].

(** Settings with an API key for the model and nothing else. *)
Definition with_key : config.Settings :=
  {| config.auth_token := "s3cret"; config.llm_provider := "auto";
     config.llm_base_url := ""; config.llm_api_key := "sk-test";
     config.llm_model := ""; config.tts_provider := "auto";
     config.tts_base_url := ""; config.tts_api_key := "";
     config.tts_voice := "alloy"; config.asr_provider := "auto";
     config.asr_base_url := ""; config.asr_api_key := "sk-test" |}.

(** The lines of a completion that breaks off: a chunk with content,
    then a chunk that is a JSON list. *)
Definition broken_completion : list string :=
  [text "data: {'choices': [{'delta': {'content': 'Hel'}}]}";
   "data: []";
   text "data: {'choices': [{'delta': {'content': 'lo'}}]}"].

(** Settings with the secret and nothing else. *)
Definition bare : config.Settings :=
  config.set_auth_token Host.unset "s3cret".

(** The [connect] request that carries the token generated on the host
    [Host.quiet]. *)
Definition connect_generated : string :=
  text ("{'type': 'req', 'id': '1', 'method': 'connect', 'params': {'auth': {'token': '"
        ++ "ocgw_" ++ config.token_hex Host.quiet 24 ++ "'}}}").

(** Settings with an API key for the model and a speech endpoint. *)
Definition with_speech : config.Settings :=
  {| config.auth_token := "s3cret"; config.llm_provider := "auto";
     config.llm_base_url := ""; config.llm_api_key := "sk-test";
     config.llm_model := ""; config.tts_provider := "auto";
     config.tts_base_url := "http://localhost:5000/v1"; config.tts_api_key := "";
     config.tts_voice := "alloy"; config.asr_provider := "auto";
     config.asr_base_url := ""; config.asr_api_key := "" |}.

(** A network on which the model streams [completion] and the speech
    endpoint drops the connection while it answers; ollama is not
    running. *)
Definition speech_breaks : http.network :=
  {| http.get := fun _ => Raise (Exception "ConnectError" "All connection attempts failed");
     http.post := fun _ =>
       Raise (Exception "ReadError" "Server disconnected without sending a response.");
     http.stream := fun _ => (completion, None) |}.

End Net.

(** The settings under which [asr.transcribe] makes no request. *)
Definition asr_off (S : config.Settings) : bool :=
  let provider := config.asr_provider S in
  String.eqb provider "disabled"
  || (String.eqb provider "auto"
      && negb (Py.truthy (JStr (config.asr_base_url S)))
      && negb (Py.truthy (JStr (config.asr_api_key S))))
  || negb (existsb (String.eqb provider) ["auto"; "openai"; "whisper"]).

(** No request for speech or transcription is answered with status 200:
    the endpoint cannot be reached, or answers something else. *)
Definition no_answer (N : http.network) : Prop :=
  forall req,
    match http.post N req with
    | Ok resp => http.status_code resp <> 200
    | Raise e => http.unreachable e = true
    end.

(** The answer of [POST /voice] when there is no transcription. *)
Definition ASR_UNAVAILABLE : Z * json :=
  (503, JDict [("error",
                JStr "ASR not available. Configure OPENCLAW_ASR_API_KEY.")]).

(** The transcription request for [audio_data] was answered with status
    200 and a JSON object whose ["text"] is [t] (the empty str when there
    is none). *)
Definition transcribed (N : http.network) (audio_data : string)
    (filename : option string) (t : json) : Prop :=
  exists req resp result,
    http.content req
    = http.Multipart (str_or (default "" filename) "audio.wav") audio_data
        "audio/wav" [("model", "whisper-1")] /\
    http.post N req = Ok resp /\ http.status_code resp = 200 /\
    http.json_body resp = Ok result /\ py_get result "text" (JStr "") = Ok t.

(** The transcription request raised [e], or was answered with status
    200 and a body that is not JSON or not a JSON object. *)
Definition transcription_failed (N : http.network) (e : exn) : Prop :=
  exists req,
    (http.post N req = Raise e /\ http.unreachable e = false) \/
    exists resp,
      http.post N req = Ok resp /\ http.status_code resp = 200 /\
      (http.json_body resp = Raise e \/
       exists result, http.json_body resp = Ok result /\
                      py_get result "text" (JStr "") = Raise e).

(** A page that the query may return for a bound [limit]: the rows in
    some order by [created_at], descending (SQLite leaves the order among
    equal timestamps open), cut at the limit and reversed. *)
Definition query_result (limit : Z) (rows page : list message) : Prop :=
  exists sorted,
    sorted ≡ₚ rows /\ StronglySorted storage.newer_first sorted /\
    page = reverse (storage.sql_limit limit sorted).

(** * Properties *)

Local Open Scope list_scope.

(** ** Authentication *)

Lemma verify_token_no_secret (token : json) : verify_token "" token = Ok false.
Proof. reflexivity. Qed.

Lemma truthy_str (s : string) : Py.truthy (JStr s) = true <-> s <> "".
Proof.
  simpl. destruct (String.eqb_spec s ""); simpl; split; intros; congruence.
Qed.

Lemma verify_token_secret (expected : string) (token : json) :
  expected <> "" -> verify_token expected token = compare_digest token expected.
Proof.
  intros Hne. unfold verify_token.
  apply truthy_str in Hne. now rewrite Hne.
Qed.

(** Without a secret every candidate is refused. With a secret made of
    ASCII characters, a candidate string is accepted if and only if it is
    the secret, and an ASCII candidate that differs is refused with
    [False]. *)
Lemma verify_token_ascii_secret (expected candidate : string)
    (Hset : expected <> "") (Hascii : Py.is_ascii expected = true) :
  verify_token "" (JStr candidate) = Ok false /\
  (verify_token expected (JStr candidate) = Ok true <-> candidate = expected) /\
  (Py.is_ascii candidate = true -> candidate <> expected ->
   verify_token expected (JStr candidate) = Ok false).
Proof.
  split; [reflexivity|].
  rewrite verify_token_secret by assumption. simpl. rewrite Hascii.
  split; [split|].
  - destruct (Py.is_ascii candidate); simpl; [|discriminate].
    intros [= H]. now apply String.eqb_eq.
  - intros ->. rewrite Hascii. simpl. now rewrite String.eqb_refl.
  - intros -> Hne. simpl. apply String.eqb_neq in Hne. now rewrite Hne.
Qed.

Lemma verify_token_ascii_secret_witness :
  verify_token "" (JStr "ocgw_1f") = Ok false /\
  (verify_token "ocgw_1f" (JStr "ocgw_1f") = Ok true <-> "ocgw_1f" = "ocgw_1f") /\
  (Py.is_ascii "ocgw_1f" = true -> "ocgw_1f" <> "ocgw_1f" ->
   verify_token "ocgw_1f" (JStr "ocgw_1f") = Ok false).
Proof. apply (verify_token_ascii_secret "ocgw_1f" "ocgw_1f"); [discriminate | reflexivity]. Defined.

(** C6, where the code leaves it. With a secret that holds a character
    that is not ASCII, the check is no comparison: for every candidate
    string, the secret itself included, it raises the [TypeError] of
    [hmac.compare_digest] and returns neither [True] nor [False]. *)
Theorem verify_token_raises_with_non_ascii_secret (expected candidate : string)
    (Hnon_ascii : Py.is_ascii expected = false) :
  expected <> "" /\
  verify_token expected (JStr candidate)
  = Raise (Exception "TypeError"
             "comparing strings with non-ASCII characters is not supported") /\
  verify_token expected (JStr expected) <> Ok true.
Proof.
  assert (Hset : expected <> "") by (intros ->; discriminate Hnon_ascii).
  assert (Hraise : forall c,
            verify_token expected (JStr c)
            = Raise (Exception "TypeError"
                       "comparing strings with non-ASCII characters is not supported")).
  { intros c. rewrite verify_token_secret by exact Hset.
    unfold compare_digest. now rewrite Hnon_ascii, andb_false_r. }
  split; [exact Hset|]. split; [apply Hraise|].
  rewrite Hraise. discriminate.
Qed.

Lemma verify_token_raises_with_non_ascii_secret_witness :
  e_acute <> "" /\
  verify_token e_acute (JStr e_acute)
  = Raise (Exception "TypeError"
             "comparing strings with non-ASCII characters is not supported") /\
  verify_token e_acute (JStr e_acute) <> Ok true.
Proof.
  apply (verify_token_raises_with_non_ascii_secret e_acute e_acute). reflexivity.
Defined.

(** With the one-character secret [e_acute] configured, the check of the
    secret itself does not return true. *)
Lemma verify_token_non_ascii_secret :
  e_acute <> "" /\
  verify_token e_acute (JStr e_acute) =
    Raise (Exception "TypeError"
             "comparing strings with non-ASCII characters is not supported") /\
  ~ (verify_token e_acute (JStr e_acute) = Ok true <-> e_acute = e_acute).
Proof.
  split; [discriminate|]. split; [reflexivity|].
  intros [_ H]. specialize (H eq_refl). discriminate H.
Qed.

(** ** History *)

Lemma string_compare_lt_trans (s1 s2 s3 : string) :
  String.compare s1 s2 = Lt -> String.compare s2 s3 = Lt ->
  String.compare s1 s3 = Lt.
Proof.
  revert s2 s3. induction s1 as [|c1 s1 IH]; intros [|c2 s2] [|c3 s3]; simpl;
    try discriminate; try reflexivity.
  unfold Ascii.compare.
  destruct (N.compare_spec (N_of_ascii c1) (N_of_ascii c2)) as [E12|L12|G12];
    try discriminate;
  destruct (N.compare_spec (N_of_ascii c2) (N_of_ascii c3)) as [E23|L23|G23];
    try discriminate; intros H12 H23.
  - rewrite E12, E23, N.compare_refl. eauto.
  - rewrite E12. now apply N.compare_lt_iff in L23 as ->.
  - rewrite <- E23. now apply N.compare_lt_iff in L12 as ->.
  - assert (H : (N_of_ascii c1 < N_of_ascii c3)%N) by lia.
    now apply N.compare_lt_iff in H as ->.
Qed.

Lemma string_compare_refl (s : string) : String.compare s s = Eq.
Proof.
  induction s as [|c s IH]; simpl; [reflexivity|].
  unfold Ascii.compare. now rewrite N.compare_refl.
Qed.

Lemma string_leb_trans (s1 s2 s3 : string) :
  String.leb s1 s2 = true -> String.leb s2 s3 = true -> String.leb s1 s3 = true.
Proof.
  unfold String.leb.
  destruct (String.compare s1 s2) eqn:H12; try discriminate;
  destruct (String.compare s2 s3) eqn:H23; try discriminate; intros _ _.
  - apply String.compare_eq_iff in H12, H23. subst.
    now rewrite string_compare_refl.
  - apply String.compare_eq_iff in H12. subst. now rewrite H23.
  - apply String.compare_eq_iff in H23. subst. now rewrite H12.
  - now rewrite (string_compare_lt_trans _ _ _ H12 H23).
Qed.

#[local] Instance newer_first_trans : Transitive storage.newer_first.
Proof. intros a b c Hab Hbc. exact (string_leb_trans _ _ _ Hbc Hab). Qed.

#[local] Instance newer_first_total : Total storage.newer_first.
Proof. intros a b. unfold storage.newer_first. destruct (String.leb_total (created_at b) (created_at a)); auto. Qed.

Lemma select_recent_spec (rows : list message) (n : nat) :
  let page := reverse (take n (merge_sort storage.newer_first rows)) in
  length page = Nat.min n (length rows) /\
  StronglySorted (flip storage.newer_first) page /\
  exists older, rows ≡ₚ older ++ page /\
    forall o r, o ∈ older -> r ∈ page ->
      String.leb (created_at o) (created_at r) = true.
Proof.
  intros page. subst page.
  set (sorted := merge_sort storage.newer_first rows).
  assert (Hperm : sorted ≡ₚ rows) by apply merge_sort_Permutation.
  assert (Hsorted : StronglySorted storage.newer_first sorted)
    by (apply StronglySorted_merge_sort; apply _).
  rewrite <- (take_drop n sorted) in Hsorted.
  split; [|split].
  - rewrite length_reverse, length_take, (Permutation_length Hperm). reflexivity.
  - apply Sorted_StronglySorted; [apply _|].
    apply Sorted_reverse, StronglySorted_Sorted.
    eapply StronglySorted_app_1_l, Hsorted.
  - exists (drop n sorted). split.
    + rewrite reverse_Permutation, <- Hperm, <- (take_drop n sorted) at 1.
      apply Permutation_app_comm.
    + intros o r Ho Hr. rewrite elem_of_reverse in Hr.
      exact (StronglySorted_app_1_elem_of _ _ _ _ _ Hsorted Hr Ho).
Qed.

Lemma bind_limit (limit : Z) :
  - 2 ^ 63 <= limit < 2 ^ 63 -> storage.bind_parameter (JInt limit) = Ok tt.
Proof.
  intros [Hlo Hhi]. unfold storage.bind_parameter.
  apply Z.leb_le in Hlo. apply Z.ltb_lt in Hhi. now rewrite Hlo, Hhi.
Qed.

Lemma bind_limit_overflow (limit : Z) :
  limit < - 2 ^ 63 \/ 2 ^ 63 <= limit ->
  storage.bind_parameter (JInt limit)
  = Raise (Exception "OverflowError"
             "Python int too large to convert to SQLite INTEGER").
Proof.
  intros Hout. unfold storage.bind_parameter.
  destruct (Z.leb_spec (- 2 ^ 63) limit), (Z.ltb_spec limit (2 ^ 63));
    cbn [andb]; try reflexivity; lia.
Qed.

Lemma get_messages_run (limit : option Z) (w : world) :
  - 2 ^ 63 <= default 50 limit < 2 ^ 63 ->
  server.get_messages limit w
  = (Ok (storage.select_recent (default 50 limit) (messages w)), w).
Proof.
  intros Hfits. unfold server.get_messages, storage.get_messages, bind, lift.
  now rewrite (bind_limit _ Hfits).
Qed.

Lemma get_messages_overflow (limit : Z) (w : world) :
  limit < - 2 ^ 63 \/ 2 ^ 63 <= limit ->
  server.get_messages (Some limit) w
  = (Raise (Exception "OverflowError"
              "Python int too large to convert to SQLite INTEGER"), w).
Proof.
  intros Hout. unfold server.get_messages.
  change (default 50 (Some limit)) with limit.
  unfold storage.get_messages, bind, lift.
  now rewrite (bind_limit_overflow _ Hout).
Qed.

(** For a positive limit that fits in 64 bits, [GET /messages] returns
    [min limit (number of rows)] rows, oldest first, and every row left
    out is no more recent than any row returned; without a limit it reads
    50. *)
Lemma history_returns_most_recent (w : world) (limit : Z)
    (Hpos : 0 < limit) (Hfits : limit < 2 ^ 63) :
  exists page,
    server.get_messages (Some limit) w = (Ok page, w) /\
    server.get_messages None w = server.get_messages (Some 50) w /\
    length page = Nat.min (Z.to_nat limit) (length (messages w)) /\
    StronglySorted (flip storage.newer_first) page /\
    exists older, messages w ≡ₚ older ++ page /\
      forall o r, o ∈ older -> r ∈ page ->
        String.leb (created_at o) (created_at r) = true.
Proof.
  exists (storage.select_recent limit (messages w)).
  split; [apply get_messages_run; change (default 50 (Some limit)) with limit; lia|].
  split; [reflexivity|].
  unfold storage.select_recent, storage.sql_limit.
  destruct (Z.ltb_spec limit 0) as [Hneg|_]; [lia|].
  apply select_recent_spec.
Qed.

Lemma history_returns_most_recent_witness :
  exists page,
    server.get_messages (Some 2) Scenario.three_stored
      = (Ok page, Scenario.three_stored) /\
    server.get_messages None Scenario.three_stored
      = server.get_messages (Some 50) Scenario.three_stored /\
    length page = Nat.min (Z.to_nat 2) (length (messages Scenario.three_stored)) /\
    StronglySorted (flip storage.newer_first) page /\
    exists older, messages Scenario.three_stored ≡ₚ older ++ page /\
      forall o r, o ∈ older -> r ∈ page ->
        String.leb (created_at o) (created_at r) = true.
Proof.
  apply (history_returns_most_recent Scenario.three_stored 2); lia.
Defined.

(** C9, where the code leaves it. A positive limit of 2^63 or more is
    not read as "the most recent entries": binding it to the query raises
    [OverflowError], whatever the table holds, and no page is returned. *)
Theorem history_limit_overflows (w : world) (limit : Z) (Hbig : 2 ^ 63 <= limit) :
  0 < limit /\
  server.get_messages (Some limit) w
  = (Raise (Exception "OverflowError"
              "Python int too large to convert to SQLite INTEGER"), w) /\
  forall page, server.get_messages (Some limit) w <> (Ok page, w).
Proof.
  assert (Hrun := get_messages_overflow limit w (or_intror Hbig)).
  split; [lia|]. split; [exact Hrun|].
  intros page Hpage. rewrite Hrun in Hpage. discriminate Hpage.
Qed.

Lemma history_limit_overflows_witness :
  0 < 2 ^ 63 /\
  server.get_messages (Some (2 ^ 63)) Scenario.three_stored
  = (Raise (Exception "OverflowError"
              "Python int too large to convert to SQLite INTEGER"),
     Scenario.three_stored) /\
  forall page,
    server.get_messages (Some (2 ^ 63)) Scenario.three_stored
    <> (Ok page, Scenario.three_stored).
Proof. apply (history_limit_overflows Scenario.three_stored (2 ^ 63)). lia. Defined.

(** After entries stamped T1 < T2 < T3, a read with limit 2 gives the
    entries of T2 and T3, in that order. *)
Example history_limit_two :
  map created_at (messages Scenario.three_stored)
    = [Sample.now 0; Sample.now 1; Sample.now 2] /\
  exists page,
    server.get_messages (Some 2) Scenario.three_stored
      = (Ok page, Scenario.three_stored) /\
    map created_at page = [Sample.now 1; Sample.now 2] /\
    map text_content page = [JStr "two"; JStr "three"].
Proof.
  split; [vm_compute; reflexivity|].
  eexists. split; [apply get_messages_run; change (default 50 (Some 2)) with 2; lia|].
  split; vm_compute; reflexivity.
Qed.

(** ** Running the primitives *)

Lemma emit_nil (w : world) : emit [] w = w.
Proof. destruct w. unfold emit. simpl. now rewrite app_nil_r. Qed.

Lemma emit_emit (es1 es2 : list effect) (w : world) :
  emit es2 (emit es1 w) = emit (es1 ++ es2) w.
Proof. unfold emit. simpl. now rewrite app_assoc. Qed.

Lemma sent_on_app (ws : nat) (tr1 tr2 : list effect) :
  sent_on ws (tr1 ++ tr2) = sent_on ws tr1 ++ sent_on ws tr2.
Proof.
  induction tr1 as [|e tr1 IH]; simpl; [reflexivity|].
  destruct e; try apply IH.
  destruct (Nat.eqb ws0 ws); simpl; now rewrite IH.
Qed.

Section primitives.
Context (E : env).

Lemma send_text_ok ws frame w :
  accepts E ws w ->
  server.send_text E ws frame w = (Ok tt, emit [ESend ws frame] w).
Proof.
  intros [Hopen Hup]. unfold server.send_text, bind, get.
  rewrite bool_decide_eq_false_2 by assumption. now rewrite Hup.
Qed.

Lemma send_text_raise ws frame w :
  ~ accepts E ws w -> exists e, server.send_text E ws frame w = (Raise e, w).
Proof.
  intros Hno. unfold server.send_text, bind, get.
  destruct (decide (ws ∈ closed w)) as [Hin|Hout].
  - rewrite bool_decide_eq_true_2 by assumption. eauto.
  - rewrite bool_decide_eq_false_2 by assumption.
    destruct (send_error E ws) as [e|] eqn:He; [eauto|].
    exfalso. apply Hno. now split.
Qed.

End primitives.

(** ** Chat turns *)

Lemma string_app_assoc (a b c : string) :
  ((a ++ b) ++ c = a ++ (b ++ c))%string.
Proof.
  induction a as [|x a IH]; [reflexivity|].
  change (String x ((a ++ b) ++ c)%string = String x (a ++ (b ++ c))%string).
  now rewrite IH.
Qed.

Lemma string_app_nil_r (a : string) : (a ++ "")%string = a.
Proof.
  induction a as [|x a IH]; [reflexivity|].
  change (String x (a ++ "")%string = String x a). now rewrite IH.
Qed.

Lemma bind_ok {A B} (m : M A) (k : A -> M B) w a w' :
  m w = (Ok a, w') -> bind m k w = k a w'.
Proof. intros H. unfold bind. now rewrite H. Qed.

Lemma bind_raise {A B} (m : M A) (k : A -> M B) w e w' :
  m w = (Raise e, w') -> bind m k w = (Raise e, w').
Proof. intros H. unfold bind. now rewrite H. Qed.

Section chat.
Context (E : env).

Lemma stream_deltas_ok ws run_id tokens : forall full w,
  accepts E ws w ->
  server.stream_deltas E ws run_id full tokens w
  = (Ok (full ++ join tokens)%string,
     emit (delta_sends ws run_id full tokens) w).
Proof.
  induction tokens as [|token rest IH]; intros full w Hup; simpl.
  - unfold ret, join. simpl. now rewrite string_app_nil_r, emit_nil.
  - erewrite bind_ok by (apply send_text_ok; assumption).
    rewrite IH by assumption.
    unfold join. simpl. fold (join rest).
    now rewrite emit_emit, string_app_assoc.
Qed.

Lemma history_append_run cid attached history t w :
  server.history_append cid attached history t w
  = (Ok (history ++ [t]),
     emit [EAppend cid t] (write_history cid attached (history ++ [t]) w)).
Proof. destruct attached; reflexivity. Qed.

Lemma last40_short (history : list turn) :
  (length history <= 40)%nat -> server.last40 history = history.
Proof.
  intros Hle. unfold server.last40.
  now replace (length history - 40)%nat with 0%nat by lia.
Qed.

Lemma write_history_detached cid h w : write_history cid false h w = w.
Proof. now destruct w. Qed.

Lemma history_trim_run cid attached history w :
  server.history_trim cid attached history w
  = (Ok (server.last40 history),
     write_history cid attached (server.last40 history) w) \/
  server.history_trim cid attached history w
  = (Ok (server.last40 history), w) /\ server.last40 history = history.
Proof.
  unfold server.history_trim.
  destruct (Nat.ltb_spec 40 (length history)) as [Hlong|Hshort].
  - left. destruct attached; [reflexivity|].
    now rewrite write_history_detached.
  - right. split; [|now apply last40_short].
    unfold ret. now rewrite last40_short.
Qed.

Lemma write_history_twice cid attached h1 h2 w :
  write_history cid attached h2 (write_history cid attached h1 w)
  = write_history cid attached h2 w.
Proof.
  unfold write_history. simpl. destruct attached; [|reflexivity].
  now rewrite insert_insert_eq.
Qed.

Lemma write_history_emit cid attached h es w :
  write_history cid attached h (emit es w)
  = emit es (write_history cid attached h w).
Proof. reflexivity. Qed.

(** A turn whose sends are delivered and whose stream ends reaches the
    storage of the reply in the world [streamed]. *)
Lemma chat_body_streams ws cid run_id text tokens w :
  accepts E ws w ->
  chat_stream E (default [] (_conversations w !! cid) ++ [user_turn text])
    server.SYSTEM_PROMPT = (tokens, None) ->
  server.chat_body E ws cid run_id text w
  = (server.store_text E "crab" (JStr (join tokens)) ;;;
     server.speak E ws (join tokens))%coro
      (streamed ws cid run_id text tokens w).
Proof.
  intros Hup Hstream. unfold server.chat_body.
  erewrite bind_ok by (apply send_text_ok; assumption).
  erewrite bind_ok by reflexivity. cbn [_conversations emit].
  set (attached := bool_decide (is_Some (_conversations w !! cid))).
  set (h := default [] (_conversations w !! cid)) in *.
  erewrite bind_ok by apply history_append_run.
  erewrite bind_ok by reflexivity.
  fold (user_turn text). rewrite Hstream.
  erewrite bind_ok by (apply stream_deltas_ok; exact Hup).
  erewrite bind_ok by reflexivity.
  erewrite bind_ok by (apply send_text_ok; exact Hup).
  erewrite bind_ok by (apply send_text_ok; exact Hup).
  erewrite bind_ok by apply history_append_run.
  fold (assistant_turn (join tokens)).
  assert (Hw : forall w0,
    w0 = streamed ws cid run_id text tokens w ->
    (server.store_text E "crab" (JStr (join tokens)) ;;;
     server.speak E ws (join tokens))%coro w0
    = (server.store_text E "crab" (JStr (join tokens)) ;;;
       server.speak E ws (join tokens))%coro
        (streamed ws cid run_id text tokens w)) by (intros ? ->; reflexivity).
  destruct (history_trim_run cid attached
              ((h ++ [user_turn text]) ++ [assistant_turn (join tokens)])
              (emit [EAppend cid (assistant_turn (join tokens))]
                 (write_history cid attached
                    ((h ++ [user_turn text]) ++ [assistant_turn (join tokens)])
                    (emit [ESend ws (protocol.make_agent_lifecycle run_id "end")]
                    (emit [ESend ws (protocol.make_chat_event run_id
                                       ("" ++ join tokens)%string "final" true)]
                    (emit (delta_sends ws run_id "" tokens)
                    (emit [EStream (h ++ [user_turn text])]
                    (emit [EAppend cid (user_turn text)]
                    (write_history cid attached (h ++ [user_turn text])
                    (emit [ESend ws (protocol.make_agent_lifecycle run_id "start")]
                       w))))))))))
    as [Htrim|[Htrim Hsame]].
  - erewrite bind_ok by exact Htrim. apply Hw.
    unfold streamed. fold attached h.
    rewrite <- app_assoc. simpl.
    rewrite !write_history_emit, !write_history_twice, !emit_emit.
    reflexivity.
  - erewrite bind_ok by exact Htrim. apply Hw.
    unfold streamed. fold attached h.
    rewrite <- app_assoc in *. simpl in *. rewrite Hsame.
    rewrite !write_history_emit, !write_history_twice, !emit_emit.
    reflexivity.
Qed.

Lemma store_text_ok source text_content w :
  storable E text_content w ->
  server.store_text E source text_content w
  = (Ok (storage.row_dict (new_row E source text_content w)),
     stored E source text_content w).
Proof.
  intros [Hbind Hfresh].
  unfold server.store_text, storage.store_message.
  erewrite bind_ok by reflexivity. erewrite bind_ok by reflexivity.
  unfold lift at 1. erewrite bind_ok by (rewrite Hbind; reflexivity).
  erewrite bind_ok by reflexivity. cbn [messages uuid_calls].
  rewrite Hfresh. reflexivity.
Qed.

Lemma store_text_raise source text_content w :
  ~ storable E text_content w ->
  exists e, server.store_text E source text_content w = (Raise e, drawn w).
Proof.
  intros Hno.
  unfold server.store_text, storage.store_message.
  erewrite bind_ok by reflexivity. erewrite bind_ok by reflexivity.
  destruct (storage.bind_parameter text_content) as [[]|e] eqn:Hbind.
  - unfold lift at 1. erewrite bind_ok by reflexivity.
    erewrite bind_ok by reflexivity. cbn [messages uuid_calls].
    destruct (storage.id_taken (messages w) (uuid4 E (uuid_calls w))) eqn:Hid.
    + eexists. reflexivity.
    + exfalso. apply Hno. now split.
  - exists e. unfold lift at 1. erewrite bind_raise by reflexivity.
    reflexivity.
Qed.

Lemma speak_ok ws full audio w :
  accepts E ws w ->
  synthesize E full = Ok audio ->
  server.speak E ws full w
  = (Ok tt, emit (map (ESend ws) (audio_frames E full audio)) w).
Proof.
  intros Hup Hsyn. unfold server.speak.
  erewrite bind_ok by (unfold lift; rewrite Hsyn; reflexivity).
  destruct audio as [[|c audio]|]; simpl.
  - unfold ret. now rewrite emit_nil.
  - now apply send_text_ok.
  - unfold ret. now rewrite emit_nil.
Qed.

(** The [except] clauses of [_handle_chat] swallow every exception, and
    send at most the error frame. *)
Lemma handle_chat_except ws run_id e w :
  accepts E ws w ->
  exists tail,
    match e with
    | WebSocketDisconnect => ret tt
    | _ => try_except (server.send_text E ws (server.error_frame run_id e))
             (fun _ => ret tt)
    end w = (Ok tt, emit tail w) /\
    tail = match e with
           | WebSocketDisconnect => []
           | _ => [ESend ws (server.error_frame run_id e)]
           end.
Proof.
  intros Hup. destruct e as [|cls msg]; eexists; (split; [|reflexivity]).
  - unfold ret. now rewrite emit_nil.
  - unfold try_except. now rewrite send_text_ok.
Qed.

(** A turn whose frames are delivered, whose stream ends, whose reply is
    stored and whose synthesis returns. *)
Lemma handle_chat_completes ws cid run_id text tokens audio w :
  accepts E ws w ->
  chat_stream E (default [] (_conversations w !! cid) ++ [user_turn text])
    server.SYSTEM_PROMPT = (tokens, None) ->
  storable E (JStr (join tokens)) w ->
  synthesize E (join tokens) = Ok audio ->
  server._handle_chat E ws cid run_id text w
  = (Ok tt,
     emit (map (ESend ws) (audio_frames E (join tokens) audio))
       (stored E "crab" (JStr (join tokens))
          (streamed ws cid run_id text tokens w))).
Proof.
  intros Hup Hstream Hstore Hsyn.
  unfold server._handle_chat, try_except.
  rewrite (chat_body_streams ws cid run_id text tokens) by assumption.
  erewrite bind_ok by (apply store_text_ok; exact Hstore).
  now rewrite (speak_ok _ _ audio) by assumption.
Qed.

End chat.

(** ** What a trace shows *)

Lemma sent_on_sends (ws : nat) (frames : list json) :
  sent_on ws (map (ESend ws) frames) = frames.
Proof.
  induction frames as [|f frames IH]; simpl; [reflexivity|].
  now rewrite Nat.eqb_refl, IH.
Qed.

Lemma sent_on_turn_effects ws cid run_id text history tokens :
  sent_on ws (turn_effects ws cid run_id text history tokens)
  = turn_frames run_id tokens.
Proof.
  unfold turn_effects, turn_frames, delta_sends.
  rewrite !sent_on_app. simpl. rewrite !Nat.eqb_refl.
  f_equal. f_equal.
  rewrite <- (sent_on_sends ws
    (map (fun acc => protocol.make_chat_event run_id acc "delta" false)
       (accumulate "" tokens))).
  now rewrite map_map.
Qed.

Lemma run_events_app run_id (f1 f2 : list json) :
  run_events run_id (f1 ++ f2) = run_events run_id f1 ++ run_events run_id f2.
Proof. apply filter_app. Qed.

Lemma run_events_deltas run_id (texts : list string) :
  run_events run_id
    (map (fun acc => protocol.make_chat_event run_id acc "delta" false) texts)
  = map (fun acc => protocol.make_chat_event run_id acc "delta" false) texts.
Proof.
  induction texts as [|acc texts IH]; [reflexivity|].
  simpl. unfold run_events in *. rewrite filter_cons_True; [now rewrite IH|].
  simpl. now rewrite String.eqb_refl.
Qed.

Lemma run_events_turn_frames run_id tokens :
  run_events run_id (turn_frames run_id tokens) = turn_frames run_id tokens.
Proof.
  unfold turn_frames. rewrite !run_events_app, run_events_deltas.
  unfold run_events.
  rewrite !filter_cons_True, !filter_nil;
    [reflexivity|simpl; now rewrite String.eqb_refl..].
Qed.

Lemma run_events_audio E run_id full audio :
  run_events run_id (audio_frames E full audio) = [].
Proof. now destruct audio as [[|c a]|]. Qed.

(** ** A completed chat turn *)

Lemma trace_emit es w : trace (emit es w) = trace w ++ es.
Proof. reflexivity. Qed.

Lemma trace_stored E source text_content w :
  trace (stored E source text_content w)
  = trace w ++ [EStore (new_row E source text_content w)].
Proof. reflexivity. Qed.

Lemma trace_streamed ws cid run_id text tokens w :
  trace (streamed ws cid run_id text tokens w)
  = trace w ++ turn_effects ws cid run_id text
                 (default [] (_conversations w !! cid)) tokens.
Proof. reflexivity. Qed.

Lemma new_row_streamed E source text_content ws cid run_id text tokens w :
  new_row E source text_content (streamed ws cid run_id text tokens w)
  = new_row E source text_content w.
Proof. reflexivity. Qed.

(** The frames of a turn whose stream yields [tokens] and ends are, in
    order: lifecycle start, one delta per token carrying the text
    accumulated so far, the final frame with the whole text, lifecycle
    end; when the reply is stored and the synthesis returns, nothing else
    sent by the turn belongs to the run. *)
Lemma chat_turn_events (E : env) (ws : nat) (cid run_id : string) (text : json)
    (tokens : list string) (audio : option string) (w : world)
    (Hup : accepts E ws w)
    (Hstream : chat_stream E
                 (default [] (_conversations w !! cid) ++ [user_turn text])
                 server.SYSTEM_PROMPT = (tokens, None))
    (Hstore : storable E (JStr (join tokens)) w)
    (Hsyn : synthesize E (join tokens) = Ok audio) :
  exists w' new,
    server._handle_chat E ws cid run_id text w = (Ok tt, w') /\
    trace w' = trace w ++ new /\
    sent_on ws new = turn_frames run_id tokens ++ audio_frames E (join tokens) audio /\
    run_events run_id (sent_on ws new)
    = [protocol.make_agent_lifecycle run_id "start"]
      ++ map (fun acc => protocol.make_chat_event run_id acc "delta" false)
             (accumulate "" tokens)
      ++ [protocol.make_chat_event run_id (join tokens) "final" true;
          protocol.make_agent_lifecycle run_id "end"].
Proof.
  eexists. 
  exists (turn_effects ws cid run_id text (default [] (_conversations w !! cid)) tokens
          ++ [EStore (new_row E "crab" (JStr (join tokens)) w)]
          ++ map (ESend ws) (audio_frames E (join tokens) audio)).
  split; [now apply (handle_chat_completes E ws cid run_id text tokens audio w)|].
  split.
  - rewrite trace_emit, trace_stored, new_row_streamed, trace_streamed.
    now rewrite <- !app_assoc.
  - rewrite !sent_on_app, sent_on_turn_effects, sent_on_sends.
    change (sent_on ws [EStore (new_row E "crab" (JStr (join tokens)) w)])
      with (@nil json).
    rewrite app_nil_l. split; [reflexivity|].
    rewrite run_events_app, run_events_turn_frames, run_events_audio.
    now rewrite app_nil_r.
Qed.

Lemma chat_turn_events_witness :
  exists w' new,
    server._handle_chat Scenario.E0 7 "abc" "r1" (JStr "hi") Scenario.joined
    = (Ok tt, w') /\
    trace w' = trace Scenario.joined ++ new /\
    sent_on 7 new
    = turn_frames "r1" ["Hel"; "lo"]
      ++ audio_frames Scenario.E0 (join ["Hel"; "lo"]) None /\
    run_events "r1" (sent_on 7 new)
    = [protocol.make_agent_lifecycle "r1" "start"]
      ++ map (fun acc => protocol.make_chat_event "r1" acc "delta" false)
             (accumulate "" ["Hel"; "lo"])
      ++ [protocol.make_chat_event "r1" (join ["Hel"; "lo"]) "final" true;
          protocol.make_agent_lifecycle "r1" "end"].
Proof.
  apply (chat_turn_events Scenario.E0 7 "abc" "r1" (JStr "hi") ["Hel"; "lo"] None
           Scenario.joined).
  - split; [vm_compute; intros H; inversion H | reflexivity].
  - reflexivity.
  - split; vm_compute; reflexivity.
  - reflexivity.
Defined.

(** For the tokens ["Hel"] and ["lo"] the frames are exactly: lifecycle
    start, delta ["Hel"], delta ["Hello"], final ["Hello"], lifecycle end. *)
Example chat_turn_hel_lo :
  exists w',
    server._handle_chat Scenario.E0 7 "abc" "r1" (JStr "hi") Scenario.joined
    = (Ok tt, w') /\
    sent_on 7 (drop (length (trace Scenario.joined)) (trace w'))
    = [protocol.make_agent_lifecycle "r1" "start";
       protocol.make_chat_event "r1" "Hel" "delta" false;
       protocol.make_chat_event "r1" "Hello" "delta" false;
       protocol.make_chat_event "r1" "Hello" "final" true;
       protocol.make_agent_lifecycle "r1" "end"].
Proof. eexists. split; vm_compute; reflexivity. Qed.

(** ** Chat turns in general *)

Section turns.
Context (E : env).


Lemma speak_raise ws full e w :
  synthesize E full = Raise e -> server.speak E ws full w = (Raise e, w).
Proof.
  intros Hsyn. unfold server.speak.
  now erewrite bind_raise by (unfold lift; rewrite Hsyn; reflexivity).
Qed.

(** From the storage of the reply on, a turn ends without raising and
    leaves the conversations as they are. *)
Lemma handle_chat_finish ws run_id full w :
  accepts E ws w ->
  exists w' tail,
    try_except
      (server.store_text E "crab" (JStr full) ;;; server.speak E ws full)%coro
      (fun e =>
         match e with
         | WebSocketDisconnect => ret tt
         | _ => try_except (server.send_text E ws (server.error_frame run_id e))
                  (fun _ => ret tt)
         end) w = (Ok tt, w') /\
    grows w w' tail /\ _conversations w' = _conversations w.
Proof.
  intros Hup. unfold try_except at 1.
  destruct (storage.id_taken (messages w) (uuid4 E (uuid_calls w))) eqn:Hid.
  - destruct (store_text_raise E "crab" (JStr full) w) as [e He].
    { intros [_ Hfresh]. congruence. }
    erewrite bind_raise by exact He.
    destruct (handle_chat_except E ws run_id e (drawn w) Hup) as (tail & Hrun & _).
    rewrite Hrun. exists (emit tail (drawn w)), tail. now repeat split.
  - erewrite bind_ok by (apply store_text_ok; now split).
    assert (Hup' : accepts E ws (stored E "crab" (JStr full) w)) by exact Hup.
    destruct (synthesize E full) as [audio|e] eqn:Hsyn.
    + rewrite (speak_ok E ws full audio) by assumption.
      eexists _, ([EStore (new_row E "crab" (JStr full) w)]
                  ++ map (ESend ws) (audio_frames E full audio)).
      split; [reflexivity|]. unfold grows. rewrite trace_emit, trace_stored.
      rewrite <- app_assoc. now repeat split.
    + rewrite (speak_raise ws full e) by assumption.
      destruct (handle_chat_except E ws run_id e _ Hup') as (tail & Hrun & _).
      rewrite Hrun.
      eexists _, ([EStore (new_row E "crab" (JStr full) w)] ++ tail).
      split; [reflexivity|]. unfold grows. rewrite trace_emit, trace_stored.
      rewrite <- app_assoc. now repeat split.
Qed.

Lemma try_except_at {A} (m m' : M A) h w w0 :
  m w = m' w0 -> try_except m h w = try_except m' h w0.
Proof. intros H. unfold try_except. now rewrite H. Qed.


(** A turn whose stream ends: it returns, and the conversations are those
    of [streamed]. *)
Lemma handle_chat_streamed ws cid run_id text tokens w :
  accepts E ws w ->
  chat_stream E (default [] (_conversations w !! cid) ++ [user_turn text])
    server.SYSTEM_PROMPT = (tokens, None) ->
  exists w' tail,
    server._handle_chat E ws cid run_id text w = (Ok tt, w') /\
    grows (streamed ws cid run_id text tokens w) w' tail /\
    _conversations w' = _conversations (streamed ws cid run_id text tokens w).
Proof.
  intros Hup Hstream. unfold server._handle_chat.
  erewrite try_except_at
    by (apply (chat_body_streams E ws cid run_id text tokens); assumption).
  apply handle_chat_finish. exact Hup.
Qed.



End turns.

(** ** A turn whose speech synthesis raises *)

Lemma handle_chat_speech_fault (E : env) ws cid run_id text tokens e w :
  accepts E ws w ->
  chat_stream E (default [] (_conversations w !! cid) ++ [user_turn text])
    server.SYSTEM_PROMPT = (tokens, None) ->
  storable E (JStr (join tokens)) w ->
  synthesize E (join tokens) = Raise e ->
  server._handle_chat E ws cid run_id text w
  = (Ok tt,
     emit match e with
          | WebSocketDisconnect => []
          | _ => [ESend ws (server.error_frame run_id e)]
          end
       (stored E "crab" (JStr (join tokens))
          (streamed ws cid run_id text tokens w))).
Proof.
  intros Hup Hstream Hstore Hsyn.
  unfold server._handle_chat, try_except.
  rewrite (chat_body_streams E ws cid run_id text tokens) by assumption.
  erewrite bind_ok by (apply store_text_ok; exact Hstore).
  rewrite (speak_raise E ws (join tokens) e) by assumption.
  assert (Hup' : accepts E ws (stored E "crab" (JStr (join tokens))
                                 (streamed ws cid run_id text tokens w)))
    by (destruct Hup; now split).
  destruct (handle_chat_except E ws run_id e _ Hup') as (tail & Hrun & ->).
  exact Hrun.
Qed.

(** C3, where the code leaves it. When the stream has yielded its tokens
    and ended and the reply is stored, but the speech synthesis raises
    (anything but a disconnect), the events of the run are not the five
    kinds alone: after lifecycle start, the deltas, the final frame and
    lifecycle end, the turn sends an error event that carries the run
    id. *)
Theorem synthesis_fault_adds_error_event (E : env) (ws : nat)
    (cid run_id : string) (text : json) (tokens : list string) (e : exn)
    (w : world)
    (Hup : accepts E ws w)
    (Hstream : chat_stream E
                 (default [] (_conversations w !! cid) ++ [user_turn text])
                 server.SYSTEM_PROMPT = (tokens, None))
    (Hstore : storable E (JStr (join tokens)) w)
    (Hsyn : synthesize E (join tokens) = Raise e)
    (Hfault : e <> WebSocketDisconnect) :
  exists w' new,
    server._handle_chat E ws cid run_id text w = (Ok tt, w') /\
    trace w' = trace w ++ new /\
    run_events run_id (sent_on ws new)
    = [protocol.make_agent_lifecycle run_id "start"]
      ++ map (fun acc => protocol.make_chat_event run_id acc "delta" false)
             (accumulate "" tokens)
      ++ [protocol.make_chat_event run_id (join tokens) "final" true;
          protocol.make_agent_lifecycle run_id "end";
          server.error_frame run_id e] /\
    length (run_events run_id (sent_on ws new)) = (length tokens + 4)%nat.
Proof.
  assert (Hevents : run_events run_id
            (sent_on ws
               (turn_effects ws cid run_id text
                  (default [] (_conversations w !! cid)) tokens
                ++ [EStore (new_row E "crab" (JStr (join tokens)) w)]
                ++ [ESend ws (server.error_frame run_id e)]))
          = [protocol.make_agent_lifecycle run_id "start"]
            ++ map (fun acc => protocol.make_chat_event run_id acc "delta" false)
                   (accumulate "" tokens)
            ++ [protocol.make_chat_event run_id (join tokens) "final" true;
                protocol.make_agent_lifecycle run_id "end";
                server.error_frame run_id e]).
  { rewrite !sent_on_app, sent_on_turn_effects. cbn [sent_on].
    rewrite Nat.eqb_refl, app_nil_l.
    rewrite run_events_app, run_events_turn_frames.
    unfold run_events at 1. rewrite filter_cons_True, filter_nil
      by (simpl; now rewrite String.eqb_refl).
    unfold turn_frames. now rewrite <- !app_assoc. }
  eexists.
  exists (turn_effects ws cid run_id text (default [] (_conversations w !! cid)) tokens
          ++ [EStore (new_row E "crab" (JStr (join tokens)) w)]
          ++ [ESend ws (server.error_frame run_id e)]).
  split.
  - rewrite (handle_chat_speech_fault E ws cid run_id text tokens e w)
      by assumption.
    destruct e; [congruence | reflexivity].
  - split.
    + rewrite trace_emit, trace_stored, new_row_streamed, trace_streamed.
      now rewrite <- !app_assoc.
    + split; [exact Hevents|]. rewrite Hevents.
      rewrite !length_app, length_map. cbn [length].
      assert (Hlen : forall full, length (accumulate full tokens) = length tokens).
      { clear. induction tokens as [|t ts IH]; intros full; [reflexivity|].
        cbn [accumulate length]. now rewrite IH. }
      rewrite Hlen. lia.
Qed.

Lemma synthesis_fault_adds_error_event_witness :
  let E := rest.wired Net.with_speech Net.speech_breaks Scenario.E0 in
  let e := Exception "ReadError" "Server disconnected without sending a response." in
  exists w' new,
    server._handle_chat E 7 "abc" "r1" (JStr "hi") Scenario.joined = (Ok tt, w') /\
    trace w' = trace Scenario.joined ++ new /\
    run_events "r1" (sent_on 7 new)
    = [protocol.make_agent_lifecycle "r1" "start"]
      ++ map (fun acc => protocol.make_chat_event "r1" acc "delta" false)
             (accumulate "" ["Hel"; "lo"])
      ++ [protocol.make_chat_event "r1" (join ["Hel"; "lo"]) "final" true;
          protocol.make_agent_lifecycle "r1" "end";
          server.error_frame "r1" e] /\
    length (run_events "r1" (sent_on 7 new)) = (length ["Hel"; "lo"] + 4)%nat.
Proof.
  apply (synthesis_fault_adds_error_event
           (rest.wired Net.with_speech Net.speech_breaks Scenario.E0)
           7 "abc" "r1" (JStr "hi") ["Hel"; "lo"]
           (Exception "ReadError" "Server disconnected without sending a response.")
           Scenario.joined).
  - split; [vm_compute; intros H; inversion H | reflexivity].
  - vm_compute. reflexivity.
  - split; vm_compute; reflexivity.
  - vm_compute. reflexivity.
  - discriminate.
Defined.

(** For the tokens ["Hel"] and ["lo"] and such a synthesis, the run has
    six events: the sixth is the error event, after lifecycle end. *)
Example chat_turn_hel_lo_speech_fault :
  let E := rest.wired Net.with_speech Net.speech_breaks Scenario.E0 in
  run_events "r1"
    (sent_on 7 (drop (length (trace Scenario.joined))
                  (trace (snd (server._handle_chat E 7 "abc" "r1" (JStr "hi")
                                 Scenario.joined)))))
  = [protocol.make_agent_lifecycle "r1" "start";
     protocol.make_chat_event "r1" "Hel" "delta" false;
     protocol.make_chat_event "r1" "Hello" "delta" false;
     protocol.make_chat_event "r1" "Hello" "final" true;
     protocol.make_agent_lifecycle "r1" "end";
     server.error_frame "r1"
       (Exception "ReadError" "Server disconnected without sending a response.")].
Proof. vm_compute. reflexivity. Qed.

(** ** The transcript of a session *)

Lemma last40_length (history : list turn) :
  length (server.last40 history) = Nat.min 40 (length history).
Proof. unfold server.last40. rewrite length_skipn. lia. Qed.

Lemma last40_suffix (history : list turn) :
  history = take (length history - 40) history ++ server.last40 history.
Proof. unfold server.last40. now rewrite take_drop. Qed.

(** C7, as the code has it. A turn that runs to its end appends the user
    turn and the assistant turn and then trims: the transcript it leaves
    is the most recent 40 entries of the extended one, so it holds at most
    40 entries, and exactly 40 as soon as 40 were there. *)
Theorem transcript_capped_after_turn (E : env) (ws : nat) (cid run_id : string)
    (text : json) (tokens : list string) (history : list turn) (w : world)
    (Hup : accepts E ws w)
    (Hconv : _conversations w !! cid = Some history)
    (Hstream : chat_stream E (history ++ [user_turn text]) server.SYSTEM_PROMPT
               = (tokens, None)) :
  let extended := history ++ [user_turn text; assistant_turn (join tokens)] in
  exists w' kept,
    server._handle_chat E ws cid run_id text w = (Ok tt, w') /\
    _conversations w' !! cid = Some kept /\
    kept = server.last40 extended /\
    (exists older, extended = older ++ kept) /\
    (length kept <= 40)%nat /\
    ((38 <= length history)%nat -> length kept = 40%nat).
Proof.
  intros extended.
  destruct (handle_chat_streamed E ws cid run_id text tokens w Hup) as
    (w' & tail & Hrun & _ & Hconv').
  { now rewrite Hconv. }
  exists w', (server.last40 extended). split; [exact Hrun|].
  split.
  - rewrite Hconv'. unfold streamed. rewrite Hconv. simpl.
    apply lookup_insert_eq.
  - split; [reflexivity|]. split.
    + eexists. apply last40_suffix.
    + assert (Hlen : length extended = (length history + 2)%nat)
        by (subst extended; now rewrite length_app).
      rewrite last40_length, Hlen. split; lia.
Qed.

Lemma transcript_capped_after_turn_witness :
  let extended := Scenario.forty_turns
                  ++ [user_turn (JStr "hi"); assistant_turn (join ["Hel"; "lo"])] in
  exists w' kept,
    server._handle_chat Scenario.E0 7 "abc" "r1" (JStr "hi") Scenario.forty
    = (Ok tt, w') /\
    _conversations w' !! "abc" = Some kept /\
    kept = server.last40 extended /\
    (exists older, extended = older ++ kept) /\
    (length kept <= 40)%nat /\
    ((38 <= length Scenario.forty_turns)%nat -> length kept = 40%nat).
Proof.
  apply (transcript_capped_after_turn Scenario.E0 7 "abc" "r1" (JStr "hi")
           ["Hel"; "lo"] Scenario.forty_turns Scenario.forty).
  - split; [vm_compute; intros H; inversion H | reflexivity].
  - vm_compute. reflexivity.
  - reflexivity.
Defined.

(** Against the sentence as stated: a transcript of 40 turns holds 41 once the
    user turn of the next chat turn is appended, nothing trims it before
    the model reads it, and it stays at 41 when the stream raises. *)
Lemma transcript_exceeds_cap_within_turn :
  _conversations Scenario.forty !! "abc" = Some Scenario.forty_turns /\
  length Scenario.forty_turns = 40%nat /\
  (let w' := snd (server._handle_chat Scenario.E0 7 "abc" "r1" (JStr "hi")
                    Scenario.forty) in
   exists history, EStream history ∈ trace w' /\ length history = 41%nat) /\
  (let w' := snd (server._handle_chat Scenario.E_broken 7 "abc" "r1" (JStr "hi")
                    Scenario.forty) in
   length <$> _conversations w' !! "abc" = Some 41%nat).
Proof.
  split; [vm_compute; reflexivity|]. split; [reflexivity|]. split.
  - exists (Scenario.forty_turns ++ [user_turn (JStr "hi")]).
    split; [|reflexivity].
    apply list_elem_of_lookup. exists 3%nat. vm_compute. reflexivity.
  - vm_compute. reflexivity.
Qed.

(** ** The branches of the read loop *)

Section branches.
Context (E : env).

Lemma handle_text_malformed ws cid authenticated text w :
  protocol.parse_frame (json_loads E) text = Ok None ->
  server.handle_text E ws cid authenticated text w
  = (Ok (server.Continue authenticated), w).
Proof.
  intros H. unfold server.handle_text, lift at 1, bind at 1. now rewrite H.
Qed.

Lemma handle_text_other_type ws cid authenticated text d w :
  json_loads E text = Ok (JDict d) ->
  Py.eq_str (Py.dict_get d "type" (JStr "")) "req" = false ->
  server.handle_text E ws cid authenticated text w
  = (Ok (server.Continue authenticated), w).
Proof.
  intros Hdec Htype. unfold server.handle_text, protocol.parse_frame.
  rewrite Hdec. unfold py_get, lift, bind. now rewrite Htype.
Qed.

Lemma handle_text_request ws cid authenticated text d w :
  json_loads E text = Ok (JDict d) ->
  Py.eq_str (Py.dict_get d "type" (JStr "")) "req" = true ->
  server.handle_text E ws cid authenticated text w
  = (let req_id := Py.dict_get d "id" (JStr "") in
     let method := Py.dict_get d "method" (JStr "") in
     params <- lift (py_get (JDict d) "params" (JDict [])) ;;
     if Py.eq_str method "connect" then
       server.on_connect E ws cid req_id params
     else if Py.eq_str method "chat.send" then
       server.on_chat_send E ws cid authenticated req_id params
     else if Py.eq_str method "approval.respond" then
       server.on_approval_respond E ws authenticated req_id
     else server.on_unknown E ws authenticated req_id method)%coro w.
Proof.
  intros Hdec Htype. unfold server.handle_text, protocol.parse_frame.
  rewrite Hdec. unfold lift at 1, bind at 1.
  unfold py_get at 1 2 3, lift at 1 2 3, bind at 1 2 3.
  now rewrite Htype.
Qed.

Lemma handle_text_not_object ws cid authenticated text v w :
  json_loads E text = Ok v ->
  v <> JNull -> (forall d, v <> JDict d) ->
  server.handle_text E ws cid authenticated text w
  = (Raise (Exception "AttributeError"
              ("'" ++ Py.type_name v ++ "' object has no attribute 'get'")%string),
     w).
Proof.
  intros Hdec Hnull Hobj. unfold server.handle_text, protocol.parse_frame.
  rewrite Hdec. destruct v; congruence || reflexivity.
Qed.

Lemma close_ok ws code reason w :
  accepts E ws w ->
  server.close E ws code reason w = (Ok tt, emit [EClose ws code reason] (shut ws w)).
Proof.
  intros [Hopen Hsend]. unfold server.close, bind, get.
  rewrite bool_decide_eq_false_2 by assumption. now rewrite Hsend.
Qed.

Lemma on_connect_valid ws cid req_id p a w :
  accepts E ws w ->
  Py.dict_get p "auth" (JDict []) = JDict a ->
  verify_token (auth_token E) (Py.dict_get a "token" (JStr "")) = Ok true ->
  server.on_connect E ws cid req_id (JDict p) w
  = (Ok (server.Continue true),
     emit [ESend ws (protocol.make_hello_ok req_id (uuid4 E (uuid_calls w)))]
       (uuid_drawn (registered cid ws w))).
Proof.
  intros Hup Hauth Hvalid. unfold server.on_connect.
  unfold py_get at 1, lift at 1, bind at 1. rewrite Hauth.
  unfold py_get at 1, lift at 1, bind at 1.
  unfold lift at 1, bind at 1. rewrite Hvalid.
  erewrite bind_ok by reflexivity. erewrite bind_ok by reflexivity.
  erewrite bind_ok by reflexivity.
  erewrite bind_ok by (apply send_text_ok; exact Hup).
  reflexivity.
Qed.

Lemma on_connect_invalid ws cid req_id p a w :
  accepts E ws w ->
  Py.dict_get p "auth" (JDict []) = JDict a ->
  verify_token (auth_token E) (Py.dict_get a "token" (JStr "")) = Ok false ->
  server.on_connect E ws cid req_id (JDict p) w
  = (Ok server.Return,
     emit [EClose ws 4001 "Authentication failed"]
       (shut ws
          (emit [ESend ws (protocol.make_error req_id "auth_failed" "Invalid token")]
             w))).
Proof.
  intros Hup Hauth Hvalid. unfold server.on_connect.
  unfold py_get at 1, lift at 1, bind at 1. rewrite Hauth.
  unfold py_get at 1, lift at 1, bind at 1.
  unfold lift at 1, bind at 1. rewrite Hvalid.
  erewrite bind_ok by (apply send_text_ok; exact Hup).
  erewrite bind_ok by (apply close_ok; exact Hup).
  reflexivity.
Qed.

Lemma on_connect_raises ws cid req_id p a e w :
  Py.dict_get p "auth" (JDict []) = JDict a ->
  verify_token (auth_token E) (Py.dict_get a "token" (JStr "")) = Raise e ->
  server.on_connect E ws cid req_id (JDict p) w = (Raise e, w).
Proof.
  intros Hauth Hvalid. unfold server.on_connect.
  unfold py_get at 1, lift at 1, bind at 1. rewrite Hauth.
  unfold py_get at 1, lift at 1, bind at 1.
  unfold lift at 1, bind at 1. now rewrite Hvalid.
Qed.







End branches.

(** ** Requests and their responses *)

Lemma sent_on_send ws f tr : sent_on ws (ESend ws f :: tr) = f :: sent_on ws tr.
Proof. simpl. now rewrite Nat.eqb_refl. Qed.





(** ** Frames that end the connection *)

Lemma verify_token_not_str (expected : string) (token : json) :
  expected <> "" -> (forall s, token <> JStr s) ->
  verify_token expected token
  = Raise (Exception "TypeError"
             ("unsupported operand types(s) or combination of types: '"
              ++ Py.type_name token ++ "' and 'str'")%string).
Proof.
  intros Hset Hnot. rewrite verify_token_secret by assumption.
  destruct token; try reflexivity. now destruct (Hnot s).
Qed.

(** When the first pass of the read loop raises without touching the
    world, the handler has sent the challenge only, and the [finally]
    clause has dropped the session. *)
Lemma gateway_ws_first_raises (E : env) ws text rest e w :
  accepts E ws w ->
  (forall w0, server.handle_text E ws (Py.prefix 8 (uuid4 E (uuid_calls w))) false
                text w0 = (Raise e, w0)) ->
  exists w',
    server.gateway_ws E ws (text :: rest) w = (Ok tt, w') /\
    trace w' = trace w ++ [ESend ws protocol.make_challenge] /\
    _clients w' = delete (Py.prefix 8 (uuid4 E (uuid_calls w))) (_clients w) /\
    _conversations w'
    = delete (Py.prefix 8 (uuid4 E (uuid_calls w))) (_conversations w) /\
    closed w' = closed w.
Proof.
  intros Hup Hraise. unfold server.gateway_ws.
  erewrite bind_ok by reflexivity.
  erewrite bind_ok by (apply send_text_ok; exact Hup).
  unfold try_finally, try_except. simpl server.read_loop.
  erewrite bind_raise by apply Hraise.
  eexists. split; [reflexivity|]. now repeat split.
Qed.

(** C10. With a secret configured, a [connect] whose token is not a
    string makes [verify_token] raise a TypeError: the pass of the read
    loop raises with nothing sent, and the handler ends having sent the
    challenge only (no [auth_failed] response, no close frame) and having
    dropped the session; the frames that follow are not read. *)
Theorem non_string_token_tears_down (E : env) (ws : nat) (text : string)
    (rest : list string) (d p a : pydict) (w : world)
    (Hsecret : auth_token E <> "")
    (Hup : accepts E ws w)
    (Hdec : json_loads E text = Ok (JDict d))
    (Htype : Py.eq_str (Py.dict_get d "type" (JStr "")) "req" = true)
    (Hmethod : Py.eq_str (Py.dict_get d "method" (JStr "")) "connect" = true)
    (Hparams : Py.dict_get d "params" (JDict []) = JDict p)
    (Hauth : Py.dict_get p "auth" (JDict []) = JDict a)
    (Htoken : forall s, Py.dict_get a "token" (JStr "") <> JStr s) :
  let cid := Py.prefix 8 (uuid4 E (uuid_calls w)) in
  let token := Py.dict_get a "token" (JStr "") in
  (forall authenticated w0,
     server.handle_text E ws cid authenticated text w0
     = (Raise (Exception "TypeError"
                 ("unsupported operand types(s) or combination of types: '"
                  ++ Py.type_name token ++ "' and 'str'")%string), w0)) /\
  exists w',
    server.gateway_ws E ws (text :: rest) w = (Ok tt, w') /\
    sent_on ws (drop (length (trace w)) (trace w')) = [protocol.make_challenge] /\
    trace w' = trace w ++ [ESend ws protocol.make_challenge] /\
    _clients w' = delete cid (_clients w) /\
    _conversations w' = delete cid (_conversations w) /\
    closed w' = closed w.
Proof.
  intros cid token.
  assert (Hraise : forall authenticated w0,
     server.handle_text E ws cid authenticated text w0
     = (Raise (Exception "TypeError"
                 ("unsupported operand types(s) or combination of types: '"
                  ++ Py.type_name token ++ "' and 'str'")%string), w0)).
  { intros authenticated w0.
    rewrite (handle_text_request E ws cid authenticated text d w0 Hdec Htype).
    cbv zeta. unfold py_get at 1, lift at 1, bind at 1.
    rewrite Hparams, Hmethod.
    apply (on_connect_raises E ws cid _ p a); [exact Hauth|].
    now apply verify_token_not_str. }
  split; [exact Hraise|].
  destruct (gateway_ws_first_raises E ws text rest _ w Hup (Hraise false))
    as (w' & Hrun & Htrace & Hrest).
  exists w'. split; [exact Hrun|]. split; [|now split].
  rewrite Htrace, drop_app_length. apply sent_on_send.
Qed.

Lemma non_string_token_tears_down_witness :
  let cid := Py.prefix 8 (uuid4 Scenario.E0 (uuid_calls Sample.boot)) in
  let token := Py.dict_get [("token", JInt 5)] "token" (JStr "") in
  (forall authenticated w0,
     server.handle_text Scenario.E0 7 cid authenticated
       Scenario.number_token_frame w0
     = (Raise (Exception "TypeError"
                 ("unsupported operand types(s) or combination of types: '"
                  ++ Py.type_name token ++ "' and 'str'")%string), w0)) /\
  exists w',
    server.gateway_ws Scenario.E0 7
      (Scenario.number_token_frame :: [Scenario.chat_frame]) Sample.boot
    = (Ok tt, w') /\
    sent_on 7 (drop (length (trace Sample.boot)) (trace w'))
    = [protocol.make_challenge] /\
    trace w' = trace Sample.boot ++ [ESend 7 protocol.make_challenge] /\
    _clients w' = delete cid (_clients Sample.boot) /\
    _conversations w' = delete cid (_conversations Sample.boot) /\
    closed w' = closed Sample.boot.
Proof.
  apply (non_string_token_tears_down Scenario.E0 7 Scenario.number_token_frame
           [Scenario.chat_frame] Scenario.number_token_fields
           [("auth", JDict [("token", JInt 5)])] [("token", JInt 5)] Sample.boot).
  - discriminate.
  - split; [vm_compute; intros H; inversion H | reflexivity].
  - vm_compute. reflexivity.
  - reflexivity.
  - reflexivity.
  - reflexivity.
  - reflexivity.
  - intros s. discriminate.
Defined.

(** C2, at the failing input. The text ["[]"] is valid JSON:
    [parse_frame] returns the list, not the sentinel; the first [.get] on
    it raises, the read loop ends, and the [connect] that follows is never
    answered. A text that is not JSON is passed over and the same
    [connect] is answered. *)
Lemma non_object_frame_ends_connection :
  protocol.parse_frame (json_loads Scenario.E0) "[]" = Ok (Some (JList [])) /\
  server.read_loop Scenario.E0 7 "abc" false ["[]"; Scenario.connect_frame]
    Sample.boot
  = (Raise (Exception "AttributeError" "'list' object has no attribute 'get'"),
     Sample.boot) /\
  (let w' := snd (server.gateway_ws Scenario.E0 7 ["[]"; Scenario.connect_frame]
                    Sample.boot) in
   sent_on 7 (trace w') = [protocol.make_challenge]) /\
  (let w' := snd (server.gateway_ws Scenario.E0 7 ["{bad"; Scenario.connect_frame]
                    Sample.boot) in
   map (fun f => field f "type") (sent_on 7 (trace w'))
   = [JStr "event"; JStr "res"]).
Proof. repeat split; vm_compute; reflexivity. Qed.

(** What does hold of the decoder and the loop: a text that is not JSON
    (or is the JSON [null]) is passed over, the world is unchanged and
    the loop goes on with the next text. *)
Lemma undecodable_text_ignored (E : env) ws cid authenticated text rest w :
  (exists msg, json_loads E text = Raise (Exception "JSONDecodeError" msg)) \/
  json_loads E text = Ok JNull ->
  protocol.parse_frame (json_loads E) text = Ok None /\
  server.read_loop E ws cid authenticated (text :: rest) w
  = server.read_loop E ws cid authenticated rest w.
Proof.
  intros Hdec.
  assert (Hnone : protocol.parse_frame (json_loads E) text = Ok None)
    by (unfold protocol.parse_frame; destruct Hdec as [[msg ->] | ->];
        reflexivity).
  split; [exact Hnone|]. simpl.
  now erewrite bind_ok by (apply handle_text_malformed; exact Hnone).
Qed.

(** An exception of the decoder that [parse_frame] does not catch (a
    RecursionError on deeply nested text) leaves the read loop as well. *)
Lemma decoder_fault_raises (E : env) ws cid authenticated text rest cls msg w :
  json_loads E text = Raise (Exception cls msg) ->
  cls <> "JSONDecodeError" -> cls <> "TypeError" ->
  server.read_loop E ws cid authenticated (text :: rest) w
  = (Raise (Exception cls msg), w).
Proof.
  intros Hdec Hjson Htype. simpl server.read_loop.
  unfold server.handle_text, protocol.parse_frame. rewrite Hdec.
  apply String.eqb_neq in Hjson, Htype. now rewrite Hjson, Htype.
Qed.

(** Any other decoded value that is not an object ends the loop. *)
Lemma non_object_text_raises (E : env) ws cid authenticated text rest v w :
  json_loads E text = Ok v -> v <> JNull -> (forall d, v <> JDict d) ->
  protocol.parse_frame (json_loads E) text = Ok (Some v) /\
  server.read_loop E ws cid authenticated (text :: rest) w
  = (Raise (Exception "AttributeError"
              ("'" ++ Py.type_name v ++ "' object has no attribute 'get'")%string),
     w).
Proof.
  intros Hdec Hnull Hobj. split.
  - unfold protocol.parse_frame. rewrite Hdec. now destruct v.
  - simpl server.read_loop.
    erewrite bind_raise by (apply handle_text_not_object; eassumption).
    reflexivity.
Qed.

(** ** The effects of an accepted chat request *)





(** ** The sources of the rows of the log *)

Section steps_rules.
Context (R : world -> world -> Prop) (Hrefl : forall w, R w w)
        (Htrans : forall w1 w2 w3, R w1 w2 -> R w2 w3 -> R w1 w3).

Lemma steps_ret {A} (a : A) : steps R (ret a).
Proof. intros w. apply Hrefl. Qed.

Lemma steps_raise {A} (e : exn) : steps R (@raise A e).
Proof. intros w. apply Hrefl. Qed.

Lemma steps_lift {A} (o : outcome A) : steps R (lift o).
Proof. intros w. apply Hrefl. Qed.

Lemma steps_get : steps R get.
Proof. intros w. apply Hrefl. Qed.

Lemma steps_bind {A B} (m : M A) (k : A -> M B) :
  steps R m -> (forall a, steps R (k a)) -> steps R (bind m k).
Proof.
  intros Hm Hk w. unfold bind. specialize (Hm w).
  destruct (m w) as [[a|e] w1]; simpl in *; [|exact Hm].
  eapply Htrans; [exact Hm | apply Hk].
Qed.

Lemma steps_try_except {A} (m : M A) (h : exn -> M A) :
  steps R m -> (forall e, steps R (h e)) -> steps R (try_except m h).
Proof.
  intros Hm Hh w. unfold try_except. specialize (Hm w).
  destruct (m w) as [[a|e] w1]; simpl in *; [exact Hm|].
  eapply Htrans; [exact Hm | apply Hh].
Qed.

Lemma steps_try_finally {A} (m : M A) (fin : M unit) :
  steps R m -> steps R fin -> steps R (try_finally m fin).
Proof.
  intros Hm Hfin w. unfold try_finally. specialize (Hm w).
  destruct (m w) as [r w1]. specialize (Hfin w1).
  destruct (fin w1) as [[u|e] w2]; simpl in *; eapply Htrans; eassumption.
Qed.

End steps_rules.




Section sources.
Context (E : env).




End sources.


Section log_sources.
Context (E : env).






End log_sources.




(** ** The heartbeat prunes the sessions it cannot reach *)

Section heartbeat.
Context (E : env).

Lemma delivers_accepts w ws : delivers E w ws = true <-> accepts E ws w.
Proof.
  unfold delivers, accepts. rewrite andb_true_iff, negb_true_iff.
  rewrite bool_decide_eq_false.
  destruct (send_error E ws); split; intros [H1 H2]; split;
    congruence || assumption.
Qed.

Lemma tick_one_run client_id ws w :
  server.tick_one E protocol.make_tick (client_id, ws) w
  = (Ok tt, if delivers E w ws then emit [ESend ws protocol.make_tick] w
            else dropped client_id w).
Proof.
  unfold server.tick_one, try_except.
  destruct (delivers E w ws) eqn:Hd.
  - now rewrite send_text_ok by now apply delivers_accepts.
  - destruct (send_text_raise E ws protocol.make_tick w) as [e ->];
      [|reflexivity].
    rewrite <- delivers_accepts. congruence.
Qed.

Lemma for_each_tick l : forall w,
  server.for_each (server.tick_one E protocol.make_tick) l w
  = (Ok tt, ticked E l w).
Proof.
  induction l as [|[client_id ws] l IH]; intros w; [reflexivity|].
  simpl. erewrite bind_ok by apply tick_one_run. apply IH.
Qed.

Lemma ticked_conversations l : forall w,
  _conversations (ticked E l w) = _conversations w.
Proof.
  induction l as [|[client_id ws] l IH]; intros w; [reflexivity|].
  simpl. rewrite IH. now destruct (delivers E w ws).
Qed.

Lemma delivers_closed w w' ws :
  closed w' = closed w -> delivers E w' ws = delivers E w ws.
Proof. intros H. unfold delivers. now rewrite H. Qed.

Lemma ticked_trace l : forall w,
  trace (ticked E l w)
  = trace w ++ map (fun kv => ESend kv.2 protocol.make_tick)
                 (filter (fun kv => delivers E w kv.2 = true) l).
Proof.
  induction l as [|[client_id ws] l IH]; intros w.
  - simpl. now rewrite app_nil_r.
  - simpl. rewrite IH. destruct (delivers E w ws) eqn:Hd.
    + rewrite filter_cons_True by exact Hd. rewrite trace_emit, <- app_assoc.
      reflexivity.
    + rewrite filter_cons_False by (simpl; congruence).
      reflexivity.
Qed.

Lemma ticked_clients_subset l : forall w k,
  _clients w !! k = None -> _clients (ticked E l w) !! k = None.
Proof.
  induction l as [|[client_id ws] l IH]; intros w k Hnone; [exact Hnone|].
  simpl. apply IH. destruct (delivers E w ws); [exact Hnone|].
  cbn [_clients dropped]. rewrite lookup_delete. now case_decide.
Qed.

(** A session one of whose sends fails is gone after the pass. *)
Lemma ticked_clients_down l : forall w k ws,
  (k, ws) ∈ l -> delivers E w ws = false ->
  _clients (ticked E l w) !! k = None.
Proof.
  induction l as [|[client_id ws0] l IH]; intros w k ws Hin Hdown.
  - inversion Hin.
  - simpl. apply elem_of_cons in Hin as [[= <- <-]|Hin].
    + rewrite Hdown. apply ticked_clients_subset.
      cbn [_clients dropped]. apply lookup_delete_eq.
    + apply (IH _ k ws Hin). rewrite <- Hdown.
      now destruct (delivers E w ws0).
Qed.

(** A session all of whose sends go through is still there. *)
Lemma ticked_clients_up l : forall w k,
  (forall ws, (k, ws) ∈ l -> delivers E w ws = true) ->
  _clients (ticked E l w) !! k = _clients w !! k.
Proof.
  induction l as [|[client_id ws0] l IH]; intros w k Hup; [reflexivity|].
  simpl. rewrite IH.
  - destruct (delivers E w ws0) eqn:Hd; [reflexivity|].
    cbn [_clients dropped]. apply lookup_delete_ne. intros <-.
    specialize (Hup ws0 ltac:(left)). congruence.
  - intros ws Hin. rewrite <- (Hup ws ltac:(now right)).
    now destruct (delivers E w ws0).
Qed.

End heartbeat.

(** C8. One pass of the heartbeat returns; every registered session whose
    transport takes the tick receives it and stays registered, every
    session whose send fails is removed from [_clients], and nothing else
    changes in the registry (the transcripts stay). *)
Theorem heartbeat_prunes_failed_sends (E : env) (w : world) :
  exists w',
    server.heartbeat_tick E w = (Ok tt, w') /\
    _clients w' = filter (fun kv => delivers E w kv.2 = true) (_clients w) /\
    trace w' = trace w
               ++ map (fun kv => ESend kv.2 protocol.make_tick)
                    (filter (fun kv => delivers E w kv.2 = true)
                       (map_to_list (_clients w))) /\
    _conversations w' = _conversations w /\
    forall client_id ws, _clients w !! client_id = Some ws ->
      if delivers E w ws
      then _clients w' !! client_id = Some ws /\
           ESend ws protocol.make_tick ∈ trace w'
      else _clients w' !! client_id = None.
Proof.
  exists (ticked E (map_to_list (_clients w)) w).
  assert (Hup : forall k ws, _clients w !! k = Some ws ->
                 delivers E w ws = true ->
                 _clients (ticked E (map_to_list (_clients w)) w) !! k = Some ws).
  { intros k ws Hk Hd. rewrite ticked_clients_up; [exact Hk|].
    intros ws' Hin. apply elem_of_map_to_list in Hin. congruence. }
  assert (Hdown : forall k ws, _clients w !! k = Some ws ->
                   delivers E w ws = false ->
                   _clients (ticked E (map_to_list (_clients w)) w) !! k = None).
  { intros k ws Hk Hd. apply (ticked_clients_down E _ w k ws); [|exact Hd].
    now apply elem_of_map_to_list. }
  split; [|split; [|split; [|split]]].
  - unfold server.heartbeat_tick. erewrite bind_ok by reflexivity.
    apply for_each_tick.
  - apply map_eq. intros k.
    destruct (_clients w !! k) as [ws|] eqn:Hk.
    + destruct (delivers E w ws) eqn:Hd.
      * rewrite (Hup k ws Hk Hd). symmetry.
        now apply map_lookup_filter_Some_2.
      * rewrite (Hdown k ws Hk Hd). symmetry.
        apply map_lookup_filter_None_2. right. intros ws' Hk'. simpl.
        congruence.
    + rewrite ticked_clients_subset by exact Hk. symmetry.
      apply map_lookup_filter_None_2. now left.
  - apply ticked_trace.
  - apply ticked_conversations.
  - intros k ws Hk. destruct (delivers E w ws) eqn:Hd.
    + split; [now apply Hup|]. rewrite ticked_trace.
      apply elem_of_app. right.
      apply (list_elem_of_fmap_2 (fun kv => ESend kv.2 protocol.make_tick)
               _ (k, ws)).
      apply list_elem_of_filter. split; [exact Hd|].
      now apply elem_of_map_to_list.
    + now apply (Hdown k ws).
Qed.

(** Three registered sessions, one send fails: after one pass exactly the
    two others remain, and each of them got the tick. *)
Example heartbeat_three_sessions :
  exists w',
    server.heartbeat_tick Scenario.E_bob_down Scenario.three_clients = (Ok tt, w') /\
    _clients w' = {[ "ann" := 1%nat; "cat" := 3%nat ]} /\
    size (_clients w') = 2%nat /\
    sent_on 1 (trace w') = [protocol.make_tick] /\
    sent_on 2 (trace w') = [] /\
    sent_on 3 (trace w') = [protocol.make_tick].
Proof.
  eexists. split; [vm_compute; reflexivity|].
  repeat split; vm_compute; reflexivity.
Qed.

(** * Further properties of the handler, the chat turn and the log *)

(** ** Rules for [steps], for any reflexive and transitive relation *)

Lemma steps_weaken {A} (R R' : world -> world -> Prop) (m : M A) :
  (forall w w', R w w' -> R' w w') -> steps R m -> steps R' m.
Proof. intros Hsub Hm w. apply Hsub, Hm. Qed.

(** The continuation of a lifted outcome only runs on its value. *)
Lemma steps_bind_lift {A B} (R : world -> world -> Prop)
    (Hrefl : forall w, R w w) (o : outcome A) (k : A -> M B) :
  (forall a, o = Ok a -> steps R (k a)) -> steps R (bind (lift o) k).
Proof.
  intros Hk w. unfold bind, lift. destruct o as [a|e]; [|apply Hrefl].
  now apply Hk.
Qed.

Ltac steps_by refl trans prim :=
  repeat first
    [ prim
    | apply (steps_bind_lift _ refl); intros ? ?
    | apply (steps_bind _ trans); [|intros ?]
    | apply (steps_try_except _ trans); [|intros ?]
    | apply (steps_try_finally _ trans)
    | apply (steps_ret _ refl)
    | apply (steps_raise _ refl)
    | apply (steps_lift _ refl)
    | apply (steps_get _ refl)
    | match goal with
      | |- steps _ (if ?b then _ else _) => destruct b eqn:?
      | |- steps _ (match ?x with _ => _ end) => destruct x eqn:?
      | |- steps _ (let '(_, _) := ?x in _) => destruct x eqn:?
      end ].

(** ** A chat turn never raises and keeps to its own transcript *)

Lemma own_transcript_refl cid w : own_transcript cid w w.
Proof. now unfold own_transcript. Qed.

Lemma own_transcript_trans cid w1 w2 w3 :
  own_transcript cid w1 w2 -> own_transcript cid w2 w3 -> own_transcript cid w1 w3.
Proof.
  intros (Hc1 & Hx1 & Hk1) (Hc2 & Hx2 & Hk2). unfold own_transcript.
  rewrite Hc2, Hc1, Hx2, Hx1. repeat split. intros k Hk.
  now rewrite Hk2, Hk1.
Qed.

(** A step that leaves the registry and the transcripts alone. *)
Lemma own_transcript_same cid w w' :
  _clients w' = _clients w -> closed w' = closed w ->
  _conversations w' = _conversations w -> own_transcript cid w w'.
Proof. intros H1 H2 H3. unfold own_transcript. now rewrite H1, H2, H3. Qed.

Section chat_isolation.
Context (E : env).

Lemma send_text_own cid ws frame :
  steps (own_transcript cid) (server.send_text E ws frame).
Proof.
  intros w. unfold server.send_text, bind, get.
  destruct (bool_decide (ws ∈ closed w)); [apply own_transcript_refl|].
  destruct (send_error E ws); [apply own_transcript_refl|].
  now apply own_transcript_same.
Qed.

Lemma store_text_own cid src text_content :
  steps (own_transcript cid) (server.store_text E src text_content).
Proof.
  intros w.
  destruct (storage.bind_parameter text_content) as [[]|e] eqn:Hbind;
  [destruct (storage.id_taken (messages w) (uuid4 E (uuid_calls w))) eqn:Hid|].
  - destruct (store_text_raise E src text_content w) as [e ->];
      [intros [_ H]; congruence | now apply own_transcript_same].
  - rewrite store_text_ok by now split. now apply own_transcript_same.
  - destruct (store_text_raise E src text_content w) as [e' ->];
      [intros [H _]; congruence | now apply own_transcript_same].
Qed.

Lemma write_own cid history :
  steps (own_transcript cid)
    (set_conversations (fun c => <[cid := history]> c)).
Proof.
  intros w. unfold own_transcript. simpl. repeat split.
  intros k Hk. now apply lookup_insert_ne.
Qed.

Ltac own_prim cid :=
  first [ apply send_text_own | apply store_text_own | apply write_own
        | solve [intros ?; now apply own_transcript_same] ].

Lemma stream_deltas_own cid ws run_id tokens : forall full,
  steps (own_transcript cid) (server.stream_deltas E ws run_id full tokens).
Proof.
  induction tokens as [|token rest IH]; intros full; simpl.
  - apply (steps_ret _ (own_transcript_refl cid)).
  - steps_by (own_transcript_refl cid) (own_transcript_trans cid)
      ltac:(first [apply IH | own_prim cid]).
Qed.

Lemma handle_chat_own ws cid run_id text :
  steps (own_transcript cid) (server._handle_chat E ws cid run_id text).
Proof.
  unfold server._handle_chat, server.chat_body, server.history_append,
    server.history_trim, server.speak, log.
  steps_by (own_transcript_refl cid) (own_transcript_trans cid)
    ltac:(first [apply stream_deltas_own | own_prim cid]).
Qed.

End chat_isolation.

(** X1. Whatever the transport, the model, the storage and the speech
    back end do, a chat turn returns without raising; it leaves the
    registry of transports as it was and touches no transcript but the
    one of its own session. *)
Theorem chat_turn_contained (E : env) (ws : nat) (cid run_id : string)
    (text : json) (w : world) :
  exists w',
    server._handle_chat E ws cid run_id text w = (Ok tt, w') /\
    _clients w' = _clients w /\ closed w' = closed w /\
    forall k, k <> cid -> _conversations w' !! k = _conversations w !! k.
Proof.
  pose proof (handle_chat_own E ws cid run_id text w) as Hown.
  unfold server._handle_chat, try_except in *.
  destruct (server.chat_body E ws cid run_id text w) as [[[]|e] w1].
  - exists w1. split; [reflexivity | exact Hown].
  - destruct e as [|cls msg].
    + exists w1. split; [reflexivity | exact Hown].
    + destruct (server.send_text E ws _ w1) as [[[]|e'] w2];
        exists w2; (split; [reflexivity | exact Hown]).
Qed.

(** ** A connection handler keeps to its own session and cleans it up *)

Lemma own_session_refl cid w : own_session cid w w.
Proof. now unfold own_session. Qed.

Lemma own_session_trans cid w1 w2 w3 :
  own_session cid w1 w2 -> own_session cid w2 w3 -> own_session cid w1 w3.
Proof.
  intros H1 H2 k Hk. destruct (H1 k Hk) as [Ha Hb], (H2 k Hk) as [Hc Hd].
  now rewrite Hc, Ha, Hd, Hb.
Qed.

Lemma own_session_same cid w w' :
  _clients w' = _clients w -> _conversations w' = _conversations w ->
  own_session cid w w'.
Proof. intros H1 H2 k _. now rewrite H1, H2. Qed.

Section handler_isolation.
Context (E : env).

Lemma send_text_session cid ws frame :
  steps (own_session cid) (server.send_text E ws frame).
Proof.
  intros w. unfold server.send_text, bind, get.
  destruct (bool_decide (ws ∈ closed w)); [apply own_session_refl|].
  destruct (send_error E ws); [apply own_session_refl|].
  now apply own_session_same.
Qed.

Lemma close_session cid ws code reason :
  steps (own_session cid) (server.close E ws code reason).
Proof.
  intros w. unfold server.close, bind, get.
  destruct (bool_decide (ws ∈ closed w)); [apply own_session_refl|].
  destruct (send_error E ws); [apply own_session_refl|].
  now apply own_session_same.
Qed.

Lemma store_text_session cid src text_content :
  steps (own_session cid) (server.store_text E src text_content).
Proof.
  apply (steps_weaken (own_transcript cid)); [|apply store_text_own].
  intros w w' (Hc & _ & Hk) k Hne. rewrite Hc. split; [reflexivity | now apply Hk].
Qed.

Lemma registry_insert_session cid ws :
  steps (own_session cid) (set_clients (fun c => <[cid := ws]> c)).
Proof. intros w k Hk. simpl. split; [now apply lookup_insert_ne | reflexivity]. Qed.

Lemma registry_delete_session cid :
  steps (own_session cid) (set_clients (fun c => delete cid c)).
Proof. intros w k Hk. simpl. split; [now apply lookup_delete_ne | reflexivity]. Qed.

Lemma transcript_default_session cid :
  steps (own_session cid)
    (set_conversations (fun c => match c !! cid with
                                 | Some _ => c
                                 | None => <[cid := []]> c
                                 end)).
Proof.
  intros w k Hk. simpl. split; [reflexivity|].
  destruct (_conversations w !! cid); [reflexivity | now apply lookup_insert_ne].
Qed.

Lemma transcript_delete_session cid :
  steps (own_session cid) (set_conversations (fun c => delete cid c)).
Proof. intros w k Hk. simpl. split; [reflexivity | now apply lookup_delete_ne]. Qed.

Ltac session_prim cid :=
  first [ apply send_text_session | apply close_session | apply store_text_session
        | apply registry_insert_session | apply registry_delete_session
        | apply transcript_default_session | apply transcript_delete_session
        | solve [intros ?; now apply own_session_same] ].

Lemma handle_text_session ws cid authenticated text :
  steps (own_session cid) (server.handle_text E ws cid authenticated text).
Proof.
  unfold server.handle_text, server.on_connect, server.on_chat_send,
    server.on_approval_respond, server.on_unknown, server.create_task,
    server.uuid4_str, log.
  steps_by (own_session_refl cid) (own_session_trans cid) ltac:(session_prim cid).
Qed.

Lemma read_loop_session ws cid inbox : forall authenticated,
  steps (own_session cid) (server.read_loop E ws cid authenticated inbox).
Proof.
  induction inbox as [|text inbox IH]; intros authenticated; simpl.
  - apply (steps_raise _ (own_session_refl cid)).
  - apply (steps_bind _ (own_session_trans cid)); [apply handle_text_session|].
    intros [a|]; [apply IH | apply (steps_ret _ (own_session_refl cid))].
Qed.

Lemma cleanup_session cid : steps (own_session cid) (server.cleanup cid).
Proof.
  unfold server.cleanup.
  steps_by (own_session_refl cid) (own_session_trans cid) ltac:(session_prim cid).
Qed.

(** The [try] of [gateway_ws] with its [except] and [finally] clauses
    always returns, and the session is gone from both dictionaries. *)
Lemma guarded_loop_cleans ws cid inbox w :
  exists w',
    try_finally
      (try_except (server.read_loop E ws cid false inbox) (fun _ => ret tt))
      (server.cleanup cid) w = (Ok tt, w') /\
    _clients w' !! cid = None /\ _conversations w' !! cid = None.
Proof.
  unfold try_finally, try_except.
  destruct (server.read_loop E ws cid false inbox w) as [[[]|e] w1]; simpl;
    (eexists; split; [reflexivity|]; simpl; split; apply lookup_delete_eq).
Qed.

End handler_isolation.

(** Whether the challenge is delivered or not, a connection handler
    leaves the entries of the other sessions as they were. *)
Lemma gateway_ws_session (E : env) ws inbox w k :
  k <> Py.prefix 8 (uuid4 E (uuid_calls w)) ->
  _clients (snd (server.gateway_ws E ws inbox w)) !! k = _clients w !! k /\
  _conversations (snd (server.gateway_ws E ws inbox w)) !! k
  = _conversations w !! k.
Proof.
  set (cid := Py.prefix 8 (uuid4 E (uuid_calls w))).
  intros Hk. unfold server.gateway_ws.
  erewrite bind_ok by reflexivity.
  assert (Hsteps : steps (own_session cid)
            (server.send_text E ws protocol.make_challenge ;;;
             try_finally
               (try_except (server.read_loop E ws cid false inbox)
                  (fun _ => ret tt))
               (server.cleanup cid))%coro).
  { apply (steps_bind _ (own_session_trans cid));
      [apply send_text_session | intros _].
    apply (steps_try_finally _ (own_session_trans cid));
      [|apply cleanup_session].
    apply (steps_try_except _ (own_session_trans cid));
      [apply read_loop_session | intros _].
    apply (steps_ret _ (own_session_refl cid)). }
  exact (Hsteps _ k Hk).
Qed.

(** X2. A connection handler whose challenge is delivered always returns,
    whatever the client sends and however the loop ends; its session is
    then in neither [_clients] nor [_conversations], and the entries of
    the other sessions are as they were. *)
Theorem handler_cleans_own_session (E : env) (ws : nat) (inbox : list string)
    (w : world) (Hup : accepts E ws w) :
  let cid := Py.prefix 8 (uuid4 E (uuid_calls w)) in
  exists w',
    server.gateway_ws E ws inbox w = (Ok tt, w') /\
    _clients w' !! cid = None /\ _conversations w' !! cid = None /\
    forall k, k <> cid ->
      _clients w' !! k = _clients w !! k /\
      _conversations w' !! k = _conversations w !! k.
Proof.
  intros cid.
  assert (Hrun : exists w',
            server.gateway_ws E ws inbox w = (Ok tt, w') /\
            _clients w' !! cid = None /\ _conversations w' !! cid = None).
  { unfold server.gateway_ws.
    erewrite bind_ok by reflexivity.
    erewrite bind_ok by (apply send_text_ok; exact Hup).
    apply guarded_loop_cleans. }
  destruct Hrun as (w' & Hrun & Hc & Ht).
  exists w'. repeat split; try assumption;
    destruct (gateway_ws_session E ws inbox w k) as [Ha Hb]; try assumption;
    rewrite Hrun in Ha, Hb; assumption.
Qed.

Lemma handler_cleans_own_session_witness :
  let cid := Py.prefix 8 (uuid4 Scenario.E0 (uuid_calls Scenario.three_clients)) in
  exists w',
    server.gateway_ws Scenario.E0 7
      [Scenario.connect_frame; Scenario.chat_frame] Scenario.three_clients
    = (Ok tt, w') /\
    _clients w' !! cid = None /\ _conversations w' !! cid = None /\
    forall k, k <> cid ->
      _clients w' !! k = _clients Scenario.three_clients !! k /\
      _conversations w' !! k = _conversations Scenario.three_clients !! k.
Proof.
  apply (handler_cleans_own_session Scenario.E0 7
           [Scenario.connect_frame; Scenario.chat_frame] Scenario.three_clients).
  split; [vm_compute; intros H; inversion H | reflexivity].
Defined.

(** ** What a session can do before it has authenticated *)

Lemma spawned_app (tr1 tr2 : list effect) :
  spawned (tr1 ++ tr2) = spawned tr1 ++ spawned tr2.
Proof.
  induction tr1 as [|e tr1 IH]; simpl; [reflexivity|].
  destruct e; simpl; now rewrite ?IH.
Qed.

Lemma quiet_refl w : quiet w w.
Proof. now unfold quiet. Qed.

Lemma quiet_trans w1 w2 w3 : quiet w1 w2 -> quiet w2 w3 -> quiet w1 w3.
Proof. intros [H1 H2] [H3 H4]. unfold quiet. now rewrite H3, H1, H4, H2. Qed.

Lemma locked_refl w : locked w w.
Proof. unfold locked. auto using quiet_refl. Qed.

Lemma locked_trans w1 w2 w3 : locked w1 w2 -> locked w2 w3 -> locked w1 w3.
Proof.
  intros (H1 & H2 & H3) (H4 & H5 & H6). unfold locked.
  rewrite H4, H1, H5, H2. eauto using quiet_trans.
Qed.

(** A step that only sends or closes, or draws an identifier. *)
Lemma locked_same w w' tail :
  _clients w' = _clients w -> _conversations w' = _conversations w ->
  messages w' = messages w -> trace w' = trace w ++ tail -> spawned tail = [] ->
  locked w w'.
Proof.
  intros H1 H2 H3 H4 H5. unfold locked, quiet.
  rewrite H1, H2, H3, H4, spawned_app, H5, app_nil_r. auto.
Qed.

Lemma locked_quiet w w' : locked w w' -> quiet w w'.
Proof. now intros (_ & _ & H). Qed.

Section before_authentication.
Context (E : env).

Lemma send_text_locked ws frame : steps locked (server.send_text E ws frame).
Proof.
  intros w. unfold server.send_text, bind, get.
  destruct (bool_decide (ws ∈ closed w)); [apply locked_refl|].
  destruct (send_error E ws); [apply locked_refl|].
  now apply (locked_same _ _ [ESend ws frame]).
Qed.

Lemma close_locked ws code reason : steps locked (server.close E ws code reason).
Proof.
  intros w. unfold server.close, bind, get.
  destruct (bool_decide (ws ∈ closed w)); [apply locked_refl|].
  destruct (send_error E ws); [apply locked_refl|].
  now apply (locked_same _ _ [EClose ws code reason]).
Qed.

Lemma uuid4_locked : steps locked (server.uuid4_str E).
Proof.
  intros w. apply (locked_same _ _ []); try reflexivity.
  simpl. now rewrite app_nil_r.
Qed.

Lemma send_text_quiet ws frame : steps quiet (server.send_text E ws frame).
Proof. apply (steps_weaken locked); [exact locked_quiet | apply send_text_locked]. Qed.

Lemma close_quiet ws code reason : steps quiet (server.close E ws code reason).
Proof. apply (steps_weaken locked); [exact locked_quiet | apply close_locked]. Qed.

Lemma uuid4_quiet : steps quiet (server.uuid4_str E).
Proof. apply (steps_weaken locked); [exact locked_quiet | apply uuid4_locked]. Qed.

(** Registering a session writes no row and creates no task. *)
Lemma register_quiet (f : gmap string nat -> gmap string nat) :
  steps quiet (set_clients f).
Proof. now intros w. Qed.

Lemma transcripts_quiet (f : gmap string (list turn) -> gmap string (list turn)) :
  steps quiet (set_conversations f).
Proof. now intros w. Qed.

Lemma handle_text_quiet ws cid text :
  steps quiet (server.handle_text E ws cid false text).
Proof.
  unfold server.handle_text, server.on_connect, server.on_chat_send,
    server.on_approval_respond, server.on_unknown.
  cbn [negb].
  steps_by quiet_refl quiet_trans
    ltac:(first [ apply send_text_quiet | apply close_quiet | apply uuid4_quiet
                | apply register_quiet | apply transcripts_quiet ]).
Qed.

End before_authentication.

(** X3. A pass of the read loop of a session that has not authenticated
    writes nothing to the log and creates no chat task, whatever the text
    it is given and whether it returns or raises. *)
Theorem unauthenticated_pass_is_quiet (E : env) (ws : nat) (cid text : string)
    (w : world) :
  messages (snd (server.handle_text E ws cid false text w)) = messages w /\
  spawned (trace (snd (server.handle_text E ws cid false text w)))
  = spawned (trace w).
Proof. apply handle_text_quiet. Qed.

(** ** Rules for [yields] *)

Lemma yields_ret {A} (P : A -> Prop) (a : A) : P a -> yields P (ret a).
Proof. intros HP w a' w' [= <- _]. exact HP. Qed.

Lemma yields_raise {A} (P : A -> Prop) (e : exn) : yields P (raise e).
Proof. intros w a w' H. discriminate H. Qed.

Lemma yields_bind {A B} (P : B -> Prop) (m : M A) (k : A -> M B) :
  (forall a, yields P (k a)) -> yields P (bind m k).
Proof.
  intros Hk w b w' H. unfold bind in H.
  destruct (m w) as [[a|e] w1]; [|discriminate H]. exact (Hk a w1 b w' H).
Qed.

Lemma yields_bind_lift {A B} (P : B -> Prop) (o : outcome A) (k : A -> M B) :
  (forall a, o = Ok a -> yields P (k a)) -> yields P (bind (lift o) k).
Proof.
  intros Hk w b w' H. unfold bind, lift in H.
  destruct o as [a|e]; [|discriminate H]. exact (Hk a eq_refl w b w' H).
Qed.

Ltac yields_by leaf :=
  repeat first
    [ apply yields_bind_lift; intros ? ?
    | apply yields_bind; intros ?
    | apply yields_raise
    | apply yields_ret; leaf
    | match goal with
      | |- yields _ (if ?b then _ else _) => destruct b eqn:?
      | |- yields _ (match ?x with _ => _ end) => destruct x eqn:?
      end ].

(** X4. The flag [authenticated] never reverts: a pass of the read loop
    that starts authenticated and goes on to the next frame is still
    authenticated. *)
Theorem authenticated_never_reverts (E : env) (ws : nat) (cid text : string)
    (w w' : world) (authenticated : bool)
    (Hpass : server.handle_text E ws cid true text w
             = (Ok (server.Continue authenticated), w')) :
  authenticated = true.
Proof.
  assert (Hy : yields (fun ctl => ctl <> server.Continue false)
                 (server.handle_text E ws cid true text)).
  { unfold server.handle_text, server.on_connect, server.on_chat_send,
      server.on_approval_respond, server.on_unknown.
    cbn [negb]. yields_by discriminate. }
  specialize (Hy w _ w' Hpass). destruct authenticated; congruence.
Qed.

Lemma authenticated_never_reverts_witness :
  exists w',
    server.handle_text Scenario.E0 7 "abc" true Scenario.chat_frame Scenario.joined
    = (Ok (server.Continue true), w') /\ true = true.
Proof.
  eexists. split; [vm_compute; reflexivity|].
  eapply (authenticated_never_reverts Scenario.E0 7 "abc" Scenario.chat_frame
            Scenario.joined _ true).
  vm_compute. reflexivity.
Defined.

(** ** Without a secret nobody gets in *)

Section fail_closed.
Context (E : env) (Hsecret : auth_token E = "").

Lemma handle_text_locked ws cid text :
  steps locked (server.handle_text E ws cid false text).
Proof.
  unfold server.handle_text, server.on_connect, server.on_chat_send,
    server.on_approval_respond, server.on_unknown.
  cbn [negb]. rewrite Hsecret.
  steps_by locked_refl locked_trans
    ltac:(first [ apply send_text_locked | apply close_locked
                | match goal with
                  | H : verify_token "" _ = Ok true |- _ =>
                      rewrite verify_token_no_secret in H; discriminate H
                  end ]).
Qed.

Lemma handle_text_stays_out ws cid text :
  yields (fun ctl => ctl <> server.Continue true)
    (server.handle_text E ws cid false text).
Proof.
  unfold server.handle_text, server.on_connect, server.on_chat_send,
    server.on_approval_respond, server.on_unknown.
  cbn [negb]. rewrite Hsecret.
  yields_by ltac:(first [ discriminate
                        | match goal with
                          | H : verify_token "" _ = Ok true |- _ =>
                              rewrite verify_token_no_secret in H; discriminate H
                          end ]).
Qed.

Lemma read_loop_locked ws cid inbox : forall w,
  locked w (snd (server.read_loop E ws cid false inbox w)).
Proof.
  induction inbox as [|text inbox IH]; intros w; simpl; [apply locked_refl|].
  pose proof (handle_text_locked ws cid text w) as Hlocked.
  pose proof (handle_text_stays_out ws cid text w) as Hout.
  unfold bind.
  destruct (server.handle_text E ws cid false text w) as [[[a|]|e] w1];
    simpl in *; try exact Hlocked.
  destruct a; [now destruct (Hout _ _ eq_refl)|].
  eapply locked_trans; [exact Hlocked | apply IH].
Qed.

End fail_closed.

(** X5. Fail closed, end to end: when no secret is configured, whatever a
    client sends, the read loop registers no session, creates or changes
    no transcript, writes nothing to the log and creates no chat task. *)
Theorem no_secret_no_session (E : env) (ws : nat) (cid : string)
    (inbox : list string) (w : world) (Hsecret : auth_token E = "") :
  let w' := snd (server.read_loop E ws cid false inbox w) in
  _clients w' = _clients w /\ _conversations w' = _conversations w /\
  messages w' = messages w /\ spawned (trace w') = spawned (trace w).
Proof. intros w'. now apply read_loop_locked. Qed.

Lemma no_secret_no_session_witness :
  let w' := snd (server.read_loop Scenario.E_open 7 "abc" false
                   [Scenario.chat_frame; Scenario.connect_frame;
                    Scenario.chat_frame] Sample.boot) in
  _clients w' = _clients Sample.boot /\
  _conversations w' = _conversations Sample.boot /\
  messages w' = messages Sample.boot /\
  spawned (trace w') = spawned (trace Sample.boot).
Proof.
  apply (no_secret_no_session Scenario.E_open 7 "abc"
           [Scenario.chat_frame; Scenario.connect_frame; Scenario.chat_frame]
           Sample.boot).
  reflexivity.
Defined.

(** ** How a session gets in *)

(** X6. A pass of the read loop turns an unauthenticated session into an
    authenticated one only on a [connect] request whose token the check
    accepts; the session is then registered on its transport and has a
    transcript. *)
Theorem authentication_requires_token (E : env) (ws : nat) (cid text : string)
    (w w' : world)
    (Hpass : server.handle_text E ws cid false text w
             = (Ok (server.Continue true), w')) :
  exists d params auth token,
    json_loads E text = Ok (JDict d) /\
    Py.eq_str (Py.dict_get d "type" (JStr "")) "req" = true /\
    Py.eq_str (Py.dict_get d "method" (JStr "")) "connect" = true /\
    Py.dict_get d "params" (JDict []) = params /\
    py_get params "auth" (JDict []) = Ok auth /\
    py_get auth "token" (JStr "") = Ok token /\
    verify_token (auth_token E) token = Ok true /\
    _clients w' !! cid = Some ws /\
    is_Some (_conversations w' !! cid).
Proof.
  unfold server.handle_text, protocol.parse_frame in Hpass.
  destruct (json_loads E text) as [v|e] eqn:Hdec.
  2:{ destruct e as [|cls msg]; [discriminate Hpass|].
      destruct (_ || _); discriminate Hpass. }
  destruct v as [| | | | | |d]; try discriminate Hpass.
  unfold lift at 1, bind at 1 in Hpass.
  unfold py_get at 1 2, lift at 1 2, bind at 1 2 in Hpass.
  destruct (Py.eq_str (Py.dict_get d "type" (JStr "")) "req") eqn:Htype;
    [|discriminate Hpass].
  unfold py_get at 1 2, lift at 1 2, bind at 1 2 in Hpass.
  destruct (Py.eq_str (Py.dict_get d "method" (JStr "")) "connect") eqn:Hmethod.
  - unfold server.on_connect in Hpass.
    unfold lift at 1, bind at 1 in Hpass.
    destruct (py_get (Py.dict_get d "params" (JDict [])) "auth" (JDict []))
      as [auth|e] eqn:Hauth; [|discriminate Hpass].
    unfold lift at 1, bind at 1 in Hpass.
    destruct (py_get auth "token" (JStr "")) as [token|e] eqn:Htoken;
      [|discriminate Hpass].
    unfold lift at 1, bind at 1 in Hpass.
    destruct (verify_token (auth_token E) token) as [[|]|e] eqn:Hvalid;
      try discriminate Hpass.
    + exists d, (Py.dict_get d "params" (JDict [])), auth, token.
      repeat (split; [assumption || reflexivity|]).
      erewrite bind_ok in Hpass by reflexivity.
      erewrite bind_ok in Hpass by reflexivity.
      erewrite bind_ok in Hpass by reflexivity.
      unfold bind in Hpass.
      destruct (server.send_text E ws _ _) as [[[]|e] w1] eqn:Hsend;
        [|discriminate Hpass].
      injection Hpass as <-.
      assert (Hkeep : _clients w1 = <[cid := ws]> (_clients w) /\
                      _conversations w1
                      = match _conversations w !! cid with
                        | Some _ => _conversations w
                        | None => <[cid := []]> (_conversations w)
                        end).
      { revert Hsend. unfold server.send_text, bind, get. simpl.
        destruct (bool_decide _); [discriminate|].
        destruct (send_error E ws); [discriminate|].
        intros [= <-]. now split. }
      destruct Hkeep as [-> ->]. split; [apply lookup_insert_eq|].
      destruct (_conversations w !! cid) eqn:Hc; [now rewrite Hc|].
      rewrite lookup_insert_eq. eauto.
    + exfalso. revert Hpass. unfold bind.
      destruct (server.send_text E ws _ _) as [[[]|e] w1]; [|discriminate].
      destruct (server.close E ws _ _ _) as [[[]|e] w2]; discriminate.
  - exfalso. revert Hpass.
    destruct (Py.eq_str (Py.dict_get d "method" (JStr "")) "chat.send").
    + unfold server.on_chat_send. cbn [negb]. unfold bind.
      destruct (server.send_text E ws _ _) as [[[]|e] w1]; discriminate.
    + destruct (Py.eq_str (Py.dict_get d "method" (JStr "")) "approval.respond").
      * unfold server.on_approval_respond. cbn [negb]. discriminate.
      * unfold server.on_unknown, bind.
        destruct (server.send_text E ws _ _) as [[[]|e] w1]; discriminate.
Qed.

Lemma authentication_requires_token_witness :
  exists d params auth token,
    json_loads Scenario.E0 Scenario.connect_frame = Ok (JDict d) /\
    Py.eq_str (Py.dict_get d "type" (JStr "")) "req" = true /\
    Py.eq_str (Py.dict_get d "method" (JStr "")) "connect" = true /\
    Py.dict_get d "params" (JDict []) = params /\
    py_get params "auth" (JDict []) = Ok auth /\
    py_get auth "token" (JStr "") = Ok token /\
    verify_token (auth_token Scenario.E0) token = Ok true /\
    _clients Scenario.joined !! "abc" = Some 7%nat /\
    is_Some (_conversations Scenario.joined !! "abc").
Proof.
  apply (authentication_requires_token Scenario.E0 7 "abc" Scenario.connect_frame
           Sample.boot Scenario.joined).
  vm_compute. reflexivity.
Defined.

(** X7. A [connect] with a token the check accepts is handled the same
    whether or not the session is already authenticated: the session is
    (re)registered on its transport and answered with hello-ok, a session
    that had no transcript gets an empty one, and a transcript that is
    there is kept as it is. *)
Theorem connect_keeps_transcript (E : env) (ws : nat) (cid text : string)
    (authenticated : bool) (d p a : pydict) (w : world)
    (Hup : accepts E ws w)
    (Hdec : json_loads E text = Ok (JDict d))
    (Htype : Py.eq_str (Py.dict_get d "type" (JStr "")) "req" = true)
    (Hmethod : Py.eq_str (Py.dict_get d "method" (JStr "")) "connect" = true)
    (Hparams : Py.dict_get d "params" (JDict []) = JDict p)
    (Hauth : Py.dict_get p "auth" (JDict []) = JDict a)
    (Hvalid : verify_token (auth_token E) (Py.dict_get a "token" (JStr ""))
              = Ok true) :
  exists w',
    server.handle_text E ws cid authenticated text w
    = (Ok (server.Continue true), w') /\
    _clients w' !! cid = Some ws /\
    _conversations w' !! cid = Some (default [] (_conversations w !! cid)) /\
    sent_on ws (drop (length (trace w)) (trace w'))
    = [protocol.make_hello_ok (Py.dict_get d "id" (JStr ""))
         (uuid4 E (uuid_calls w))].
Proof.
  rewrite (handle_text_request E ws cid authenticated text d w Hdec Htype).
  cbv zeta. unfold py_get at 1, lift at 1, bind at 1.
  rewrite Hparams, Hmethod.
  rewrite (on_connect_valid E ws cid _ p a w Hup Hauth Hvalid).
  eexists. split; [reflexivity|]. split; [|split].
  - simpl. apply lookup_insert_eq.
  - simpl. destruct (_conversations w !! cid) eqn:Hc; simpl.
    + exact Hc.
    + apply lookup_insert_eq.
  - rewrite trace_emit. cbn [trace uuid_drawn registered].
    rewrite drop_app_length. apply sent_on_send.
Qed.

Lemma connect_keeps_transcript_witness :
  exists w',
    server.handle_text Scenario.E0 7 "abc" true Scenario.connect_frame
      Scenario.forty
    = (Ok (server.Continue true), w') /\
    _clients w' !! "abc" = Some 7%nat /\
    _conversations w' !! "abc"
    = Some (default [] (_conversations Scenario.forty !! "abc")) /\
    sent_on 7 (drop (length (trace Scenario.forty)) (trace w'))
    = [protocol.make_hello_ok (Py.dict_get Scenario.connect_fields "id" (JStr ""))
         (uuid4 Scenario.E0 (uuid_calls Scenario.forty))].
Proof.
  apply (connect_keeps_transcript Scenario.E0 7 "abc" Scenario.connect_frame true
           Scenario.connect_fields
           [("auth", JDict [("token", JStr "s3cret")])]
           [("token", JStr "s3cret")] Scenario.forty).
  - split; [vm_compute; intros H; inversion H | reflexivity].
  - vm_compute. reflexivity.
  - reflexivity.
  - reflexivity.
  - reflexivity.
  - reflexivity.
  - reflexivity.
Defined.

(** ** Every frame the server sends has one of the shapes of the protocol *)

Lemma frames_app (tr1 tr2 : list effect) :
  frames (tr1 ++ tr2) = frames tr1 ++ frames tr2.
Proof.
  induction tr1 as [|e tr1 IH]; simpl; [reflexivity|].
  destruct e; simpl; now rewrite ?IH.
Qed.

Lemma speaks_refl w : speaks_protocol w w.
Proof. exists []. split; [now rewrite app_nil_r | constructor]. Qed.

Lemma speaks_trans w1 w2 w3 :
  speaks_protocol w1 w2 -> speaks_protocol w2 w3 -> speaks_protocol w1 w3.
Proof.
  intros (n1 & H1 & F1) (n2 & H2 & F2). exists (n1 ++ n2). split.
  - now rewrite H2, H1, app_assoc.
  - rewrite frames_app. now apply Forall_app.
Qed.

(** A step that sends nothing. *)
Lemma speaks_silent w w' tail :
  trace w' = trace w ++ tail -> frames tail = [] -> speaks_protocol w w'.
Proof. intros Ht Hf. exists tail. split; [exact Ht | rewrite Hf; constructor]. Qed.

Section protocol_shapes.
Context (E : env).

Lemma send_text_speaks ws frame :
  well_formed frame = true -> steps speaks_protocol (server.send_text E ws frame).
Proof.
  intros Hwf w. unfold server.send_text, bind, get.
  destruct (bool_decide (ws ∈ closed w)); [apply speaks_refl|].
  destruct (send_error E ws); [apply speaks_refl|].
  exists [ESend ws frame]. split; [reflexivity|]. now repeat constructor.
Qed.

Lemma close_speaks ws code reason :
  steps speaks_protocol (server.close E ws code reason).
Proof.
  intros w. unfold server.close, bind, get.
  destruct (bool_decide (ws ∈ closed w)); [apply speaks_refl|].
  destruct (send_error E ws); [apply speaks_refl|].
  now apply (speaks_silent _ _ [EClose ws code reason]).
Qed.

Lemma store_text_speaks src text_content :
  steps speaks_protocol (server.store_text E src text_content).
Proof.
  intros w.
  destruct (storage.bind_parameter text_content) as [[]|e] eqn:Hbind;
  [destruct (storage.id_taken (messages w) (uuid4 E (uuid_calls w))) eqn:Hid|].
  - destruct (store_text_raise E src text_content w) as [e ->];
      [intros [_ H]; congruence|].
    apply (speaks_silent _ _ []); [simpl; now rewrite app_nil_r | reflexivity].
  - rewrite store_text_ok by now split.
    now apply (speaks_silent _ _ [EStore (new_row E src text_content w)]).
  - destruct (store_text_raise E src text_content w) as [e' ->];
      [intros [H _]; congruence|].
    apply (speaks_silent _ _ []); [simpl; now rewrite app_nil_r | reflexivity].
Qed.

Ltac speaks_prim :=
  first [ apply send_text_speaks; reflexivity
        | apply close_speaks
        | apply store_text_speaks
        | solve [intros ?; apply (speaks_silent _ _ []);
                 [simpl; now rewrite app_nil_r | reflexivity]]
        | solve [intros ?; eapply speaks_silent; [reflexivity | reflexivity]] ].

Lemma stream_deltas_speaks ws run_id tokens : forall full,
  steps speaks_protocol (server.stream_deltas E ws run_id full tokens).
Proof.
  induction tokens as [|token rest IH]; intros full; simpl.
  - apply (steps_ret _ speaks_refl).
  - steps_by speaks_refl speaks_trans ltac:(first [apply IH | speaks_prim]).
Qed.

Lemma handle_chat_speaks ws cid run_id text :
  steps speaks_protocol (server._handle_chat E ws cid run_id text).
Proof.
  unfold server._handle_chat, server.chat_body, server.history_append,
    server.history_trim, server.speak, log, set_conversations.
  steps_by speaks_refl speaks_trans
    ltac:(first [apply stream_deltas_speaks | speaks_prim]).
Qed.

Lemma handle_text_speaks ws cid authenticated text :
  steps speaks_protocol (server.handle_text E ws cid authenticated text).
Proof.
  unfold server.handle_text, server.on_connect, server.on_chat_send,
    server.on_approval_respond, server.on_unknown, server.create_task,
    server.uuid4_str, log, set_conversations, set_clients.
  steps_by speaks_refl speaks_trans speaks_prim.
Qed.

Lemma read_loop_speaks ws cid inbox : forall authenticated,
  steps speaks_protocol (server.read_loop E ws cid authenticated inbox).
Proof.
  induction inbox as [|text inbox IH]; intros authenticated; simpl.
  - apply (steps_raise _ speaks_refl).
  - apply (steps_bind _ speaks_trans); [apply handle_text_speaks|].
    intros [a|]; [apply IH | apply (steps_ret _ speaks_refl)].
Qed.

Lemma gateway_ws_speaks ws inbox :
  steps speaks_protocol (server.gateway_ws E ws inbox).
Proof.
  unfold server.gateway_ws, server.cleanup, server.uuid4_str,
    set_conversations, set_clients.
  steps_by speaks_refl speaks_trans
    ltac:(first [apply read_loop_speaks | speaks_prim]).
Qed.

Lemma for_each_tick_speaks l :
  steps speaks_protocol
    (server.for_each (server.tick_one E protocol.make_tick) l).
Proof.
  induction l as [|[cid ws] l IH]; simpl.
  - apply (steps_ret _ speaks_refl).
  - unfold server.tick_one, set_clients.
    steps_by speaks_refl speaks_trans ltac:(first [apply IH | speaks_prim]).
Qed.

End protocol_shapes.

(** X8. Every frame sent by a connection handler, by a chat turn or by a
    pass of the heartbeat is an event with a name and a payload, or a
    response that carries an id and is either ok with a payload and no
    error, or not ok with an error made of a code and a message and no
    payload; this holds on every path, failures included. *)
Theorem server_speaks_protocol (E : env) (w : world) :
  (forall ws inbox,
     speaks_protocol w (snd (server.gateway_ws E ws inbox w))) /\
  (forall ws cid run_id text,
     speaks_protocol w (snd (server._handle_chat E ws cid run_id text w))) /\
  speaks_protocol w (snd (server.heartbeat_tick E w)).
Proof.
  split; [|split].
  - intros ws inbox. apply gateway_ws_speaks.
  - intros ws cid run_id text. apply handle_chat_speaks.
  - unfold server.heartbeat_tick, bind, get. apply for_each_tick_speaks.
Qed.

(** ** Passes of the heartbeat compose *)

Section heartbeat_passes.
Context (E : env).

Lemma ticked_closed l : forall w, closed (ticked E l w) = closed w.
Proof.
  induction l as [|[client_id ws] l IH]; intros w; [reflexivity|].
  simpl. rewrite IH. now destruct (delivers E w ws).
Qed.

(** The registry after a pass: the sessions whose send goes through. *)
Lemma ticked_registry w :
  _clients (ticked E (map_to_list (_clients w)) w)
  = filter (fun kv => delivers E w kv.2 = true) (_clients w).
Proof.
  apply map_eq. intros k.
  destruct (_clients w !! k) as [ws|] eqn:Hk.
  - destruct (delivers E w ws) eqn:Hd.
    + rewrite ticked_clients_up.
      * rewrite Hk. symmetry. now apply map_lookup_filter_Some_2.
      * intros ws' Hin. apply elem_of_map_to_list in Hin. congruence.
    + rewrite (ticked_clients_down E _ w k ws);
        [|now apply elem_of_map_to_list | exact Hd].
      symmetry. apply map_lookup_filter_None_2. right.
      intros ws' Hk'. simpl. congruence.
  - rewrite ticked_clients_subset by exact Hk. symmetry.
    apply map_lookup_filter_None_2. now left.
Qed.

Lemma heartbeat_tick_run w :
  server.heartbeat_tick E w = (Ok tt, ticked E (map_to_list (_clients w)) w).
Proof.
  unfold server.heartbeat_tick. erewrite bind_ok by reflexivity.
  apply for_each_tick.
Qed.

Lemma heartbeat_loop_registry n : forall w,
  exists w',
    server._heartbeat_loop E (S n) w = (Ok tt, w') /\
    closed w' = closed w /\ _conversations w' = _conversations w /\
    _clients w' = filter (fun kv => delivers E w kv.2 = true) (_clients w).
Proof.
  induction n as [|n IH]; intros w.
  - simpl. erewrite bind_ok by apply heartbeat_tick_run.
    eexists. split; [reflexivity|].
    split; [apply ticked_closed|]. split; [apply ticked_conversations|].
    apply ticked_registry.
  - change (server._heartbeat_loop E (S (S n)))
      with (server.heartbeat_tick E ;;; server._heartbeat_loop E (S n))%coro.
    erewrite bind_ok by apply heartbeat_tick_run.
    destruct (IH (ticked E (map_to_list (_clients w)) w))
      as (w' & Hrun & Hclosed & Hconv & Hreg).
    exists w'. split; [exact Hrun|].
    rewrite Hclosed, Hconv, Hreg, ticked_closed, ticked_conversations,
      ticked_registry.
    repeat split.
    rewrite map_filter_filter. apply map_filter_ext. intros k ws _. simpl.
    rewrite (delivers_closed E w (ticked E (map_to_list (_clients w)) w))
      by apply ticked_closed.
    tauto.
Qed.

End heartbeat_passes.

(** X9. The heartbeat is idempotent while the transports do not change:
    any number of passes, one at least, returns and leaves exactly the
    registry that the first pass leaves, the sessions whose send goes
    through; the transcripts are never touched. *)
Theorem heartbeat_passes_prune_once (E : env) (n : nat) (w : world) :
  exists w1 wn,
    server.heartbeat_tick E w = (Ok tt, w1) /\
    server._heartbeat_loop E (S n) w = (Ok tt, wn) /\
    _clients wn = _clients w1 /\
    _clients wn = filter (fun kv => delivers E w kv.2 = true) (_clients w) /\
    _conversations wn = _conversations w.
Proof.
  destruct (heartbeat_loop_registry E n w) as (wn & Hrun & _ & Hconv & Hreg).
  exists (ticked E (map_to_list (_clients w)) w), wn.
  split; [apply heartbeat_tick_run|]. split; [exact Hrun|].
  rewrite ticked_registry. auto.
Qed.

(** ** The table of messages *)

Lemma id_taken_elem (rows : list message) (i : string) :
  storage.id_taken rows i = false <-> i ∉ map msg_id rows.
Proof.
  unfold storage.id_taken. induction rows as [|r rows IH]; simpl.
  - split; [intros _ H; inversion H | reflexivity].
  - rewrite orb_false_iff, IH, not_elem_of_cons, String.eqb_neq.
    split; intros [H1 H2]; split; congruence || assumption.
Qed.

Lemma unique_ids_stored E src text_content w :
  storable E text_content w -> unique_ids w ->
  unique_ids (stored E src text_content w).
Proof.
  intros [_ Hfresh] Huniq. unfold unique_ids, stored. simpl.
  rewrite map_app. simpl. apply NoDup_app. split; [exact Huniq|].
  split; [|apply NoDup_singleton].
  intros i Hin Hnew. apply list_elem_of_singleton in Hnew. subst i.
  now apply id_taken_elem in Hfresh.
Qed.

Section unique_keys.
Context (E : env).

Lemma keeps_refl w : keeps w w.
Proof. exact id. Qed.

Lemma keeps_trans w1 w2 w3 : keeps w1 w2 -> keeps w2 w3 -> keeps w1 w3.
Proof. unfold keeps. auto. Qed.

Lemma keeps_same w w' : messages w' = messages w -> keeps w w'.
Proof. unfold keeps, unique_ids. now intros ->. Qed.

Lemma send_text_keeps ws frame : steps keeps (server.send_text E ws frame).
Proof.
  intros w. unfold server.send_text, bind, get.
  destruct (bool_decide (ws ∈ closed w)); [apply keeps_refl|].
  destruct (send_error E ws); [apply keeps_refl | now apply keeps_same].
Qed.

Lemma close_keeps ws code reason : steps keeps (server.close E ws code reason).
Proof.
  intros w. unfold server.close, bind, get.
  destruct (bool_decide (ws ∈ closed w)); [apply keeps_refl|].
  destruct (send_error E ws); [apply keeps_refl | now apply keeps_same].
Qed.

Lemma store_text_keeps src text_content :
  steps keeps (server.store_text E src text_content).
Proof.
  intros w.
  destruct (storage.bind_parameter text_content) as [[]|e] eqn:Hbind;
  [destruct (storage.id_taken (messages w) (uuid4 E (uuid_calls w))) eqn:Hid|].
  - destruct (store_text_raise E src text_content w) as [e ->];
      [intros [_ H]; congruence | now apply keeps_same].
  - rewrite store_text_ok by now split.
    intros Huniq. apply unique_ids_stored; [now split | exact Huniq].
  - destruct (store_text_raise E src text_content w) as [e' ->];
      [intros [H _]; congruence | now apply keeps_same].
Qed.

Ltac keeps_prim :=
  first [ apply send_text_keeps | apply close_keeps | apply store_text_keeps
        | solve [intros ?; now apply keeps_same] ].

Lemma stream_deltas_keeps ws run_id tokens : forall full,
  steps keeps (server.stream_deltas E ws run_id full tokens).
Proof.
  induction tokens as [|token rest IH]; intros full; simpl.
  - apply (steps_ret _ keeps_refl).
  - steps_by keeps_refl keeps_trans ltac:(first [apply IH | keeps_prim]).
Qed.

Lemma handle_chat_keeps ws cid run_id text :
  steps keeps (server._handle_chat E ws cid run_id text).
Proof.
  unfold server._handle_chat, server.chat_body, server.history_append,
    server.history_trim, server.speak, log, set_conversations.
  steps_by keeps_refl keeps_trans
    ltac:(first [apply stream_deltas_keeps | keeps_prim]).
Qed.

Lemma handle_text_keeps ws cid authenticated text :
  steps keeps (server.handle_text E ws cid authenticated text).
Proof.
  unfold server.handle_text, server.on_connect, server.on_chat_send,
    server.on_approval_respond, server.on_unknown, server.create_task,
    server.uuid4_str, log, set_conversations, set_clients.
  steps_by keeps_refl keeps_trans keeps_prim.
Qed.

Lemma read_loop_keeps ws cid inbox : forall authenticated,
  steps keeps (server.read_loop E ws cid authenticated inbox).
Proof.
  induction inbox as [|text inbox IH]; intros authenticated; simpl.
  - apply (steps_raise _ keeps_refl).
  - apply (steps_bind _ keeps_trans); [apply handle_text_keeps|].
    intros [a|]; [apply IH | apply (steps_ret _ keeps_refl)].
Qed.

Lemma gateway_ws_keeps ws inbox w :
  unique_ids w -> unique_ids (snd (server.gateway_ws E ws inbox w)).
Proof.
  revert w.
  change (steps keeps (server.gateway_ws E ws inbox)).
  unfold server.gateway_ws, server.cleanup, server.uuid4_str,
    set_conversations, set_clients.
  steps_by keeps_refl keeps_trans
    ltac:(first [apply read_loop_keeps | keeps_prim]).
Qed.

Lemma handle_chat_keeps_ids ws cid run_id text w :
  unique_ids w -> unique_ids (snd (server._handle_chat E ws cid run_id text w)).
Proof. apply handle_chat_keeps. Qed.

End unique_keys.

(** X10. The primary key of the table holds on every path: when the ids
    of the rows are pairwise distinct, they still are after a connection
    handler has run and after a chat turn has run, whatever identifiers
    are drawn (an insertion with an id already in the table is refused
    and leaves the table as it was). *)
Theorem ids_stay_unique (E : env) (w : world) (Huniq : unique_ids w) :
  (forall ws inbox, unique_ids (snd (server.gateway_ws E ws inbox w))) /\
  (forall ws cid run_id text,
     unique_ids (snd (server._handle_chat E ws cid run_id text w))) /\
  (forall src text_content,
     ~ storable E text_content w ->
     exists e w',
       server.store_text E src text_content w = (Raise e, w') /\
       messages w' = messages w).
Proof.
  split; [|split].
  - intros ws inbox. now apply gateway_ws_keeps.
  - intros ws cid run_id text. now apply handle_chat_keeps_ids.
  - intros src text_content Hno.
    destruct (store_text_raise E src text_content w Hno) as [e He].
    exists e, (drawn w). now split.
Qed.

Lemma ids_stay_unique_witness :
  (forall ws inbox,
     unique_ids (snd (server.gateway_ws Scenario.E0 ws inbox Scenario.answered))) /\
  (forall ws cid run_id text,
     unique_ids (snd (server._handle_chat Scenario.E0 ws cid run_id text
                        Scenario.answered))) /\
  (forall src text_content,
     ~ storable Scenario.E0 text_content Scenario.answered ->
     exists e w',
       server.store_text Scenario.E0 src text_content Scenario.answered
       = (Raise e, w') /\
       messages w' = messages Scenario.answered).
Proof.
  apply (ids_stay_unique Scenario.E0 Scenario.answered).
  unfold unique_ids.
  assert (Hids : map msg_id (messages Scenario.answered)
                 = [Sample.uuid 2; Sample.uuid 3]) by (vm_compute; reflexivity).
  rewrite Hids. apply NoDup_cons. split.
  - intros Hin. apply list_elem_of_singleton in Hin. vm_compute in Hin.
    discriminate Hin.
  - apply NoDup_singleton.
Defined.

(** ** Reading the table back *)

Lemma sorted_rows (rows : list message) :
  StronglySorted storage.newer_first (merge_sort storage.newer_first rows) /\
  merge_sort storage.newer_first rows ≡ₚ rows.
Proof.
  split; [apply StronglySorted_merge_sort; apply _ | apply merge_sort_Permutation].
Qed.


(** The page of the model is one the query may return. *)
Lemma select_recent_result (limit : Z) (rows : list message) :
  query_result limit rows (storage.select_recent limit rows).
Proof.
  exists (merge_sort storage.newer_first rows).
  destruct (sorted_rows rows) as [Hsorted Hperm]. now repeat split.
Qed.


(** When no two rows have the same timestamp, the order of the query is
    determined. *)
Lemma sorted_determined (s1 : list message) : forall s2,
  NoDup (map created_at s1) -> s1 ≡ₚ s2 ->
  StronglySorted storage.newer_first s1 ->
  StronglySorted storage.newer_first s2 ->
  s1 = s2.
Proof.
  induction s1 as [|a s1 IH]; intros s2 Hdistinct Hperm H1 H2.
  - now apply Permutation_nil_l in Hperm.
  - destruct s2 as [|b s2];
      [symmetry in Hperm; now apply Permutation_nil_l in Hperm|].
    apply StronglySorted_inv in H1. destruct H1 as [H1 Ha].
    apply StronglySorted_inv in H2. destruct H2 as [H2 Hb].
    apply NoDup_cons in Hdistinct. destruct Hdistinct as [Hfresh Hdistinct].
    assert (Hab : a = b).
    { assert (Hin_a : a ∈ b :: s2) by (rewrite <- Hperm; left).
      assert (Hin_b : b ∈ a :: s1) by (rewrite Hperm; left).
      apply elem_of_cons in Hin_a. destruct Hin_a as [Heq|Hin_a]; [exact Heq|].
      apply elem_of_cons in Hin_b. destruct Hin_b as [Heq|Hin_b]; [now symmetry|].
      rewrite Forall_forall in Ha, Hb.
      specialize (Ha b Hin_b). specialize (Hb a Hin_a).
      unfold storage.newer_first in Ha, Hb.
      exfalso. apply Hfresh.
      rewrite (String.leb_antisym _ _ Hb Ha).
      apply list_elem_of_fmap. now exists b. }
    subst b. f_equal. apply IH; try assumption.
    now apply Permutation_cons_inv in Hperm.
Qed.

Lemma query_result_determined (limit : Z) (rows page : list message) :
  NoDup (map created_at rows) ->
  query_result limit rows page -> page = storage.select_recent limit rows.
Proof.
  intros Hdistinct (sorted & Hperm & Hsorted & ->).
  unfold storage.select_recent. do 2 f_equal.
  destruct (sorted_rows rows) as [Hsorted' Hperm'].
  apply sorted_determined; try assumption.
  - now rewrite Hperm.
  - now rewrite Hperm, Hperm'.
Qed.

(** X11. The bounds of [limit]: with a negative limit that fits in 64
    bits the endpoint returns every row of the table, oldest first; with
    limit 0 it returns nothing; with a limit that does not fit in 64 bits
    it raises [OverflowError]. The table is not changed. *)
Theorem history_without_limit (w : world) (limit : Z)
    (Hneg : - 2 ^ 63 <= limit < 0) :
  (exists page,
     server.get_messages (Some limit) w = (Ok page, w) /\
     page ≡ₚ messages w /\
     StronglySorted (flip storage.newer_first) page) /\
  (forall page, query_result limit (messages w) page ->
     page ≡ₚ messages w /\ StronglySorted (flip storage.newer_first) page) /\
  server.get_messages (Some 0) w = (Ok [], w) /\
  (forall big, big < - 2 ^ 63 \/ 2 ^ 63 <= big ->
     server.get_messages (Some big) w
     = (Raise (Exception "OverflowError"
                 "Python int too large to convert to SQLite INTEGER"), w)).
Proof.
  assert (Hall : forall page, query_result limit (messages w) page ->
            page ≡ₚ messages w /\ StronglySorted (flip storage.newer_first) page).
  { intros page (sorted & Hperm & Hsorted & ->).
    unfold storage.sql_limit.
    replace (limit <? 0) with true by (symmetry; apply Z.ltb_lt; lia).
    split.
    - now rewrite reverse_Permutation.
    - apply Sorted_StronglySorted; [apply _|].
      apply Sorted_reverse, StronglySorted_Sorted, Hsorted. }
  split; [|split; [exact Hall|split]].
  - exists (storage.select_recent limit (messages w)).
    split; [apply get_messages_run; change (default 50 (Some limit)) with limit; lia|].
    apply Hall, select_recent_result.
  - apply get_messages_run. change (default 50 (Some 0)) with 0. lia.
  - intros big Hbig. now apply get_messages_overflow.
Qed.

Lemma history_without_limit_witness :
  (exists page,
     server.get_messages (Some (-1)) Scenario.three_stored
       = (Ok page, Scenario.three_stored) /\
     page ≡ₚ messages Scenario.three_stored /\
     StronglySorted (flip storage.newer_first) page) /\
  (forall page, query_result (-1) (messages Scenario.three_stored) page ->
     page ≡ₚ messages Scenario.three_stored /\
     StronglySorted (flip storage.newer_first) page) /\
  server.get_messages (Some 0) Scenario.three_stored
    = (Ok [], Scenario.three_stored) /\
  (forall big, big < - 2 ^ 63 \/ 2 ^ 63 <= big ->
     server.get_messages (Some big) Scenario.three_stored
     = (Raise (Exception "OverflowError"
                 "Python int too large to convert to SQLite INTEGER"),
        Scenario.three_stored)).
Proof. apply (history_without_limit Scenario.three_stored (-1)). lia. Defined.

(** X12. Pages nest: on a table in which no two rows have the same
    timestamp, for limits that fit in 64 bits, the page of a smaller
    limit is the end of the page of a larger limit (or of no limit), so
    asking for more only adds older rows in front; the two pages are the
    only ones the query may return. *)
Theorem history_pages_nest (w : world) (n m : Z)
    (Hdistinct : NoDup (map created_at (messages w)))
    (Hn : 0 <= n < 2 ^ 63)
    (Hm : n <= m < 2 ^ 63 \/ - 2 ^ 63 <= m < 0) :
  exists older page_n page_m,
    server.get_messages (Some n) w = (Ok page_n, w) /\
    server.get_messages (Some m) w = (Ok page_m, w) /\
    page_m = older ++ page_n /\
    (forall page, query_result n (messages w) page -> page = page_n) /\
    (forall page, query_result m (messages w) page -> page = page_m).
Proof.
  set (sorted := merge_sort storage.newer_first (messages w)).
  exists (reverse (drop (Z.to_nat n) (storage.sql_limit m sorted))),
         (storage.select_recent n (messages w)),
         (storage.select_recent m (messages w)).
  split; [apply get_messages_run; change (default 50 (Some n)) with n; lia|].
  split; [apply get_messages_run; change (default 50 (Some m)) with m; lia|].
  split; [|split; intros page; now apply query_result_determined].
  unfold storage.select_recent. fold sorted.
  rewrite <- reverse_app.
  assert (Hpre : storage.sql_limit n sorted
                 = take (Z.to_nat n) (storage.sql_limit m sorted)).
  { unfold storage.sql_limit.
    replace (n <? 0) with false by (symmetry; apply Z.ltb_ge; lia).
    destruct (m <? 0) eqn:Hneg; [reflexivity|].
    apply Z.ltb_ge in Hneg.
    rewrite take_take. f_equal. lia. }
  rewrite Hpre. now rewrite take_drop.
Qed.

Lemma three_stored_distinct :
  NoDup (map created_at (messages Scenario.three_stored)).
Proof.
  assert (Hstamps : map created_at (messages Scenario.three_stored)
                    = [Sample.now 0; Sample.now 1; Sample.now 2])
    by (vm_compute; reflexivity).
  rewrite Hstamps.
  repeat (apply NoDup_cons; split;
          [rewrite ?elem_of_cons, elem_of_nil; vm_compute; intuition discriminate|]).
  apply NoDup_nil_2.
Qed.

Lemma history_pages_nest_witness :
  exists older page_n page_m,
    server.get_messages (Some 1) Scenario.three_stored
      = (Ok page_n, Scenario.three_stored) /\
    server.get_messages (Some 2) Scenario.three_stored
      = (Ok page_m, Scenario.three_stored) /\
    page_m = older ++ page_n /\
    (forall page, query_result 1 (messages Scenario.three_stored) page ->
       page = page_n) /\
    (forall page, query_result 2 (messages Scenario.three_stored) page ->
       page = page_m).
Proof.
  apply (history_pages_nest Scenario.three_stored 1 2);
    [apply three_stored_distinct | lia | left; lia].
Defined.



(** ** The start-up token *)

Example splitlines_samples :
  config.splitlines "" = [] /\
  config.splitlines config.LF = [""] /\
  config.splitlines ("a" ++ config.LF ++ config.LF ++ "b")%string = ["a"; ""; "b"] /\
  config.splitlines ("a" ++ String "013" config.LF ++ "b")%string = ["a"; "b"] /\
  config.splitlines ("a" ++ config.LF ++ String "013" "")%string = ["a"; ""] /\
  config.splitlines
    ("a" ++ String "226" (String "128" (String "168" "b")))%string = ["a"; "b"] /\
  config.splitlines ("a" ++ String "226" (String "128" "b"))%string
  = [("a" ++ String "226" (String "128" "b"))%string].
Proof. repeat split. Qed.

(** A boundary is recognised from the bytes it is made of: what follows
    a text that starts with none cannot make one, when it starts with a
    line feed. *)
Lemma break_length_extend (c : ascii) (r rest : string) :
  config.break_length (String c r) = 0%nat ->
  config.break_length (String c (r ++ String "010" rest)) = 0%nat.
Proof.
  unfold config.break_length.
  destruct (config.one_byte_break c); [discriminate|].
  destruct (Ascii.eqb c "013").
  { destruct r as [|c2 r]; [discriminate|].
    destruct (Ascii.eqb c2 "010"); discriminate. }
  destruct (Ascii.eqb c "194").
  { destruct r as [|c2 r]; [reflexivity|]. exact id. }
  destruct (Ascii.eqb c "226"); [|reflexivity].
  destruct r as [|c2 [|c3 r]]; intros Hno.
  - destruct rest; reflexivity.
  - change (String c2 "" ++ String "010" rest)%string
      with (String c2 (String "010" rest)).
    cbv beta iota. destruct (Ascii.eqb c2 "128"); reflexivity.
  - exact Hno.
Qed.

Lemma break_length_shrink (c : ascii) (r s : string) :
  config.break_length (String c (r ++ s)) = 0%nat ->
  config.break_length (String c r) = 0%nat.
Proof.
  unfold config.break_length.
  destruct (config.one_byte_break c); [discriminate|].
  destruct (Ascii.eqb c "013").
  { destruct (r ++ s)%string as [|c2 ?]; [discriminate|].
    destruct (Ascii.eqb c2 "010"); discriminate. }
  destruct (Ascii.eqb c "194").
  { destruct r as [|c2 r]; [reflexivity|]. exact id. }
  destruct (Ascii.eqb c "226"); [|reflexivity].
  destruct r as [|c2 [|c3 r]]; [reflexivity | reflexivity | exact id].
Qed.

Lemma string_app_snoc (a : string) (c : ascii) (b : string) :
  (a ++ String c b = (a ++ String c "") ++ b)%string.
Proof. now rewrite string_app_assoc. Qed.

Lemma lines_from_line (l : string) : forall cur rest,
  unbroken l = true ->
  config.lines_from 0 cur (l ++ String "010" rest)
  = (cur ++ l)%string :: config.lines_from 0 "" rest.
Proof.
  induction l as [|c r IH]; intros cur rest Hl.
  - rewrite string_app_nil_r. reflexivity.
  - cbn [unbroken] in Hl. apply andb_true_iff in Hl. destruct Hl as [Hc Hr].
    apply Nat.eqb_eq in Hc.
    change (String c r ++ String "010" rest)%string
      with (String c (r ++ String "010" rest)).
    cbn [config.lines_from].
    rewrite (break_length_extend c r rest Hc).
    rewrite (IH _ _ Hr). f_equal.
    symmetry. apply string_app_snoc.
Qed.

(** Writing lines with [join] and a final line feed, then splitting the
    text, gives the lines back. *)
Lemma splitlines_join (ls : list string) :
  ls <> [] -> Forall (fun l => unbroken l = true) ls ->
  config.splitlines (config.join config.LF ls ++ config.LF) = ls.
Proof.
  unfold config.splitlines, config.LF.
  induction ls as [|l ls IH]; [congruence|]. intros _ Hall.
  apply Forall_cons in Hall. destruct Hall as [Hl Hall].
  destruct ls as [|l2 ls].
  - cbn [config.join]. now rewrite lines_from_line.
  - change (config.join (String "010" "") (l :: l2 :: ls))
      with (l ++ String "010" "" ++ config.join (String "010" "") (l2 :: ls))%string.
    rewrite string_app_assoc.
    change ((String "010" "" ++ config.join (String "010" "") (l2 :: ls))
              ++ String "010" "")%string
      with (String "010" (config.join (String "010" "") (l2 :: ls)
                          ++ String "010" "")).
    rewrite lines_from_line by exact Hl.
    rewrite IH by (congruence || exact Hall). reflexivity.
Qed.

Lemma unbroken_suffixes (cur : string) :
  (forall a c r, cur = (a ++ String c r)%string ->
                 config.break_length (String c r) = 0%nat) ->
  unbroken cur = true.
Proof.
  induction cur as [|c r IH]; intros Hsuf; [reflexivity|].
  cbn [unbroken]. apply andb_true_iff. split.
  - apply Nat.eqb_eq. exact (Hsuf "" c r eq_refl).
  - apply IH. intros a c' r' ->. exact (Hsuf (String c a) c' r' eq_refl).
Qed.

Lemma string_snoc_inv (a : string) (c : ascii) (b : string) (d : ascii) (r : string) :
  (a ++ String c "" = b ++ String d r)%string ->
  (r = "" /\ d = c /\ a = b) \/
  exists r', r = (r' ++ String c "")%string /\ a = (b ++ String d r')%string.
Proof.
  revert b. induction a as [|x a IH]; intros b Heq.
  - destruct b as [|y b]; simpl in Heq.
    + injection Heq as -> <-. now left.
    + injection Heq as _ Heq. destruct b; discriminate.
  - destruct b as [|y b]; simpl in Heq.
    + injection Heq as <- <-. right. exists a. split; reflexivity.
    + injection Heq as <- Heq.
      destruct (IH b Heq) as [(-> & -> & ->)|(r' & -> & ->)].
      * now left.
      * right. exists r'. split; reflexivity.
Qed.

(** Every line that [splitlines] gives holds no boundary. *)
Lemma lines_from_unbroken (s : string) : forall skip cur,
  (skip = 0%nat ->
   forall a c r, cur = (a ++ String c r)%string ->
                 config.break_length (String c (r ++ s)) = 0%nat) ->
  (skip <> 0%nat -> cur = "") ->
  Forall (fun l => unbroken l = true) (config.lines_from skip cur s).
Proof.
  induction s as [|x s IH]; intros skip cur Hcur Hskip.
  - assert (Hu : skip = 0%nat -> unbroken cur = true).
    { intros H0. apply unbroken_suffixes. intros a c r Ha.
      specialize (Hcur H0 a c r Ha). now rewrite string_app_nil_r in Hcur. }
    cbn [config.lines_from]. destruct cur as [|c cur]; [constructor|].
    constructor; [|constructor].
    destruct skip; [now apply Hu|]. now specialize (Hskip ltac:(lia)).
  - cbn [config.lines_from]. destruct skip as [|k].
    + destruct (config.break_length (String x s)) as [|n] eqn:Hb.
      * apply IH; [|congruence]. intros _ a c r Ha.
        apply string_snoc_inv in Ha.
        destruct Ha as [(-> & -> & _)|(r' & -> & ->)].
        -- exact Hb.
        -- rewrite <- string_app_snoc. exact (Hcur eq_refl _ _ _ eq_refl).
      * constructor.
        -- apply unbroken_suffixes. intros a c r Ha.
           exact (break_length_shrink _ _ _ (Hcur eq_refl a c r Ha)).
        -- apply IH; [|reflexivity]. intros _ a c r Ha.
           destruct a; discriminate.
    + rewrite (Hskip ltac:(lia)).
      apply IH; [|reflexivity]. intros _ a c r Ha. destruct a; discriminate.
Qed.

Lemma splitlines_unbroken (text : string) :
  Forall (fun l => unbroken l = true) (config.splitlines text).
Proof.
  apply lines_from_unbroken; [|congruence].
  intros _ a c r Ha. destruct a; discriminate.
Qed.

Lemma plain_unbroken (l : string) :
  forallb plain (list_ascii_of_string l) = true -> unbroken l = true.
Proof.
  induction l as [|c r IH]; [reflexivity|]. cbn [list_ascii_of_string forallb unbroken].
  intros Hall. apply andb_true_iff in Hall. destruct Hall as [Hc Hr].
  rewrite (IH Hr), andb_true_r. apply Nat.eqb_eq.
  unfold plain in Hc. unfold config.break_length.
  destruct (config.one_byte_break c); [discriminate Hc|].
  destruct (Ascii.eqb c "013"); [discriminate Hc|].
  destruct (Ascii.eqb c "194"); [discriminate Hc|].
  destruct (Ascii.eqb c "226"); [discriminate Hc|]. reflexivity.
Qed.

Lemma hex_digit_sound (n : nat) :
  plain (config.hex_digit n) = true /\
  Py.is_ascii_char (config.hex_digit n) = true.
Proof.
  unfold config.hex_digit.
  do 16 (destruct n as [|n]; [split; reflexivity|]).
  destruct n; split; reflexivity.
Qed.

Lemma hexlify_sound (bs : string) :
  forallb plain (list_ascii_of_string (config.hexlify bs)) = true /\
  Py.is_ascii (config.hexlify bs) = true.
Proof.
  induction bs as [|b bs [IH1 IH2]]; [split; reflexivity|].
  cbn [config.hexlify list_ascii_of_string forallb Py.is_ascii].
  destruct (hex_digit_sound (nat_of_ascii b / 16)) as [-> ->].
  destruct (hex_digit_sound (nat_of_ascii b mod 16)) as [-> ->].
  now rewrite IH1, IH2.
Qed.

Lemma forallb_string_app (f : ascii -> bool) (a b : string) :
  forallb f (list_ascii_of_string (a ++ b)) 
  = forallb f (list_ascii_of_string a) && forallb f (list_ascii_of_string b).
Proof.
  induction a as [|c a IH]; [reflexivity|]. simpl. now rewrite IH, andb_assoc.
Qed.

Lemma is_ascii_app (a b : string) :
  Py.is_ascii (a ++ b) = Py.is_ascii a && Py.is_ascii b.
Proof.
  induction a as [|c a IH]; [reflexivity|]. simpl. now rewrite IH, andb_assoc.
Qed.

Lemma token_line_unbroken (H : config.host) :
  unbroken (config.TOKEN_KEY ++ "ocgw_" ++ config.token_hex H 24) = true.
Proof.
  apply plain_unbroken. rewrite !forallb_string_app.
  unfold config.token_hex. now rewrite (proj1 (hexlify_sound _)).
Qed.

Lemma kept_unbroken (lines : list string) :
  Forall (fun l => unbroken l = true) lines ->
  Forall (fun l => unbroken l = true) (config.kept lines).
Proof.
  intros Hall. apply Forall_forall. intros l Hin.
  rewrite Forall_forall in Hall. apply Hall.
  apply list_elem_of_In. apply list_elem_of_In in Hin.
  unfold config.kept in Hin. now apply filter_In in Hin.
Qed.

(** What the call does when no token is set and no operation fails. *)
Lemma ensure_token_writes (H : config.host) (self : config.Settings)
    (file : option string) :
  config.auth_token self = "" ->
  config.stat_error H = None -> config.read_error H = None ->
  config.write_error H = None ->
  let token := ("ocgw_" ++ config.token_hex H 24)%string in
  config.ensure_token H self file
  = (Ok token, config.set_auth_token self token,
     Some (config.join config.LF
             (config.kept (dotenv_lines file)
                ++ [(config.TOKEN_KEY ++ token)%string])
           ++ config.LF)%string).
Proof.
  intros Hunset Hstat Hread Hwrite token.
  unfold config.ensure_token, config.path_exists, config.read_text,
    config.write_text.
  rewrite Hunset, Hstat, Hread, Hwrite. cbn [Py.truthy String.eqb negb].
  destruct file as [t|]; reflexivity.
Qed.

Lemma token_lines_kept (lines : list string) (line : string) :
  String.prefix config.TOKEN_KEY line = true ->
  token_lines (config.kept lines ++ [line]) = [line].
Proof.
  intros Hline. unfold token_lines, config.kept.
  rewrite List.filter_app. cbn [List.filter]. rewrite Hline.
  induction lines as [|l lines IH]; [reflexivity|].
  cbn [List.filter]. destruct (String.prefix config.TOKEN_KEY l) eqn:Hl;
    cbn [negb List.filter]; [exact IH|].
  rewrite Hl. exact IH.
Qed.

Lemma prefix_app (a b : string) : String.prefix a (a ++ b) = true.
Proof.
  induction a as [|c a IH]; [now destruct b|].
  change (String c a ++ b)%string with (String c (a ++ b)).
  cbn [String.prefix]. destruct (ascii_dec c c); [exact IH | congruence].
Qed.

Lemma token_key_prefix (token : string) :
  String.prefix config.TOKEN_KEY (config.TOKEN_KEY ++ token) = true.
Proof. apply prefix_app. Qed.

Lemma kept_app (a b : list string) :
  config.kept (a ++ b) = config.kept a ++ config.kept b.
Proof. apply List.filter_app. Qed.

Lemma kept_idem (ls : list string) : config.kept (config.kept ls) = config.kept ls.
Proof.
  induction ls as [|l ls IH]; [reflexivity|].
  unfold config.kept in *. cbn [List.filter].
  destruct (negb (String.prefix config.TOKEN_KEY l)) eqn:Hl; [|exact IH].
  cbn [List.filter]. rewrite Hl. now f_equal.
Qed.

Lemma kept_token_line (token : string) :
  config.kept [(config.TOKEN_KEY ++ token)%string] = [].
Proof.
  unfold config.kept. cbn [List.filter]. now rewrite token_key_prefix.
Qed.

(** X14. When no token is set, and [.env] can be read (if it is there)
    and written, [ensure_token] rewrites the file so that, read back line
    by line, it holds the lines it had that do not set the token, in
    their order, followed by one line that sets the generated token: the
    file ends up with exactly one token line, whatever it held before. *)
Theorem dotenv_gets_one_token_line (H : config.host) (self : config.Settings)
    (file : option string)
    (Hunset : config.auth_token self = "")
    (Hstat : config.stat_error H = None)
    (Hread : config.read_error H = None)
    (Hwrite : config.write_error H = None) :
  exists token text,
    config.ensure_token H self file
    = (Ok token, config.set_auth_token self token, Some text) /\
    config.splitlines text
    = config.kept (dotenv_lines file) ++ [(config.TOKEN_KEY ++ token)%string] /\
    token_lines (config.splitlines text) = [(config.TOKEN_KEY ++ token)%string] /\
    config.kept (config.splitlines text) = config.kept (dotenv_lines file).
Proof.
  eexists _, _. split; [now apply ensure_token_writes|].
  assert (Hback :
    config.splitlines
      (config.join config.LF
         (config.kept (dotenv_lines file)
            ++ [(config.TOKEN_KEY ++ "ocgw_" ++ config.token_hex H 24)%string])
       ++ config.LF)
    = config.kept (dotenv_lines file)
        ++ [(config.TOKEN_KEY ++ "ocgw_" ++ config.token_hex H 24)%string]).
  { apply splitlines_join.
    - intros Hnil. apply app_eq_nil in Hnil. destruct Hnil; discriminate.
    - apply Forall_app. split.
      + apply kept_unbroken. destruct file; [apply splitlines_unbroken | constructor].
      + constructor; [apply token_line_unbroken | constructor]. }
  rewrite Hback. split; [reflexivity|]. split.
  - apply token_lines_kept, token_key_prefix.
  - rewrite kept_app, kept_idem, kept_token_line. apply app_nil_r.
Qed.

Lemma dotenv_gets_one_token_line_witness :
  exists token text,
    config.ensure_token Host.quiet Host.unset (Some Host.dotenv)
    = (Ok token, config.set_auth_token Host.unset token, Some text) /\
    config.splitlines text
    = config.kept (dotenv_lines (Some Host.dotenv))
        ++ [(config.TOKEN_KEY ++ token)%string] /\
    token_lines (config.splitlines text) = [(config.TOKEN_KEY ++ token)%string] /\
    config.kept (config.splitlines text)
    = config.kept (dotenv_lines (Some Host.dotenv)).
Proof.
  apply (dotenv_gets_one_token_line Host.quiet Host.unset (Some Host.dotenv));
    reflexivity.
Defined.

(** The stale token line goes, the other lines stay. *)
Example dotenv_rewritten :
  config.kept (dotenv_lines (Some Host.dotenv))
  = ["OPENCLAW_PORT=9000"; "OPENCLAW_LOG_LEVEL=debug"] /\
  config.token_hex Host.quiet 3 = "000102".
Proof. split; reflexivity. Qed.

(** The outcome of [ensure_token] when no token is set. *)
Lemma ensure_token_outcome (H : config.host) (self : config.Settings)
    (file : option string) (Hunset : config.auth_token self = "") :
  match config.ensure_token H self file with
  | (Ok token, self', _) =>
      self' = config.set_auth_token self token /\
      config.auth_token self' = token /\
      Py.prefix 5 token = "ocgw_" /\
      verify_token (config.auth_token self') (JStr token) = Ok true /\
      forall candidate,
        verify_token (config.auth_token self') candidate = Ok true ->
        candidate = JStr token
  | (Raise _, self', _) => self' = self
  end.
Proof.
  unfold config.ensure_token. rewrite Hunset. cbn [Py.truthy String.eqb negb].
  destruct (config.path_exists H file) as [present|e]; [|reflexivity].
  destruct (if present then _ else _) as [lines|e]; [|reflexivity].
  destruct (config.write_text H _ file) as [[[]|e] file']; [|reflexivity].
  set (token := ("ocgw_" ++ config.token_hex H 24)%string).
  assert (Hascii : Py.is_ascii token = true).
  { unfold token, config.token_hex. rewrite is_ascii_app.
    now rewrite (proj2 (hexlify_sound _)). }
  assert (Hprefix : Py.prefix 5 token = "ocgw_")
    by (unfold token; destruct (config.token_hex H 24); reflexivity).
  split; [reflexivity|]. split; [reflexivity|]. split; [exact Hprefix|].
  cbn [config.set_auth_token config.auth_token].
  rewrite verify_token_secret by (unfold token; discriminate).
  split.
  - unfold compare_digest. rewrite Hascii. cbn [andb].
    now rewrite String.eqb_refl.
  - intros candidate. rewrite verify_token_secret by (unfold token; discriminate).
    unfold compare_digest. destruct candidate; try discriminate.
    destruct (Py.is_ascii s && Py.is_ascii token); [|discriminate].
    intros Heq. injection Heq as Heq. apply String.eqb_eq in Heq. now subst.
Qed.

(** X15. When no token is set, [ensure_token] either raises and leaves
    the settings as they were, or returns a token that it has stored in
    the settings and that is then the one secret of the gateway:
    [verify_token] accepts it and accepts no other value. The other
    settings are not changed. *)
Theorem generated_token_is_the_secret (H : config.host) (self : config.Settings)
    (file : option string) (Hunset : config.auth_token self = "") :
  match config.ensure_token H self file with
  | (Ok token, self', _) =>
      self' = config.set_auth_token self token /\
      config.auth_token self' = token /\
      Py.prefix 5 token = "ocgw_" /\
      verify_token (config.auth_token self') (JStr token) = Ok true /\
      forall candidate,
        verify_token (config.auth_token self') candidate = Ok true ->
        candidate = JStr token
  | (Raise _, self', _) => self' = self
  end.
Proof. exact (ensure_token_outcome H self file Hunset). Qed.

Lemma generated_token_is_the_secret_witness :
  match config.ensure_token Host.quiet Host.unset None with
  | (Ok token, self', _) =>
      self' = config.set_auth_token Host.unset token /\
      config.auth_token self' = token /\
      Py.prefix 5 token = "ocgw_" /\
      verify_token (config.auth_token self') (JStr token) = Ok true /\
      forall candidate,
        verify_token (config.auth_token self') candidate = Ok true ->
        candidate = JStr token
  | (Raise _, self', _) => self' = Host.unset
  end.
Proof.
  apply (generated_token_is_the_secret Host.quiet Host.unset None). reflexivity.
Defined.

(** ** The model stream *)

Section model_stream.
Context (json_loads : string -> outcome json).

Lemma openai_lines_truthy (lines : list string) (fault : option exn) :
  Forall (fun token => Py.truthy token = true)
    (fst (llm.openai_lines json_loads lines fault)).
Proof.
  induction lines as [|line rest IH]; [constructor|].
  cbn [llm.openai_lines].
  destruct (negb (String.prefix "data: " line)); [exact IH|].
  destruct (String.eqb (str_from 6 line) "[DONE]"); [constructor|].
  destruct (llm.openai_content json_loads (str_from 6 line)) as [content|e].
  - destruct (Py.truthy content) eqn:Hcontent; [|exact IH].
    destruct (llm.openai_lines json_loads rest fault) as [tokens fault'].
    constructor; assumption.
  - destruct (caught_by _ e); [exact IH | constructor].
Qed.

Lemma anthropic_text_truthy (data : string) (text : json) :
  llm.anthropic_text json_loads data = Ok (Some text) -> Py.truthy text = true.
Proof.
  unfold llm.anthropic_text, and_then.
  destruct (json_loads data) as [event|]; [|discriminate].
  destruct (py_get event "type" JNull) as [type|]; [|discriminate].
  destruct (Py.eq_str type "content_block_delta"); [|discriminate].
  destruct (py_get event "delta" (JDict [])) as [delta|]; [|discriminate].
  destruct (py_get delta "text" (JStr "")) as [t|]; [|discriminate].
  destruct (Py.truthy t) eqn:Ht; [|discriminate]. congruence.
Qed.

Lemma anthropic_lines_truthy (lines : list string) (fault : option exn) :
  Forall (fun token => Py.truthy token = true)
    (fst (llm.anthropic_lines json_loads lines fault)).
Proof.
  induction lines as [|line rest IH]; [constructor|].
  cbn [llm.anthropic_lines].
  destruct (negb (String.prefix "data: " line)); [exact IH|].
  destruct (llm.anthropic_text json_loads (str_from 6 line))
    as [[text|]|e] eqn:Htext.
  - destruct (llm.anthropic_lines json_loads rest fault) as [tokens fault'].
    constructor; [now apply anthropic_text_truthy in Htext | assumption].
  - exact IH.
  - destruct (caught_by _ e); [exact IH | constructor].
Qed.

Lemma chat_stream_truthy (S : config.Settings) (N : http.network)
    (messages : list turn) (system : option string) :
  Forall (fun token => Py.truthy token = true)
    (fst (llm.chat_stream S N json_loads messages system)).
Proof.
  unfold llm.chat_stream.
  destruct (if String.eqb (config.llm_provider S) "auto" then _ else _)
    as [[[provider base_url] model]|e]; [|constructor].
  destruct (String.eqb provider "none"); [now repeat constructor|].
  destruct (existsb _ _).
  - unfold llm._openai_compatible_stream.
    destruct (http.stream N _) as [lines fault]. apply openai_lines_truthy.
  - destruct (String.eqb provider "anthropic").
    + unfold llm._anthropic_stream.
      destruct (http.stream N _) as [lines fault]. apply anthropic_lines_truthy.
    + now repeat constructor.
Qed.

Lemma openai_lines_done (before after : list string) (fault : option exn) :
  llm.openai_lines json_loads (before ++ "data: [DONE]" :: after) fault
  = llm.openai_lines json_loads before None.
Proof.
  induction before as [|line rest IH]; [reflexivity|].
  cbn [app llm.openai_lines].
  destruct (negb (String.prefix "data: " line)); [exact IH|].
  destruct (String.eqb (str_from 6 line) "[DONE]"); [reflexivity|].
  destruct (llm.openai_content json_loads (str_from 6 line)) as [content|e].
  - destruct (Py.truthy content); [|exact IH]. now rewrite IH.
  - destruct (caught_by _ e); [exact IH | reflexivity].
Qed.

Lemma openai_lines_data (lines : list string) (fault : option exn) :
  llm.openai_lines json_loads (List.filter (String.prefix "data: ") lines) fault
  = llm.openai_lines json_loads lines fault.
Proof.
  induction lines as [|line rest IH]; [reflexivity|].
  cbn [List.filter llm.openai_lines].
  destruct (String.prefix "data: " line) eqn:Hdata; cbn [negb]; [|exact IH].
  cbn [llm.openai_lines]. rewrite Hdata. cbn [negb].
  destruct (String.eqb (str_from 6 line) "[DONE]"); [reflexivity|].
  destruct (llm.openai_content json_loads (str_from 6 line)) as [content|e].
  - destruct (Py.truthy content); [|exact IH]. now rewrite IH.
  - destruct (caught_by _ e); [exact IH | reflexivity].
Qed.

Lemma anthropic_lines_data (lines : list string) (fault : option exn) :
  llm.anthropic_lines json_loads (List.filter (String.prefix "data: ") lines) fault
  = llm.anthropic_lines json_loads lines fault.
Proof.
  induction lines as [|line rest IH]; [reflexivity|].
  cbn [List.filter llm.anthropic_lines].
  destruct (String.prefix "data: " line) eqn:Hdata; cbn [negb]; [|exact IH].
  cbn [llm.anthropic_lines]. rewrite Hdata. cbn [negb].
  destruct (llm.anthropic_text json_loads (str_from 6 line)) as [[text|]|e].
  - now rewrite IH.
  - exact IH.
  - destruct (caught_by _ e); [exact IH | reflexivity].
Qed.

(** A line whose data is not JSON is passed over. *)
Lemma openai_content_not_json (data msg : string) :
  json_loads data = Raise (Exception "JSONDecodeError" msg) ->
  exists e, llm.openai_content json_loads data = Raise e /\
            caught_by ["KeyError"; "IndexError"; "ValueError"] e = true.
Proof.
  intros Hdata. eexists. unfold llm.openai_content. rewrite Hdata.
  split; reflexivity.
Qed.

End model_stream.

(** X16. Whatever the settings, the network and the decoder, every value
    that [chat_stream] yields is truthy: the stream never yields an empty
    text (nor null, zero, false or an empty container), for any
    provider, the notices for a missing or unknown provider included. *)
Theorem stream_yields_only_content (S : config.Settings) (N : http.network)
    (json_loads : string -> outcome json) (messages : list turn)
    (system : option string) :
  Forall (fun token => Py.truthy token = true)
    (fst (llm.chat_stream S N json_loads messages system)) /\
  (forall base_url model,
     Forall (fun token => Py.truthy token = true)
       (fst (llm._openai_compatible_stream S N json_loads base_url model
               messages system))) /\
  (forall model,
     Forall (fun token => Py.truthy token = true)
       (fst (llm._anthropic_stream S N json_loads model messages system))).
Proof.
  split; [apply chat_stream_truthy|]. split.
  - intros base_url model. unfold llm._openai_compatible_stream.
    destruct (http.stream N _) as [lines fault]. apply openai_lines_truthy.
  - intros model. unfold llm._anthropic_stream.
    destruct (http.stream N _) as [lines fault]. apply anthropic_lines_truthy.
Qed.

(** X17. What the loop over an OpenAI-compatible stream does not read:
    the lines after the first end marker [data: [DONE]], and how the
    response ends after it, change nothing, nor do the lines that do not
    start with [data: ] (comments, blank lines, event names); the lines
    of an Anthropic stream that do not start with [data: ] change nothing
    either. *)
Theorem stream_reads_data_lines (json_loads : string -> outcome json)
    (lines after : list string) (fault : option exn) :
  llm.openai_lines json_loads (lines ++ "data: [DONE]" :: after) fault
  = llm.openai_lines json_loads lines None /\
  llm.openai_lines json_loads (List.filter (String.prefix "data: ") lines) fault
  = llm.openai_lines json_loads lines fault /\
  llm.anthropic_lines json_loads (List.filter (String.prefix "data: ") lines) fault
  = llm.anthropic_lines json_loads lines fault.
Proof.
  split; [apply openai_lines_done|].
  split; [apply openai_lines_data | apply anthropic_lines_data].
Qed.

(** The sample stream yields its two texts and stops at the marker. *)
Example completion_tokens :
  llm.chat_stream Net.with_key (Net.serving Net.completion JNull)
    (json_loads Scenario.E0) [user_turn (JStr "hi")] (Some server.SYSTEM_PROMPT)
  = ([JStr "Hel"; JStr "lo"], None).
Proof. vm_compute. reflexivity. Qed.

(** ** The deltas of a chat turn, with the model of this repository *)

Lemma delta_texts_app (a b : list json) :
  delta_texts (a ++ b) = delta_texts a ++ delta_texts b.
Proof. unfold delta_texts. now rewrite List.filter_app, map_app. Qed.

Lemma sends_deltas_refl w : sends_deltas [] w w.
Proof. exists []. split; [now rewrite app_nil_r | reflexivity]. Qed.

Lemma sends_deltas_trans l1 l2 w1 w2 w3 :
  sends_deltas l1 w1 w2 -> sends_deltas l2 w2 w3 -> sends_deltas (l1 ++ l2) w1 w3.
Proof.
  intros (n1 & H1 & D1) (n2 & H2 & D2). exists (n1 ++ n2). split.
  - now rewrite H2, H1, app_assoc.
  - now rewrite frames_app, delta_texts_app, D1, D2.
Qed.

Lemma no_deltas_trans w1 w2 w3 :
  sends_deltas [] w1 w2 -> sends_deltas [] w2 w3 -> sends_deltas [] w1 w3.
Proof. apply (sends_deltas_trans [] []). Qed.

Lemma no_deltas_tail w w' tail :
  trace w' = trace w ++ tail -> delta_texts (frames tail) = [] ->
  sends_deltas [] w w'.
Proof. intros Ht Hd. now exists tail. Qed.

Lemma emits_quiet_then {A B} (Q : list json -> Prop) (m : M A) (k : A -> M B) :
  Q [] -> steps (sends_deltas []) m -> (forall a, emits Q (k a)) ->
  emits Q (bind m k).
Proof.
  intros Hnil Hm Hk w. specialize (Hm w). unfold bind.
  destruct (m w) as [[a|e] w1]; cbn [snd] in Hm.
  - destruct (Hk a w1) as (l & Hl & Hs). exists l. split; [exact Hl|].
    exact (sends_deltas_trans [] l _ _ _ Hm Hs).
  - exists []. now split.
Qed.

Lemma emits_then_quiet {A B} (Q : list json -> Prop) (m : M A) (k : A -> M B) :
  emits Q m -> (forall a, steps (sends_deltas []) (k a)) -> emits Q (bind m k).
Proof.
  intros Hm Hk w. destruct (Hm w) as (l & Hl & Hs). unfold bind.
  destruct (m w) as [[a|e] w1]; cbn [snd] in Hs; exists l; (split; [exact Hl|]).
  - rewrite <- (app_nil_r l). exact (sends_deltas_trans l [] _ _ _ Hs (Hk a w1)).
  - exact Hs.
Qed.

Lemma emits_try_except {A} (Q : list json -> Prop) (m : M A) (h : exn -> M A) :
  emits Q m -> (forall e, steps (sends_deltas []) (h e)) ->
  emits Q (try_except m h).
Proof.
  intros Hm Hh w. destruct (Hm w) as (l & Hl & Hs). unfold try_except.
  destruct (m w) as [[a|e] w1]; cbn [snd] in Hs; exists l; (split; [exact Hl|]).
  - exact Hs.
  - rewrite <- (app_nil_r l). exact (sends_deltas_trans l [] _ _ _ Hs (Hh e w1)).
Qed.

Lemma running_nil : running [].
Proof. exists []. split; [constructor | reflexivity]. Qed.

Lemma accumulate_take (k : nat) : forall full tokens,
  take k (accumulate full tokens) = accumulate full (take k tokens).
Proof.
  induction k as [|k IH]; intros full tokens; [reflexivity|].
  destruct tokens as [|token rest]; [reflexivity|].
  cbn [accumulate take]. now rewrite IH.
Qed.

Section delta_frames.
Context (E : env).

Lemma send_text_no_deltas ws frame :
  delta_texts [frame] = [] -> steps (sends_deltas []) (server.send_text E ws frame).
Proof.
  intros Hframe w. unfold server.send_text, bind, get.
  destruct (bool_decide (ws ∈ closed w)); [apply sends_deltas_refl|].
  destruct (send_error E ws); [apply sends_deltas_refl|].
  now apply (no_deltas_tail _ _ [ESend ws frame]).
Qed.

Lemma store_text_no_deltas src text_content :
  steps (sends_deltas []) (server.store_text E src text_content).
Proof.
  intros w.
  destruct (storage.bind_parameter text_content) as [[]|e] eqn:Hbind;
  [destruct (storage.id_taken (messages w) (uuid4 E (uuid_calls w))) eqn:Hid|].
  - destruct (store_text_raise E src text_content w) as [e ->];
      [intros [_ H]; congruence|].
    apply (no_deltas_tail _ _ []); [simpl; now rewrite app_nil_r | reflexivity].
  - rewrite store_text_ok by now split.
    now apply (no_deltas_tail _ _ [EStore (new_row E src text_content w)]).
  - destruct (store_text_raise E src text_content w) as [e' ->];
      [intros [H _]; congruence|].
    apply (no_deltas_tail _ _ []); [simpl; now rewrite app_nil_r | reflexivity].
Qed.

Ltac no_deltas_prim :=
  first [ apply send_text_no_deltas; reflexivity
        | apply store_text_no_deltas
        | solve [intros ?; apply (no_deltas_tail _ _ []);
                 [simpl; now rewrite app_nil_r | reflexivity]]
        | solve [intros ?; eapply no_deltas_tail; [reflexivity | reflexivity]] ].

(** The loop sends the running concatenations, as far as it gets. *)
Lemma stream_deltas_emits ws run_id tokens : forall full,
  emits (fun l => exists k, l = map JStr (accumulate full (take k tokens)))
    (server.stream_deltas E ws run_id full tokens).
Proof.
  induction tokens as [|token rest IH]; intros full w.
  - exists []. split; [now exists 0%nat | apply sends_deltas_refl].
  - cbn [server.stream_deltas]. unfold server.send_text, bind at 1, bind at 1, get.
    destruct (bool_decide (ws ∈ closed w));
      [exists []; split; [now exists 0%nat | apply sends_deltas_refl]|].
    destruct (send_error E ws);
      [exists []; split; [now exists 0%nat | apply sends_deltas_refl]|].
    cbn [log modify].
    destruct (IH (full ++ token)%string
                (emit [ESend ws (protocol.make_chat_event run_id
                                   (full ++ token) "delta" false)] w))
      as (l & (k & ->) & new & Hnew & Hl).
    exists (JStr (full ++ token)
            :: map JStr (accumulate (full ++ token) (take k rest))).
    split; [now exists (S k)|].
    exists (ESend ws (protocol.make_chat_event run_id (full ++ token) "delta" false)
            :: new).
    split.
    + rewrite Hnew, trace_emit, <- app_assoc. reflexivity.
    + cbn [frames]. change (?f :: frames new) with ([f] ++ frames new).
      rewrite delta_texts_app, Hl. reflexivity.
Qed.

Lemma stream_deltas_running ws run_id tokens :
  Forall (fun t => t <> "") tokens ->
  emits running (server.stream_deltas E ws run_id "" tokens).
Proof.
  intros Hne w.
  destruct (stream_deltas_emits ws run_id tokens "" w) as (l & (k & ->) & Hs).
  eexists. split; [|exact Hs].
  exists (take k tokens). split; [|reflexivity].
  now apply Forall_take.
Qed.

(** A chat turn whose stream yields no empty token. *)
Lemma handle_chat_running ws cid run_id text :
  (forall history system,
     Forall (fun t => t <> "") (fst (chat_stream E history system))) ->
  emits running (server._handle_chat E ws cid run_id text).
Proof.
  intros Hstream. unfold server._handle_chat.
  apply emits_try_except.
  2:{ intros e.
      steps_by sends_deltas_refl no_deltas_trans no_deltas_prim. }
  unfold server.chat_body.
  apply (emits_quiet_then _ _ _ running_nil); [no_deltas_prim|]. intros _.
  apply (emits_quiet_then _ _ _ running_nil);
    [apply (steps_get _ sends_deltas_refl)|]. intros w0. cbv zeta.
  apply (emits_quiet_then _ _ _ running_nil).
  { unfold server.history_append, log, set_conversations.
    steps_by sends_deltas_refl no_deltas_trans no_deltas_prim. }
  intros history.
  apply (emits_quiet_then _ _ _ running_nil); [unfold log; no_deltas_prim|].
  intros _.
  specialize (Hstream history server.SYSTEM_PROMPT).
  destruct (chat_stream E history server.SYSTEM_PROMPT) as [tokens fault].
  apply emits_then_quiet; [now apply stream_deltas_running|].
  intros full.
  unfold server.history_append, server.history_trim, server.speak, log,
    set_conversations.
  steps_by sends_deltas_refl no_deltas_trans no_deltas_prim.
Qed.

End delta_frames.

Lemma str_tokens_nonempty (tokens : list json) (fault : option exn) :
  Forall (fun token => Py.truthy token = true) tokens ->
  Forall (fun t => t <> "") (fst (rest.str_tokens tokens fault)).
Proof.
  induction tokens as [|token tokens IH]; intros Hall; [constructor|].
  apply Forall_cons in Hall. destruct Hall as [Htoken Hall].
  cbn [rest.str_tokens]. destruct token; try constructor.
  specialize (IH Hall).
  destruct (rest.str_tokens tokens fault) as [strs fault']. cbn [fst] in *.
  constructor; [|exact IH]. now apply truthy_str.
Qed.

Lemma wired_stream_nonempty S N E history system :
  Forall (fun t => t <> "") (fst (chat_stream (rest.wired S N E) history system)).
Proof.
  cbn [rest.wired chat_stream].
  pose proof (chat_stream_truthy (json_loads E) S N history (Some system)) as Hall.
  destruct (llm.chat_stream S N (json_loads E) history (Some system))
    as [tokens fault].
  now apply str_tokens_nonempty.
Qed.

(** X18. With the model providers of this repository behind the handler,
    on every path of a chat turn, the texts of the delta frames sent are
    the running concatenations of non-empty tokens: every delta frame
    carries a str that extends the text of the one before by at least
    one byte, whatever the settings, the network and the transport do. *)
Theorem deltas_always_grow (S : config.Settings) (N : http.network) (E : env)
    (ws : nat) (cid run_id : string) (text : json) (w : world) :
  exists new tokens,
    trace (snd (server._handle_chat (rest.wired S N E) ws cid run_id text w))
    = trace w ++ new /\
    Forall (fun t => t <> "") tokens /\
    delta_texts (frames new) = map JStr (accumulate "" tokens).
Proof.
  destruct (handle_chat_running (rest.wired S N E) ws cid run_id text
              (wired_stream_nonempty S N E) w)
    as (l & (tokens & Hne & ->) & new & Hnew & Hl).
  now exists new, tokens.
Qed.

(** The turn of the sample stream. *)
Example deltas_of_completion :
  let E := rest.wired Net.with_key (Net.serving Net.completion JNull) Scenario.E0 in
  delta_texts
    (frames (drop (length (trace Scenario.joined))
               (trace (snd (server._handle_chat E 7 "abc" "run" (JStr "hi")
                              Scenario.joined)))))
  = [JStr "Hel"; JStr "Hello"].
Proof. vm_compute. reflexivity. Qed.

(** ** A gateway without a model *)

Lemma detect_none (S : config.Settings) (N : http.network) (e : exn) :
  config.llm_api_key S = "" ->
  http.get N llm.OLLAMA_TAGS = Raise e -> http.unreachable e = true ->
  llm._detect_provider S N = Ok ("none", "", JStr "").
Proof.
  intros Hkey Hget Hdown.
  unfold llm._detect_provider, llm.probe_ollama, and_then.
  rewrite Hget, Hdown, Hkey. cbn [Py.truthy String.eqb negb andb].
  now destruct (negb _).
Qed.

Lemma last40_last (history : list turn) (t : turn) :
  last (server.last40 (history ++ [t])) = Some t.
Proof.
  unfold server.last40. rewrite length_app. cbn [length].
  rewrite skipn_app.
  replace (length history + 1 - 40 - length history)%nat with 0%nat by lia.
  cbn [skipn]. apply last_snoc.
Qed.

Lemma tts_off_none (S : config.Settings) (N : http.network) (text : string)
    (voice : option string) :
  tts_off S = true -> tts.synthesize S N text voice = Ok None.
Proof.
  unfold tts_off, tts.synthesize. cbv zeta.
  destruct (String.eqb (config.tts_provider S) "disabled"); [reflexivity|].
  destruct (String.eqb (config.tts_provider S) "auto") eqn:Hauto.
  - apply String.eqb_eq in Hauto. rewrite Hauto.
    destruct (Py.truthy (JStr (config.tts_base_url S))); [discriminate|].
    destruct (Py.truthy (JStr (config.tts_api_key S))); [discriminate|].
    reflexivity.
  - cbn [existsb orb andb negb]. rewrite Hauto. cbn [orb].
    destruct (String.eqb (config.tts_provider S) "openai"); [discriminate|].
    destruct (String.eqb (config.tts_provider S) "scrappylabs"); [discriminate|].
    reflexivity.
Qed.

Lemma tts_no_answer (S : config.Settings) (N : http.network) (base_url text : string)
    (voice : option string) :
  no_answer N -> tts._openai_compatible_tts S N base_url text voice = Ok None.
Proof.
  intros Hno. unfold tts._openai_compatible_tts. cbv zeta.
  match goal with |- context [http.post N ?r] => specialize (Hno r) end.
  destruct (http.post N _) as [resp|e].
  - apply Z.eqb_neq in Hno. now rewrite Hno.
  - now rewrite Hno.
Qed.

Lemma tts_silent (S : config.Settings) (N : http.network) (text : string)
    (voice : option string) :
  tts_off S = true \/ no_answer N -> tts.synthesize S N text voice = Ok None.
Proof.
  intros [Hoff|Hno]; [now apply tts_off_none|].
  unfold tts.synthesize. cbv zeta.
  repeat match goal with
         | |- (if ?b then _ else _) = _ => destruct b
         end; try reflexivity; now apply tts_no_answer.
Qed.

(** X19. A gateway with nothing configured still answers: when the
    provider is left to [auto], ollama cannot be reached and no API key
    is set (and no speech is configured), a chat turn over a working
    transport and storage runs to its end on the notice
    [No LLM provider configured ...]: lifecycle start, one delta and the
    final frame with the notice, lifecycle end; the notice is appended to
    the transcript as the assistant's turn and stored as the reply. *)
Theorem unconfigured_turn_gets_notice (S : config.Settings) (N : http.network)
    (E : env) (ws : nat) (cid run_id : string) (text : json) (w : world)
    (e : exn)
    (Hauto : config.llm_provider S = "auto")
    (Hkey : config.llm_api_key S = "")
    (Hget : http.get N llm.OLLAMA_TAGS = Raise e)
    (Hdown : http.unreachable e = true)
    (Htts : tts_off S = true)
    (Hup : accepts (rest.wired S N E) ws w)
    (Hstore : storable (rest.wired S N E) (JStr llm.NO_PROVIDER) w) :
  let w' := stored (rest.wired S N E) "crab" (JStr llm.NO_PROVIDER)
              (streamed ws cid run_id text [llm.NO_PROVIDER] w) in
  server._handle_chat (rest.wired S N E) ws cid run_id text w = (Ok tt, w') /\
  sent_on ws (drop (length (trace w)) (trace w'))
  = [protocol.make_agent_lifecycle run_id "start";
     protocol.make_chat_event run_id llm.NO_PROVIDER "delta" false;
     protocol.make_chat_event run_id llm.NO_PROVIDER "final" true;
     protocol.make_agent_lifecycle run_id "end"] /\
  (is_Some (_conversations w !! cid) ->
   exists history,
     _conversations w' !! cid = Some history /\
     last history = Some (assistant_turn llm.NO_PROVIDER)) /\
  last (messages w')
  = Some (new_row (rest.wired S N E) "crab" (JStr llm.NO_PROVIDER) w).
Proof.
  intros w'.
  assert (Hjoin : join [llm.NO_PROVIDER] = llm.NO_PROVIDER) by reflexivity.
  assert (Hstream : forall history,
            chat_stream (rest.wired S N E) history server.SYSTEM_PROMPT
            = ([llm.NO_PROVIDER], None)).
  { intros history. cbn [rest.wired chat_stream]. unfold llm.chat_stream.
    rewrite Hauto. cbn [String.eqb Ascii.eqb Bool.eqb].
    now rewrite (detect_none S N e Hkey Hget Hdown). }
  split; [|split; [|split]].
  - pose proof (handle_chat_completes (rest.wired S N E) ws cid run_id text
                  [llm.NO_PROVIDER] None w Hup (Hstream _)) as Hrun.
    rewrite Hjoin in Hrun.
    rewrite Hrun; [now rewrite emit_nil | exact Hstore |].
    cbn [rest.wired synthesize]. now apply tts_off_none.
  - subst w'. rewrite trace_stored, trace_streamed, <- app_assoc, drop_app_length.
    rewrite sent_on_app, sent_on_turn_effects. cbn [sent_on].
    rewrite app_nil_r. reflexivity.
  - intros [h Hh]. subst w'. unfold stored, streamed. cbn [_conversations].
    rewrite Hh. cbn [default]. rewrite bool_decide_true by now exists h.
    eexists. split.
    + unfold emit, write_history. cbn [_conversations].
      apply lookup_insert_eq.
    + rewrite Hjoin.
      change [user_turn text; assistant_turn llm.NO_PROVIDER]
        with ([user_turn text] ++ [assistant_turn llm.NO_PROVIDER]).
      rewrite app_assoc.
      apply last40_last.
  - subst w'. unfold stored. cbn [messages]. apply last_snoc.
Qed.

Lemma unconfigured_turn_gets_notice_witness :
  let E := rest.wired Net.bare Net.down Scenario.E0 in
  let w' := stored E "crab" (JStr llm.NO_PROVIDER)
              (streamed 7 "abc" "r1" (JStr "hi") [llm.NO_PROVIDER]
                 Scenario.joined) in
  server._handle_chat E 7 "abc" "r1" (JStr "hi") Scenario.joined = (Ok tt, w') /\
  sent_on 7 (drop (length (trace Scenario.joined)) (trace w'))
  = [protocol.make_agent_lifecycle "r1" "start";
     protocol.make_chat_event "r1" llm.NO_PROVIDER "delta" false;
     protocol.make_chat_event "r1" llm.NO_PROVIDER "final" true;
     protocol.make_agent_lifecycle "r1" "end"] /\
  (is_Some (_conversations Scenario.joined !! "abc") ->
   exists history,
     _conversations w' !! "abc" = Some history /\
     last history = Some (assistant_turn llm.NO_PROVIDER)) /\
  last (messages w')
  = Some (new_row E "crab" (JStr llm.NO_PROVIDER) Scenario.joined).
Proof.
  apply (unconfigured_turn_gets_notice Net.bare Net.down Scenario.E0 7 "abc" "r1"
           (JStr "hi") Scenario.joined
           (Exception "ConnectError" "All connection attempts failed")).
  - reflexivity.
  - reflexivity.
  - reflexivity.
  - reflexivity.
  - reflexivity.
  - split; [vm_compute; intros H; inversion H | reflexivity].
  - split; vm_compute; reflexivity.
Defined.

(** ** Speech that is off or out of reach *)

Lemma audio_broadcasts_app (a b : list json) :
  audio_broadcasts (a ++ b) = audio_broadcasts a ++ audio_broadcasts b.
Proof. apply List.filter_app. Qed.

Lemma mute_refl w : mute w w.
Proof. exists []. split; [now rewrite app_nil_r | reflexivity]. Qed.

Lemma mute_trans w1 w2 w3 : mute w1 w2 -> mute w2 w3 -> mute w1 w3.
Proof.
  intros (n1 & H1 & A1) (n2 & H2 & A2). exists (n1 ++ n2). split.
  - now rewrite H2, H1, app_assoc.
  - now rewrite frames_app, audio_broadcasts_app, A1, A2.
Qed.

Lemma mute_tail w w' tail :
  trace w' = trace w ++ tail -> audio_broadcasts (frames tail) = [] -> mute w w'.
Proof. intros Ht Ha. now exists tail. Qed.

Section without_speech.
Context (E : env).
Hypothesis Hsilent : forall text, synthesize E text = Ok None.

Lemma send_text_mute ws frame :
  audio_broadcasts [frame] = [] -> steps mute (server.send_text E ws frame).
Proof.
  intros Hframe w. unfold server.send_text, bind, get.
  destruct (bool_decide (ws ∈ closed w)); [apply mute_refl|].
  destruct (send_error E ws); [apply mute_refl|].
  now apply (mute_tail _ _ [ESend ws frame]).
Qed.

Lemma store_text_mute src text_content :
  steps mute (server.store_text E src text_content).
Proof.
  intros w.
  destruct (storage.bind_parameter text_content) as [[]|e] eqn:Hbind;
  [destruct (storage.id_taken (messages w) (uuid4 E (uuid_calls w))) eqn:Hid|].
  - destruct (store_text_raise E src text_content w) as [e ->];
      [intros [_ H]; congruence|].
    apply (mute_tail _ _ []); [simpl; now rewrite app_nil_r | reflexivity].
  - rewrite store_text_ok by now split.
    now apply (mute_tail _ _ [EStore (new_row E src text_content w)]).
  - destruct (store_text_raise E src text_content w) as [e' ->];
      [intros [H _]; congruence|].
    apply (mute_tail _ _ []); [simpl; now rewrite app_nil_r | reflexivity].
Qed.

Lemma speak_mute ws full : steps mute (server.speak E ws full).
Proof.
  intros w. unfold server.speak, bind, lift. rewrite Hsilent. apply mute_refl.
Qed.

Ltac mute_prim :=
  first [ apply send_text_mute; reflexivity
        | apply store_text_mute
        | apply speak_mute
        | solve [intros ?; apply (mute_tail _ _ []);
                 [simpl; now rewrite app_nil_r | reflexivity]]
        | solve [intros ?; eapply mute_tail; [reflexivity | reflexivity]] ].

Lemma stream_deltas_mute ws run_id tokens : forall full,
  steps mute (server.stream_deltas E ws run_id full tokens).
Proof.
  induction tokens as [|token rest IH]; intros full; simpl.
  - apply (steps_ret _ mute_refl).
  - steps_by mute_refl mute_trans ltac:(first [apply IH | mute_prim]).
Qed.

Lemma handle_chat_mute ws cid run_id text :
  steps mute (server._handle_chat E ws cid run_id text).
Proof.
  unfold server._handle_chat, server.chat_body, server.history_append,
    server.history_trim, log, set_conversations.
  steps_by mute_refl mute_trans
    ltac:(first [apply stream_deltas_mute | mute_prim]).
Qed.

End without_speech.

(** X20. When speech is off ([tts_provider] is [disabled], or [auto]
    with neither a base URL nor an API key, or a name that is not known),
    or when no request is answered with status 200 (the endpoint cannot
    be reached, times out, or answers an error), [synthesize] returns
    [None] without raising, and no chat turn sends an [audio_broadcast]
    frame, on any path. *)
Theorem no_speech_no_audio (S : config.Settings) (N : http.network)
    (Hquiet : tts_off S = true \/ no_answer N) :
  (forall text voice, tts.synthesize S N text voice = Ok None) /\
  (forall E ws cid run_id text w,
     mute w (snd (server._handle_chat (rest.wired S N E) ws cid run_id text w))).
Proof.
  split.
  - intros text voice. now apply tts_silent.
  - intros E ws cid run_id text w. apply handle_chat_mute.
    intros full. cbn [rest.wired synthesize]. now apply tts_silent.
Qed.

Lemma no_speech_no_audio_witness :
  (forall text voice, tts.synthesize Net.with_key Net.down text voice = Ok None) /\
  (forall E ws cid run_id text w,
     mute w (snd (server._handle_chat (rest.wired Net.with_key Net.down E)
                    ws cid run_id text w))).
Proof.
  apply (no_speech_no_audio Net.with_key Net.down). left. reflexivity.
Defined.

(** ** Voice uploads *)

Lemma whisper_api_cases (S : config.Settings) (N : http.network)
    (base_url audio_data filename : string) :
  match asr._whisper_api S N base_url audio_data filename with
  | Ok t =>
      t = JNull \/
      exists req resp result,
        http.content req
        = http.Multipart filename audio_data "audio/wav" [("model", "whisper-1")] /\
        http.post N req = Ok resp /\ http.status_code resp = 200 /\
        http.json_body resp = Ok result /\ py_get result "text" (JStr "") = Ok t
  | Raise e => transcription_failed N e
  end.
Proof.
  unfold asr._whisper_api, and_then. cbv zeta.
  match goal with |- context [http.post N ?r] => set (req := r) end.
  destruct (http.post N req) as [resp|e] eqn:Hpost.
  - destruct (http.status_code resp =? 200) eqn:Hstatus; [|now left].
    apply Z.eqb_eq in Hstatus.
    destruct (http.json_body resp) as [result|e] eqn:Hjson.
    + destruct (py_get result "text" (JStr "")) as [t|e] eqn:Htext.
      * right. now exists req, resp, result.
      * destruct (http.unreachable e) eqn:Hdown; [now left|].
        exists req. right. exists resp. repeat split; try assumption.
        right. now exists result.
    + destruct (http.unreachable e) eqn:Hdown; [now left|].
      exists req. right. exists resp. repeat split; try assumption. now left.
  - destruct (http.unreachable e) eqn:Hdown; [now left|].
    exists req. now left.
Qed.

Lemma transcribe_cases (S : config.Settings) (N : http.network)
    (audio_data filename : string) :
  match asr.transcribe S N audio_data filename with
  | Ok t =>
      t = JNull \/
      (asr_off S = false /\
       exists req resp result,
         http.content req
         = http.Multipart filename audio_data "audio/wav" [("model", "whisper-1")] /\
         http.post N req = Ok resp /\ http.status_code resp = 200 /\
         http.json_body resp = Ok result /\ py_get result "text" (JStr "") = Ok t)
  | Raise e => asr_off S = false /\ transcription_failed N e
  end.
Proof.
  unfold asr.transcribe, asr_off. cbv zeta. cbn [existsb].
  destruct (String.eqb (config.asr_provider S) "disabled"); [now left|].
  destruct (String.eqb (config.asr_provider S) "auto").
  - destruct (Py.truthy (JStr (config.asr_base_url S))).
    + pose proof (whisper_api_cases S N (config.asr_base_url S) audio_data filename)
        as Hcases.
      destruct (asr._whisper_api S N _ audio_data filename) as [t|e].
      * destruct Hcases as [->|Hcases]; [now left | right; now split].
      * now split.
    + destruct (Py.truthy (JStr (config.asr_api_key S))); [|now left].
      pose proof (whisper_api_cases S N llm.OPENAI_URL audio_data filename)
        as Hcases.
      destruct (asr._whisper_api S N _ audio_data filename) as [t|e].
      * destruct Hcases as [->|Hcases]; [now left | right; now split].
      * now split.
  - pose proof (whisper_api_cases S N
                  (str_or (config.asr_base_url S) llm.OPENAI_URL)
                  audio_data filename) as Hcases.
    destruct (String.eqb (config.asr_provider S) "openai").
    + cbn [orb andb negb] in *.
      destruct (asr._whisper_api S N _ audio_data filename) as [t|e].
      * destruct Hcases as [->|Hcases]; [now left | right; now split].
      * now split.
    + destruct (String.eqb (config.asr_provider S) "whisper"); [|now left].
      cbn [orb andb negb] in *.
      destruct (asr._whisper_api S N _ audio_data filename) as [t|e].
      * destruct Hcases as [->|Hcases]; [now left | right; now split].
      * now split.
Qed.

(** X21. [POST /voice] answers 200 only with a transcription that is
    truthy and that the transcription endpoint returned, with status 200,
    as the ["text"] of a JSON object, for a request that carried the
    uploaded bytes under the uploaded file name (["audio.wav"] when there
    is none); in every other case in which it answers, the answer is 503
    with the fixed error. It raises only what the request raised, other
    than a connection error or a timeout, or what reading a 200 body as
    a JSON object raised. With transcription off it makes no request and
    answers 503. *)
Theorem voice_upload_answers (S : config.Settings) (N : http.network)
    (audio_data : string) (filename : option string) :
  match rest.voice_upload S N audio_data filename with
  | Ok answer =>
      (exists t, answer = (200, JDict [("transcription", t)]) /\
                 Py.truthy t = true /\ asr_off S = false /\
                 transcribed N audio_data filename t) \/
      answer = ASR_UNAVAILABLE
  | Raise e => asr_off S = false /\ transcription_failed N e
  end /\
  (asr_off S = true ->
   forall N', rest.voice_upload S N' audio_data filename = Ok ASR_UNAVAILABLE).
Proof.
  split.
  - unfold rest.voice_upload, and_then.
    pose proof (transcribe_cases S N audio_data
                  (str_or (default "" filename) "audio.wav")) as Hcases.
    destruct (asr.transcribe S N audio_data _) as [t|e]; [|exact Hcases].
    destruct (Py.truthy t) eqn:Ht; [|now right].
    left. exists t. destruct Hcases as [->|[Hon Hcases]]; [discriminate Ht|].
    repeat split; assumption.
  - intros Hoff N'. unfold rest.voice_upload, and_then.
    pose proof (transcribe_cases S N' audio_data
                  (str_or (default "" filename) "audio.wav")) as Hcases.
    destruct (asr.transcribe S N' audio_data _) as [t|e].
    + destruct Hcases as [->|[Hon _]]; [reflexivity | congruence].
    + destruct Hcases as [Hon _]. congruence.
Qed.

(** An upload that is transcribed, and three that are not. *)
Example voice_upload_samples :
  rest.voice_upload Net.with_key
    (Net.serving [] (JDict [("text", JStr "hello")])) "RIFF" None
  = Ok (200, JDict [("transcription", JStr "hello")]) /\
  rest.voice_upload Net.with_key (Net.serving [] (JDict [])) "RIFF" None
  = Ok ASR_UNAVAILABLE /\
  rest.voice_upload Net.with_key Net.down "RIFF" (Some "memo.wav")
  = Ok ASR_UNAVAILABLE /\
  rest.voice_upload Net.with_key (Net.serving [] (JList [])) "RIFF" None
  = Raise (Exception "AttributeError" "'list' object has no attribute 'get'").
Proof. repeat split. Qed.

(** ** A model stream that breaks off *)

(** X22. When the model stream raises after yielding some tokens, a chat
    turn over a working transport sends the lifecycle start, one delta
    per token yielded, and then one error event that carries the text of
    the exception (none for a disconnect), and returns; it sends no final
    frame and no lifecycle end, stores no reply, and leaves the user's
    turn in the transcript without an answer. *)
Theorem broken_stream_reports_error (E : env) (ws : nat) (cid run_id : string)
    (text : json) (tokens : list string) (e : exn) (w : world)
    (Hup : accepts E ws w)
    (Hstream : chat_stream E (default [] (_conversations w !! cid)
                              ++ [user_turn text]) server.SYSTEM_PROMPT
               = (tokens, Some e)) :
  exists w',
    server._handle_chat E ws cid run_id text w = (Ok tt, w') /\
    sent_on ws (drop (length (trace w)) (trace w'))
    = [protocol.make_agent_lifecycle run_id "start"]
      ++ map (fun acc => protocol.make_chat_event run_id acc "delta" false)
             (accumulate "" tokens)
      ++ match e with
         | WebSocketDisconnect => []
         | _ => [server.error_frame run_id e]
         end /\
    messages w' = messages w /\
    _conversations w'
    = _conversations
        (write_history cid (bool_decide (is_Some (_conversations w !! cid)))
           (default [] (_conversations w !! cid) ++ [user_turn text]) w).
Proof.
  unfold server._handle_chat, try_except at 1.
  unfold server.chat_body.
  erewrite bind_ok by (apply send_text_ok; assumption).
  erewrite bind_ok by reflexivity. cbn [_conversations emit].
  set (attached := bool_decide (is_Some (_conversations w !! cid))).
  set (h := default [] (_conversations w !! cid)) in *.
  erewrite bind_ok by apply history_append_run.
  erewrite bind_ok by reflexivity.
  fold (user_turn text). rewrite Hstream.
  erewrite bind_ok by (apply stream_deltas_ok; exact Hup).
  erewrite bind_raise by reflexivity.
  match goal with
  | |- exists w', ?run ?w0 = _ /\ _ =>
      destruct (handle_chat_except E ws run_id e w0 Hup) as (tail & Hrun & Htail)
  end.
  rewrite Hrun. eexists. split; [reflexivity|].
  split; [|split; reflexivity].
  rewrite !trace_emit. cbn [trace write_history emit].
  rewrite <- !app_assoc, drop_app_length.
  rewrite !sent_on_app. cbn [sent_on]. rewrite Nat.eqb_refl.
  cbn [app]. f_equal. unfold delta_sends. rewrite <- map_map, sent_on_sends.
  f_equal. subst tail. destruct e; cbn [sent_on]; now rewrite ?Nat.eqb_refl.
Qed.

Lemma broken_stream_reports_error_witness :
  let E := rest.wired Net.with_key (Net.serving Net.broken_completion JNull)
             Scenario.E0 in
  exists w',
    server._handle_chat E 7 "abc" "r1" (JStr "hi") Scenario.joined = (Ok tt, w') /\
    sent_on 7 (drop (length (trace Scenario.joined)) (trace w'))
    = [protocol.make_agent_lifecycle "r1" "start"]
      ++ map (fun acc => protocol.make_chat_event "r1" acc "delta" false)
             (accumulate "" ["Hel"])
      ++ [server.error_frame "r1"
            (Exception "TypeError"
               "list indices must be integers or slices, not str")] /\
    messages w' = messages Scenario.joined /\
    _conversations w'
    = _conversations
        (write_history "abc"
           (bool_decide (is_Some (_conversations Scenario.joined !! "abc")))
           (default [] (_conversations Scenario.joined !! "abc")
            ++ [user_turn (JStr "hi")]) Scenario.joined).
Proof.
  apply (broken_stream_reports_error
           (rest.wired Net.with_key (Net.serving Net.broken_completion JNull)
              Scenario.E0)
           7 "abc" "r1" (JStr "hi") ["Hel"]
           (Exception "TypeError"
              "list indices must be integers or slices, not str")
           Scenario.joined).
  - split; [vm_compute; intros H; inversion H | reflexivity].
  - vm_compute. reflexivity.
Defined.

(** ** The health endpoint *)

(** X23. [GET /health] changes nothing. When it answers, the status is
    200, the body reports the number of registered sessions, and if it
    reports the provider [none], every chat turn is answered with the
    notice that no provider is configured; when it raises, the detection
    of the provider raised, and every model stream raises the same
    exception before its first token. *)
Theorem health_reports_provider (S : config.Settings) (N : http.network)
    (w : world) :
  match rest.health S N w with
  | (Ok (status, body), w') =>
      w' = w /\ status = 200 /\
      field body "status" = JStr "ok" /\
      field body "clients" = JInt (Z.of_nat (size (_clients w))) /\
      (field (field body "llm") "provider" = JStr "none" ->
       forall json_loads messages system,
         llm.chat_stream S N json_loads messages system
         = ([JStr llm.NO_PROVIDER], None))
  | (Raise e, w') =>
      w' = w /\
      forall json_loads messages system,
        llm.chat_stream S N json_loads messages system = ([], Some e)
  end.
Proof.
  unfold rest.health, llm.get_provider_info, llm.chat_stream, bind, lift, get,
    ret, and_then.
  destruct (String.eqb (config.llm_provider S) "auto").
  - destruct (llm._detect_provider S N) as [[[provider base_url] model]|e].
    + repeat split. cbn [field Py.dict_get String.eqb Ascii.eqb Bool.eqb].
      intros Hnone. injection Hnone as ->. reflexivity.
    + now split.
  - repeat split. cbn [field Py.dict_get String.eqb Ascii.eqb Bool.eqb].
    intros Hnone. injection Hnone as Hnone. now rewrite Hnone.
Qed.

(** ** From start-up to the first session *)

(** X24. The token generated at start-up opens a session: when
    [ensure_token] has generated a token, a [connect] request that
    carries it, on a transport that takes frames, is answered with
    hello-ok and registers the session, which is then authenticated; the
    same request with any other token ends the pass without a session:
    the connection is refused and closed, or the check raises. *)
Theorem generated_token_opens_session (H : config.host) (S S' : config.Settings)
    (file file' : option string) (token : string) (N : http.network) (E : env)
    (ws : nat) (cid text : string) (d p a : pydict) (w : world)
    (Hunset : config.auth_token S = "")
    (Hstart : config.ensure_token H S file = (Ok token, S', file'))
    (Hup : accepts (rest.wired S' N E) ws w)
    (Hdec : json_loads E text = Ok (JDict d))
    (Htype : Py.eq_str (Py.dict_get d "type" (JStr "")) "req" = true)
    (Hmethod : Py.eq_str (Py.dict_get d "method" (JStr "")) "connect" = true)
    (Hparams : Py.dict_get d "params" (JDict []) = JDict p)
    (Hauth : Py.dict_get p "auth" (JDict []) = JDict a) :
  (Py.dict_get a "token" (JStr "") = JStr token ->
   exists w',
     server.handle_text (rest.wired S' N E) ws cid false text w
     = (Ok (server.Continue true), w') /\
     _clients w' !! cid = Some ws /\
     sent_on ws (drop (length (trace w)) (trace w'))
     = [protocol.make_hello_ok (Py.dict_get d "id" (JStr ""))
          (uuid4 E (uuid_calls w))]) /\
  (Py.dict_get a "token" (JStr "") <> JStr token ->
   exists w',
     (server.handle_text (rest.wired S' N E) ws cid false text w
      = (Ok server.Return, w') \/
      exists e, server.handle_text (rest.wired S' N E) ws cid false text w
                = (Raise e, w')) /\
     _clients w' = _clients w /\ _conversations w' = _conversations w).
Proof.
  pose proof (ensure_token_outcome H S file Hunset) as Hsecret.
  rewrite Hstart in Hsecret.
  destruct Hsecret as (_ & Htoken & _ & Haccept & Honly).
  assert (Hpass : server.handle_text (rest.wired S' N E) ws cid false text w
                  = server.on_connect (rest.wired S' N E) ws cid
                      (Py.dict_get d "id" (JStr "")) (JDict p) w).
  { rewrite (handle_text_request (rest.wired S' N E) ws cid false text d w
               Hdec Htype).
    cbv zeta. unfold py_get at 1, lift at 1, bind at 1.
    now rewrite Hparams, Hmethod. }
  rewrite Hpass.
  split.
  - intros Hcarried.
    rewrite (on_connect_valid (rest.wired S' N E) ws cid _ p a w Hup Hauth)
      by (rewrite Hcarried; exact Haccept).
    eexists. split; [reflexivity|]. split.
    + simpl. apply lookup_insert_eq.
    + rewrite trace_emit. cbn [trace uuid_drawn registered].
      rewrite drop_app_length. apply sent_on_send.
  - intros Hother.
    destruct (verify_token (auth_token (rest.wired S' N E))
                (Py.dict_get a "token" (JStr ""))) as [[|]|e] eqn:Hcheck.
    + exfalso. apply Hother, Honly. exact Hcheck.
    + rewrite (on_connect_invalid (rest.wired S' N E) ws cid _ p a w Hup Hauth Hcheck).
      eexists. split; [left; reflexivity|]. split; reflexivity.
    + rewrite (on_connect_raises (rest.wired S' N E) ws cid _ p a e w Hauth Hcheck).
      eexists. split; [right; eexists; reflexivity|]. split; reflexivity.
Qed.

Lemma generated_token_opens_session_witness :
  let S' := config.set_auth_token Host.unset
              ("ocgw_" ++ config.token_hex Host.quiet 24)%string in
  let E := rest.wired S' Net.down Scenario.E0 in
  let a := [("token", JStr ("ocgw_" ++ config.token_hex Host.quiet 24)%string)] in
  let d := [("type", JStr "req"); ("id", JStr "1"); ("method", JStr "connect");
            ("params", JDict [("auth", JDict a)])] in
  (Py.dict_get a "token" (JStr "")
   = JStr ("ocgw_" ++ config.token_hex Host.quiet 24)%string ->
   exists w',
     server.handle_text E 7 "abc" false Net.connect_generated Sample.boot
     = (Ok (server.Continue true), w') /\
     _clients w' !! "abc" = Some 7%nat /\
     sent_on 7 (drop (length (trace Sample.boot)) (trace w'))
     = [protocol.make_hello_ok (Py.dict_get d "id" (JStr ""))
          (uuid4 Scenario.E0 (uuid_calls Sample.boot))]) /\
  (Py.dict_get a "token" (JStr "")
   <> JStr ("ocgw_" ++ config.token_hex Host.quiet 24)%string ->
   exists w',
     (server.handle_text E 7 "abc" false Net.connect_generated Sample.boot
      = (Ok server.Return, w') \/
      exists e, server.handle_text E 7 "abc" false Net.connect_generated Sample.boot
                = (Raise e, w')) /\
     _clients w' = _clients Sample.boot /\
     _conversations w' = _conversations Sample.boot).
Proof.
  apply (generated_token_opens_session Host.quiet Host.unset
           (config.set_auth_token Host.unset
              ("ocgw_" ++ config.token_hex Host.quiet 24)%string)
           None
           (Some (config.join config.LF
                    [(config.TOKEN_KEY ++ "ocgw_"
                      ++ config.token_hex Host.quiet 24)%string]
                  ++ config.LF)%string)
           ("ocgw_" ++ config.token_hex Host.quiet 24)%string
           Net.down Scenario.E0 7 "abc" Net.connect_generated
           [("type", JStr "req"); ("id", JStr "1"); ("method", JStr "connect");
            ("params",
             JDict [("auth",
                     JDict [("token",
                             JStr ("ocgw_" ++ config.token_hex Host.quiet 24)%string)])])]
           [("auth",
             JDict [("token",
                     JStr ("ocgw_" ++ config.token_hex Host.quiet 24)%string)])]
           [("token", JStr ("ocgw_" ++ config.token_hex Host.quiet 24)%string)]
           Sample.boot).
  - reflexivity.
  - reflexivity.
  - split; [vm_compute; intros H; inversion H | reflexivity].
  - vm_compute. reflexivity.
  - reflexivity.
  - reflexivity.
  - reflexivity.
  - reflexivity.
Defined.
